(** * Medication calendar (src/App.js): schedule resolution and daily-record
      synchronisation, embedded in Rocq.

    The file follows the source top-down:
    - [JSDate]    the part of the ECMAScript [Date] object the source uses
                  (day arithmetic, the host time zone, [getDay], [setDate],
                  the [Date] constructor, formatting);
    - [Schedule]  [formatDateForFirestore], [getLastTuesdayOfMonth],
                  [getFilteredMedications], [groupedMedications] and the slot
                  ordering of the render;
    - [Json]      [JSON.stringify] / [JSON.parse] as an interface with laws,
                  and one lawful implementation;
    - [Sync]      the component state, the Firestore document store with its
                  listeners, the effect of hook 4 and the event handlers;
    - [Manage]    the dialog of the medication definitions;
    - [Profile]   the user name and its copy in [localStorage]. *)

From Stdlib Require Import ZArith Lia Bool List Ascii String.
From Stdlib Require Import DecimalString DecimalZ Sorted Permutation.
From stdpp Require Import base gmap strings list.

Local Open Scope Z_scope.

(* ===================================================================== *)
(** ** The ECMAScript Date arithmetic used by the source                 *)
(* ===================================================================== *)

Module JSDate.

(** A [Date] object, as the program can see it.  The source reads a date
    only through its local-time components ([getFullYear], [getMonth],
    [getDate], [getDay], [toDateString]), so a [Date] is kept here by
    LocalTime(tv) of its time value tv, in milliseconds.  Only valid dates
    are values of this type: where the source would make an Invalid Date
    the operations below answer [None]. *)
Record Date : Type := DateOf { localTime : Z }.

Definition msPerDay : Z := 86400000.

(** Day(t) and TimeWithinDay(t). *)
Definition Day (t : Z) : Z := t / msPerDay.
Definition TimeWithinDay (t : Z) : Z := t mod msPerDay.

(** DayFromYear(y): the day number of the first day of year [y]. *)
Definition DayFromYear (y : Z) : Z :=
  365 * (y - 1970) + (y - 1969) / 4 - (y - 1901) / 100 + (y - 1601) / 400.

Definition isLeapYear (y : Z) : bool :=
  (y mod 4 =? 0) && (negb (y mod 100 =? 0) || (y mod 400 =? 0)).

Definition DaysInYear (y : Z) : Z := if isLeapYear y then 366 else 365.

(** YearFromTime: the largest [y] with [DayFromYear y <= day].  The estimate
    from the mean year length is off by at most one year either way. *)
Definition YearFromDay (day : Z) : Z :=
  let y := 1970 + (400 * day) / 146097 in
  if day <? DayFromYear y then y - 1
  else if DayFromYear (y + 1) <=? day then y + 1
  else y.

Definition InLeapYear (day : Z) : Z :=
  if isLeapYear (YearFromDay day) then 1 else 0.

Definition DayWithinYear (day : Z) : Z := day - DayFromYear (YearFromDay day).

(** The day within the year on which month [m] (0..11) starts. *)
Definition monthStart (leap m : Z) : Z :=
  match m with
  | 0 => 0
  | 1 => 31
  | 2 => 59 + leap
  | 3 => 90 + leap
  | 4 => 120 + leap
  | 5 => 151 + leap
  | 6 => 181 + leap
  | 7 => 212 + leap
  | 8 => 243 + leap
  | 9 => 273 + leap
  | 10 => 304 + leap
  | 11 => 334 + leap
  | _ => 365 + leap
  end.

(** MonthFromTime. *)
Definition MonthFromDay (day : Z) : Z :=
  let d := DayWithinYear day in
  let l := InLeapYear day in
  if d <? 31 then 0
  else if d <? 59 + l then 1
  else if d <? 90 + l then 2
  else if d <? 120 + l then 3
  else if d <? 151 + l then 4
  else if d <? 181 + l then 5
  else if d <? 212 + l then 6
  else if d <? 243 + l then 7
  else if d <? 273 + l then 8
  else if d <? 304 + l then 9
  else if d <? 334 + l then 10
  else 11.

(** DateFromTime: the day of the month, 1-based. *)
Definition DateFromDay (day : Z) : Z :=
  DayWithinYear day - monthStart (InLeapYear day) (MonthFromDay day) + 1.

(** WeekDay: 0 = Sunday ... 6 = Saturday; day 0 (1 January 1970) is a
    Thursday. *)
Definition WeekDay (day : Z) : Z := (day + 4) mod 7.

(** MakeDay(year, month, date): months outside 0..11 carry into the year,
    dates outside the month carry into the neighbouring months. *)
Definition MakeDay (year month date : Z) : Z :=
  let ym := year + month / 12 in
  let mn := month mod 12 in
  DayFromYear ym + monthStart (if isLeapYear ym then 1 else 0) mn + date - 1.

Definition MakeDate (day time : Z) : Z := day * msPerDay + time.

(** *** The methods of [Date] the source calls *)

Definition getFullYear (d : Date) : Z := YearFromDay (Day (localTime d)).
Definition getMonth (d : Date) : Z := MonthFromDay (Day (localTime d)).
Definition getDate (d : Date) : Z := DateFromDay (Day (localTime d)).
Definition getDay (d : Date) : Z := WeekDay (Day (localTime d)).

(** *** The host time zone *)

(** LocalTZA(t, isUTC) of the standard, the offset of local time from UTC in
    milliseconds: at the instant [t] when [isUTC] is true, at the local time
    [t] when it is false (where a local time is skipped or repeated the host
    decides, as the standard lets it). *)
Class TimeZone : Type := { LocalTZA : Z -> bool -> Z }.

(** A zone that never changes its offset. *)
Definition fixedOffset (offset : Z) : TimeZone :=
  {| LocalTZA := fun _ _ => offset |}.

(** UTC-3 all year: Buenos Aires. *)
Definition buenosAires : TimeZone := fixedOffset (-10800000).

Section Zone.

Context {tz : TimeZone}.

(** LocalTime(t) and UTC(t). *)
Definition LocalTime (t : Z) : Z := t + LocalTZA t true.
Definition UTC (t : Z) : Z := t - LocalTZA t false.

(** TimeClip(time): a time value is at most 8.64e15 ms (100 000 000 days)
    from the epoch; [None] is NaN. *)
Definition maxTime : Z := 8640000000000000.

Definition TimeClip (time : Z) : option Z :=
  if Z.abs time <=? maxTime then Some time else None.

(** The [Date] whose time value is TimeClip(UTC(t)) for a local time [t]:
    what the constructor and the setters store.  [None] is an Invalid
    Date. *)
Definition dateOfLocal (t : Z) : option Date :=
  match TimeClip (UTC t) with
  | Some tv => Some (DateOf (LocalTime tv))
  | None => None
  end.

(** [d.setDate(n)]: the year, the month and the time of day of [d] in local
    time with day of month [n], taken back through the time zone. *)
Definition setDate (d : Date) (n : Z) : option Date :=
  dateOfLocal (MakeDate (MakeDay (getFullYear d) (getMonth d) n)
                        (TimeWithinDay (localTime d))).

(** [new Date(year, month, date)]: local midnight; a year from 0 to 99 is
    taken as 1900 + year. *)
Definition newDate (year month date : Z) : option Date :=
  let yr := if (0 <=? year) && (year <=? 99) then 1900 + year else year in
  dateOfLocal (MakeDate (MakeDay yr month date) 0).

End Zone.

(** The [Date] that reads as local midnight of a calendar day; for writing
    dates down. *)
Definition localMidnight (year month date : Z) : Date :=
  DateOf (MakeDate (MakeDay year month date) 0).

(** [new Date(d)]: a copy. *)
Definition copyDate (d : Date) : Date := DateOf (localTime d).

(** *** Strings built from numbers *)

(** [String(n)] for an integer [n]: decimal digits, a leading minus sign for
    negative numbers. *)
Definition String_of (n : Z) : string := NilZero.string_of_int (Z.to_int n).

Fixpoint repeatChar (c : ascii) (n : nat) : string :=
  match n with
  | O => EmptyString
  | S n' => String c (repeatChar c n')
  end.

(** [s.padStart(targetLength, c)] for a one-character filler. *)
Definition padStart (s : string) (targetLength : nat) (c : ascii) : string :=
  repeatChar c (targetLength - String.length s) +:+ s.

(** ToZeroPaddedDecimalString(n, minLength), for [0 <= n]. *)
Definition ToZeroPaddedDecimalString (n : Z) (minLength : nat) : string :=
  padStart (String_of n) minLength "0"%char.

Definition weekdayName (wd : Z) : string :=
  match wd with
  | 0 => "Sun" | 1 => "Mon" | 2 => "Tue" | 3 => "Wed"
  | 4 => "Thu" | 5 => "Fri" | _ => "Sat"
  end.

Definition monthName (m : Z) : string :=
  match m with
  | 0 => "Jan" | 1 => "Feb" | 2 => "Mar" | 3 => "Apr"
  | 4 => "May" | 5 => "Jun" | 6 => "Jul" | 7 => "Aug"
  | 8 => "Sep" | 9 => "Oct" | 10 => "Nov" | _ => "Dec"
  end.

(** [d.toDateString()], e.g. "Tue Mar 26 2024" (DateString(tv) of the
    standard): weekday, month, two-digit day, sign and four-digit year. *)
Definition toDateString (d : Date) : string :=
  let yv := getFullYear d in
  let yearSign := if 0 <=? yv then "" else "-" in
  weekdayName (getDay d) +:+ " " +:+ monthName (getMonth d) +:+ " " +:+
  ToZeroPaddedDecimalString (getDate d) 2 +:+ " " +:+
  yearSign +:+ ToZeroPaddedDecimalString (Z.abs yv) 4.

End JSDate.

(* ===================================================================== *)
(** ** Schedule resolution                                                *)
(* ===================================================================== *)

Module Schedule.
Import JSDate.

(** A medication definition, with the field names of the source. *)
Record Med : Type := mkMed {
  id : string;
  name : string;
  dosage : string;
  time : string;
  frequency : string
}.

Definition defaultMedications : list Med :=
  [ mkMed "t4" "T4" "" "Ayunas" "Diario";
    mkMed "levecom-m" "Levecom" "500mg" "Mañana Post desayuno" "Diario";
    mkMed "deslefex" "Deslefex" "" "Mañana Post desayuno" "Diario";
    mkMed "lukast" "Lukast" "" "Mañana Post desayuno" "Diario";
    mkMed "hidrotisona-m" "Hidrotisona" "10mg" "Mañana Post desayuno" "Diario";
    mkMed "velsarten" "Velsarten" "160mg" "Mañana Post desayuno" "Diario";
    mkMed "amlodipino" "Amlodipino" "1/2 5mg" "Mañana Post desayuno" "Diario";
    mkMed "dexlansoprazol" "Dexlansoprazol" "" "Mañana Post desayuno" "Diario";
    mkMed "hidrotisona-ac" "Hidrotisona" "" "Antes de Comer 13hs" "Diario";
    mkMed "b12" "B12" "3 veces x semana sublingual" "Antes de Comer 13hs"
          "Martes, Jueves, Sábados";
    mkMed "hidrotisona-t" "Hidrotisona" "1/2 5mg" "Tarde 18hs" "Diario";
    mkMed "levecom-n" "Levecom" "" "Noche" "Diario";
    mkMed "novo-insomnum" "Novo Insomnum" "" "Noche" "Diario";
    mkMed "roovex" "Reorex" "10mg" "Noche" "Diario";
    mkMed "vitamina-d" "Vitamina D (Firesole/Apolar)" "1 vez al mes" "Mensual"
          "Último Martes del Mes";
    mkMed "miopropan" "Mipropan" "" "Según necesidad" "En caso de diarrea";
    mkMed "naproxeno" "Naproxeno" "" "Según necesidad"
          "En caso de dolor de cabeza" ].

(** [formatDateForFirestore]: the document id of a day, YYYY-MM-DD. *)
Definition formatDateForFirestore (date : Date) : string :=
  let d := copyDate date in
  let year := getFullYear d in
  let month := padStart (String_of (getMonth d + 1)) 2 "0"%char in
  let day := padStart (String_of (getDate d)) 2 "0"%char in
  String_of year +:+ "-" +:+ month +:+ "-" +:+ day.

Section Zoned.

Context {tz : TimeZone}.

(** The loop of [getLastTuesdayOfMonth]: step one day back until the day of
    the week is 2 (Tuesday).  [None] stands for a loop that has not exited
    within [fuel] iterations; on an Invalid Date [getDay()] is NaN, which
    never equals 2, and [setDate] leaves the date invalid, so the loop does
    not exit at all. *)
Fixpoint whileNotTuesday (fuel : nat) (lastTuesday : Date) : option Date :=
  match fuel with
  | O => None
  | S fuel' =>
      if negb (getDay lastTuesday =? 2)
      then match setDate lastTuesday (getDate lastTuesday - 1) with
           | Some lastTuesday => whileNotTuesday fuel' lastTuesday
           | None => None
           end
      else Some lastTuesday
  end.

(** Iterations granted to the loop.  Where [setDate] steps to the previous
    calendar day seven tests suffice and more fuel changes nothing
    ([whileNotTuesday_exits] below); where the zone skips the previous
    calendar day, [setDate] comes back to the day it left and the loop goes
    round for ever.  What is proved of the loop is proved of zones of the
    first kind. *)
Definition loopFuel : nat := 7.

Definition getLastTuesdayOfMonth (year month : Z) : option Date :=
  match newDate year (month + 1) 0 with
  | Some lastDayOfMonth =>
      let lastTuesday := copyDate lastDayOfMonth in
      whileNotTuesday loopFuel lastTuesday
  | None => None
  end.

(** The callback of [medicationDefinitions.filter] in
    [getFilteredMedications]: the [switch] on [med.frequency]. *)
Definition filterCallback (currentDate : Date) (med : Med) : option bool :=
  let currentDayOfWeek := getDay currentDate in
  let currentYear := getFullYear currentDate in
  let currentMonth := getMonth currentDate in
  if String.eqb (frequency med) "Diario" then Some true
  else if String.eqb (frequency med) "Martes, Jueves, Sábados" then
    Some ((currentDayOfWeek =? 2) || (currentDayOfWeek =? 4)
          || (currentDayOfWeek =? 6))
  else if String.eqb (frequency med) "Último Martes del Mes" then
    match getLastTuesdayOfMonth currentYear currentMonth with
    | Some lastTuesday =>
        Some (String.eqb (toDateString currentDate) (toDateString lastTuesday))
    | None => None
    end
  else if String.eqb (frequency med) "Según necesidad" then Some false
  else Some true.

(** [Array.prototype.filter] with a callback that may fail to return. *)
Fixpoint filterM {A : Type} (f : A -> option bool) (l : list A)
  : option (list A) :=
  match l with
  | [] => Some []
  | x :: r =>
      match f x with
      | None => None
      | Some b =>
          match filterM f r with
          | None => None
          | Some r' => Some (if b then x :: r' else r')
          end
      end
  end.

Definition getFilteredMedications (currentDate : Date)
    (medicationDefinitions : list Med) : option (list Med) :=
  filterM (filterCallback currentDate) medicationDefinitions.

(** *** Grouping by time slot *)

(** A plain JS object whose own properties are kept in creation order. *)
Definition JSObject (V : Type) : Type := list (string * V).

Fixpoint getProp {V : Type} (o : JSObject V) (k : string) : option V :=
  match o with
  | [] => None
  | (k', v) :: r => if String.eqb k' k then Some v else getProp r k
  end.

(** [o[k] = v]: overwrite in place, or create the property last. *)
Fixpoint setProp {V : Type} (o : JSObject V) (k : string) (v : V)
  : JSObject V :=
  match o with
  | [] => [(k, v)]
  | (k', v') :: r =>
      if String.eqb k' k then (k', v) :: r else (k', v') :: setProp r k v
  end.

(** The property names every plain object inherits from
    [Object.prototype]; the values inherited are functions, and for
    "__proto__" the prototype object: all truthy, none an array. *)
Definition objectPrototypeMembers : list string :=
  [ "constructor"; "hasOwnProperty"; "isPrototypeOf"; "propertyIsEnumerable";
    "toLocaleString"; "toString"; "valueOf"; "__proto__";
    "__defineGetter__"; "__defineSetter__"; "__lookupGetter__";
    "__lookupSetter__" ].

Definition inherited (k : string) : bool :=
  existsb (String.eqb k) objectPrototypeMembers.

(** [Array.prototype.reduce] with a callback that may throw. *)
Fixpoint reduceM {A B : Type} (f : B -> A -> option B) (l : list A) (acc : B)
  : option B :=
  match l with
  | [] => Some acc
  | x :: r =>
      match f acc x with
      | Some acc' => reduceM f r acc'
      | None => None
      end
  end.

(** The reducer of [groupedMedications]: create the slot's array when
    [acc[med.time]] is falsy, then push the medication onto
    [acc[med.time]].  The read goes through the prototype: for a slot named
    like a member of [Object.prototype] that the accumulator does not own,
    the value read is the inherited one, no array is created and the call
    of [push] throws a TypeError ([None]). *)
Definition groupReducer (acc : JSObject (list Med)) (med : Med)
  : option (JSObject (list Med)) :=
  let acc :=
    match getProp acc (time med) with
    | Some _ => acc
    | None => if inherited (time med) then acc else setProp acc (time med) []
    end in
  match getProp acc (time med) with
  | Some arr => Some (setProp acc (time med) (arr ++ [med]))
  | None => None
  end.

Definition groupedMedications (medicationsToDisplay : list Med)
  : option (JSObject (list Med)) :=
  reduceM groupReducer medicationsToDisplay [].

(** *** [Object.keys] *)

(** An array index: the canonical decimal string of an integer in
    0 .. 2^32 - 2. *)
Definition arrayIndex (k : string) : option Z :=
  match NilEmpty.uint_of_string k with
  | Some u =>
      let n := Z.of_N (N.of_uint u) in
      if String.eqb (String_of n) k && (n <=? 4294967294) then Some n
      else None
  | None => None
  end.

Fixpoint insertIndex (x : Z * string) (l : list (Z * string))
  : list (Z * string) :=
  match l with
  | [] => [x]
  | y :: r => if fst x <=? fst y then x :: l else y :: insertIndex x r
  end.

Definition indexKeys {V : Type} (o : JSObject V) : list (Z * string) :=
  fold_right insertIndex []
    (omap (fun kv => match arrayIndex (fst kv) with
                     | Some n => Some (n, fst kv)
                     | None => None
                     end) o).

(** [Object.keys(o)]: array-index keys in ascending numeric order, then the
    other keys in creation order. *)
Definition ObjectKeys {V : Type} (o : JSObject V) : list string :=
  map snd (indexKeys o) ++
  filter (fun k => arrayIndex k = None) (map fst o).

(** *** The sort of the slot headings *)

(** [order.indexOf(a)]: the position of the first occurrence, or -1. *)
Fixpoint indexOfFrom (i : Z) (l : list string) (a : string) : Z :=
  match l with
  | [] => -1
  | x :: r => if String.eqb x a then i else indexOfFrom (i + 1) r a
  end.

Definition indexOf (l : list string) (a : string) : Z := indexOfFrom 0 l a.

Definition order : list string :=
  [ "Ayunas"; "Mañana Post desayuno"; "Antes de Comer 13hs"; "Tarde 18hs";
    "Noche"; "Mensual" ].

(** The comparator passed to [sort]. *)
Definition compareSlots (a b : string) : Z := indexOf order a - indexOf order b.

(** [Array.prototype.sort] with a comparator: a stable sort; the element
    inserted comes first in the input, so it goes before every element it
    does not compare greater than. *)
Fixpoint sortInsert {A : Type} (cmp : A -> A -> Z) (x : A) (l : list A)
  : list A :=
  match l with
  | [] => [x]
  | y :: r => if cmp x y <=? 0 then x :: l else y :: sortInsert cmp x r
  end.

Definition sort {A : Type} (cmp : A -> A -> Z) (l : list A) : list A :=
  fold_right (sortInsert cmp) [] l.

(** The slot headings in the order the render shows them:
    [Object.keys(groupedMedications).sort(...)]. *)
Definition displayedSlots (grouped : JSObject (list Med)) : list string :=
  sort compareSlots (ObjectKeys grouped).

(** The whole resolution for a date: slot headings in display order, each
    with its medications.  [None]: the render does not produce it (the
    filter does not return, or the grouping throws). *)
Definition resolve (medicationDefinitions : list Med) (currentDate : Date)
  : option (list (string * list Med)) :=
  match getFilteredMedications currentDate medicationDefinitions with
  | None => None
  | Some medicationsToDisplay =>
      match groupedMedications medicationsToDisplay with
      | None => None
      | Some grouped =>
          Some (map (fun t => (t, default [] (getProp grouped t)))
                    (displayedSlots grouped))
      end
  end.

End Zoned.

End Schedule.

(* ===================================================================== *)
(** ** JSON.stringify and JSON.parse                                      *)
(* ===================================================================== *)

Module Json.

(** The two built-ins, at the type of the value serialised.  [JSON_parse]
    returns [None] where [JSON.parse] throws a SyntaxError.  The laws are the
    ones the source relies on: a value of the daily record (a plain object of
    booleans, an array of plain objects of strings) survives the round trip,
    and its serialisation is never the empty (falsy) string. *)
Class JSON (V : Type) : Type := {
  JSON_stringify : V -> string;
  JSON_parse : string -> option V;
  JSON_parse_stringify : forall v : V, JSON_parse (JSON_stringify v) = Some v;
  JSON_stringify_nonempty : forall v : V, JSON_stringify v <> EmptyString
}.

(** [JSON.parse('{}')] is the empty object, [JSON.parse('[]')] the empty
    array. *)
Class JSONObject (V : Type) `{JSON V} `{Empty V} : Prop :=
  JSON_parse_empty_object : JSON_parse "{}" = Some (∅ : V).

Class JSONArray (A : Type) `{JSON (list A)} : Prop :=
  JSON_parse_empty_array : JSON_parse "[]" = Some ([] : list A).

(** *** An implementation: the compact text [JSON.stringify] emits *)

Definition dquote : ascii := "034"%char.
Definition backslash : ascii := "092"%char.

Definition hexDigit (n : nat) : ascii :=
  ascii_of_nat (if (n <? 10)%nat then 48 + n else 87 + n).

Definition hexValue (c : ascii) : option nat :=
  let n := nat_of_ascii c in
  if ((48 <=? n) && (n <=? 57))%nat then Some (n - 48)%nat
  else if ((97 <=? n) && (n <=? 102))%nat then Some (n - 87)%nat
  else if ((65 <=? n) && (n <=? 70))%nat then Some (n - 55)%nat
  else None.

(** QuoteJSONString, one character at a time. *)
Definition escapeChar (c : ascii) : string :=
  if Ascii.eqb c dquote then String backslash (String dquote EmptyString)
  else if Ascii.eqb c backslash then String backslash (String backslash EmptyString)
  else if Ascii.eqb c "008" then String backslash "b"
  else if Ascii.eqb c "009" then String backslash "t"
  else if Ascii.eqb c "010" then String backslash "n"
  else if Ascii.eqb c "012" then String backslash "f"
  else if Ascii.eqb c "013" then String backslash "r"
  else if (nat_of_ascii c <? 32)%nat then
    String backslash
      (String "u" (String "0" (String "0"
         (String (hexDigit (nat_of_ascii c / 16))
            (String (hexDigit (nat_of_ascii c mod 16)) EmptyString)))))
  else String c EmptyString.

Fixpoint escape (s : string) : string :=
  match s with
  | EmptyString => EmptyString
  | String c r => escapeChar c +:+ escape r
  end.

Definition quoteString (s : string) : string :=
  String dquote (escape s +:+ String dquote EmptyString).

Definition consFst (c : ascii) (r : option (string * string))
  : option (string * string) :=
  match r with
  | Some (s, rest) => Some (String c s, rest)
  | None => None
  end.

(** The characters of a string literal after its opening quote, up to the
    closing quote; the text after it is returned too. *)
Fixpoint parseStringBody (s : string) : option (string * string) :=
  match s with
  | EmptyString => None
  | String c r =>
      if Ascii.eqb c dquote then Some (EmptyString, r)
      else if Ascii.eqb c backslash then
        match r with
        | String e r' =>
            if Ascii.eqb e dquote then consFst dquote (parseStringBody r')
            else if Ascii.eqb e backslash then
              consFst backslash (parseStringBody r')
            else if Ascii.eqb e "/" then consFst "/" (parseStringBody r')
            else if Ascii.eqb e "b" then consFst "008" (parseStringBody r')
            else if Ascii.eqb e "t" then consFst "009" (parseStringBody r')
            else if Ascii.eqb e "n" then consFst "010" (parseStringBody r')
            else if Ascii.eqb e "f" then consFst "012" (parseStringBody r')
            else if Ascii.eqb e "r" then consFst "013" (parseStringBody r')
            else if Ascii.eqb e "u" then
              match r' with
              | String h1 (String h2 (String h3 (String h4 r''))) =>
                  match hexValue h1, hexValue h2, hexValue h3, hexValue h4 with
                  | Some 0%nat, Some 0%nat, Some a, Some b =>
                      consFst (ascii_of_nat (16 * a + b)) (parseStringBody r'')
                  | _, _, _, _ => None
                  end
              | _ => None
              end
            else None
        | EmptyString => None
        end
      else if (nat_of_ascii c <? 32)%nat then None
      else consFst c (parseStringBody r)
  end.

Definition parseString (s : string) : option (string * string) :=
  match s with
  | String c r => if Ascii.eqb c dquote then parseStringBody r else None
  | EmptyString => None
  end.

(** [expect p s]: [s] without its prefix [p]. *)
Fixpoint expect (p s : string) : option string :=
  match p with
  | EmptyString => Some s
  | String c p' =>
      match s with
      | String c' s' => if Ascii.eqb c c' then expect p' s' else None
      | EmptyString => None
      end
  end.

Definition parseBool (s : string) : option (bool * string) :=
  match expect "true" s with
  | Some r => Some (true, r)
  | None =>
      match expect "false" s with
      | Some r => Some (false, r)
      | None => None
      end
  end.

Definition printBool (b : bool) : string := if b then "true" else "false".

(** Comma-separated items closed by [close], printed and parsed with the
    printer and parser of one item. *)
Fixpoint printItems {A : Type} (print : A -> string) (l : list A) : string :=
  match l with
  | [] => EmptyString
  | [x] => print x
  | x :: r => print x +:+ "," +:+ printItems print r
  end.

Fixpoint parseItems {A : Type} (parse : string -> option (A * string))
    (close : ascii) (fuel : nat) (s : string) : option (list A * string) :=
  match fuel with
  | O => None
  | S fuel' =>
      match parse s with
      | Some (x, String c r) =>
          if Ascii.eqb c "," then
            match parseItems parse close fuel' r with
            | Some (l, rest) => Some (x :: l, rest)
            | None => None
            end
          else if Ascii.eqb c close then Some ([x], r)
          else None
      | _ => None
      end
  end.

(** [open] items [close], and nothing after. *)
Definition parseSequence {A : Type} (parse : string -> option (A * string))
    (open close : ascii) (s : string) : option (list A) :=
  match s with
  | String c r =>
      if Ascii.eqb c open then
        match r with
        | String c' EmptyString =>
            if Ascii.eqb c' close then Some [] else None
        | _ =>
            match parseItems parse close (String.length r) r with
            | Some (l, EmptyString) => Some l
            | _ => None
            end
        end
      else None
  | EmptyString => None
  end.

Definition printSequence {A : Type} (print : A -> string)
    (open close : ascii) (l : list A) : string :=
  String open (printItems print l +:+ String close EmptyString).

(** One property of an object: a quoted key, a colon, the value. *)
Definition printMember {A : Type} (print : A -> string) (k : string) (v : A)
  : string :=
  quoteString k +:+ ":" +:+ print v.

Definition parseMember {A : Type} (parse : string -> option (A * string))
    (s : string) : option ((string * A) * string) :=
  match parseString s with
  | Some (k, String c r) =>
      if Ascii.eqb c ":" then
        match parse r with
        | Some (v, rest) => Some ((k, v), rest)
        | None => None
        end
      else None
  | _ => None
  end.

(** A member with a given key. *)
Definition parseField {A : Type} (parse : string -> option (A * string))
    (key : string) (s : string) : option (A * string) :=
  match parseMember parse s with
  | Some ((k, v), rest) => if String.eqb k key then Some (v, rest) else None
  | None => None
  end.

(** The object of check marks: medication id to boolean.  In a text with a
    repeated key the last one wins. *)
Definition stringifyStatus (m : gmap string bool) : string :=
  printSequence (fun kv => printMember printBool (fst kv) (snd kv))
    "{" "}" (map_to_list m).

Definition parseStatus (s : string) : option (gmap string bool) :=
  match parseSequence (parseMember parseBool) "{" "}" s with
  | Some l => Some (list_to_map (reverse l))
  | None => None
  end.

End Json.

(* ===================================================================== *)
(** ** The component: state, document store, effect 4 and the handlers    *)
(* ===================================================================== *)

Module Sync.
Import JSDate Schedule Json.

(** An entry of [notes]. *)
Record Note : Type := mkNote {
  text : string;
  author : string;
  timestamp : string
}.

(** An entry of [bloodPressure]. *)
Record Reading : Type := mkReading {
  systolic : string;
  diastolic : string;
  readingAuthor : string;
  readingTimestamp : string
}.

(** The [useState] cells of [App] that the daily record and its notices
    involve. *)
Record State : Type := mkState {
  currentDate : Date;
  medicationStatus : gmap string bool;
  notes : list Note;
  bloodPressure : list Reading;
  loading : bool;
  isAuthReady : bool;
  userName : string;
  showNameInput : bool;
  showShareMessage : bool
}.

Definition setCurrentDateCell (d : Date) (s : State) : State :=
  mkState d (medicationStatus s) (notes s) (bloodPressure s) (loading s)
          (isAuthReady s) (userName s) (showNameInput s) (showShareMessage s).
Definition setMedicationStatus (m : gmap string bool) (s : State) : State :=
  mkState (currentDate s) m (notes s) (bloodPressure s) (loading s)
          (isAuthReady s) (userName s) (showNameInput s) (showShareMessage s).
Definition setNotes (n : list Note) (s : State) : State :=
  mkState (currentDate s) (medicationStatus s) n (bloodPressure s) (loading s)
          (isAuthReady s) (userName s) (showNameInput s) (showShareMessage s).
Definition setBloodPressure (b : list Reading) (s : State) : State :=
  mkState (currentDate s) (medicationStatus s) (notes s) b (loading s)
          (isAuthReady s) (userName s) (showNameInput s) (showShareMessage s).
Definition setLoading (b : bool) (s : State) : State :=
  mkState (currentDate s) (medicationStatus s) (notes s) (bloodPressure s) b
          (isAuthReady s) (userName s) (showNameInput s) (showShareMessage s).
Definition setIsAuthReady (b : bool) (s : State) : State :=
  mkState (currentDate s) (medicationStatus s) (notes s) (bloodPressure s)
          (loading s) b (userName s) (showNameInput s) (showShareMessage s).
Definition setUserName (n : string) (s : State) : State :=
  mkState (currentDate s) (medicationStatus s) (notes s) (bloodPressure s)
          (loading s) (isAuthReady s) n (showNameInput s) (showShareMessage s).
Definition setShowNameInput (b : bool) (s : State) : State :=
  mkState (currentDate s) (medicationStatus s) (notes s) (bloodPressure s)
          (loading s) (isAuthReady s) (userName s) b (showShareMessage s).

(** A Firestore document: field name to value.  Every field the source
    writes is a string. *)
Abbreviation Doc := (gmap string string).

Inductive LogEntry : Type :=
| ConsoleLog (msg : string)
| ConsoleError (msg : string).

(** How a call ends: it returns, or an exception leaves it. *)
Inductive Completion : Type :=
| Returned
| Threw.

(** The component together with what surrounds it: the documents of the
    store, the snapshot listeners the Firestore client holds (listener id
    and document path), the cleanup function React keeps for effect 4 (the
    id its [unsubscribe] closes over), the console, the [alert] dialogs
    shown, and the number of [setDoc] calls made. *)
Record World : Type := mkWorld {
  app : State;
  docs : gmap string Doc;
  listeners : list (nat * string);
  effectCleanup : option nat;
  nextListener : nat;
  console : list LogEntry;
  alerts : list string;
  setDocCalls : nat
}.

Definition withApp (f : State -> State) (w : World) : World :=
  mkWorld (f (app w)) (docs w) (listeners w) (effectCleanup w)
          (nextListener w) (console w) (alerts w) (setDocCalls w).
Definition consoleLog (msg : string) (w : World) : World :=
  mkWorld (app w) (docs w) (listeners w) (effectCleanup w) (nextListener w)
          (console w ++ [ConsoleLog msg]) (alerts w) (setDocCalls w).
Definition consoleError (msg : string) (w : World) : World :=
  mkWorld (app w) (docs w) (listeners w) (effectCleanup w) (nextListener w)
          (console w ++ [ConsoleError msg]) (alerts w) (setDocCalls w).
Definition alert (msg : string) (w : World) : World :=
  mkWorld (app w) (docs w) (listeners w) (effectCleanup w) (nextListener w)
          (console w) (alerts w ++ [msg]) (setDocCalls w).

Section Component.

(** [appId], from the environment the page is loaded in. *)
Variable appId : string.

Context `{JSON (gmap string bool)} `{JSON (list Note)} `{JSON (list Reading)}.

(** The time zone of the host. *)
Context {tz : TimeZone}.

(** [doc(db, path, id)]: the document [id] of the collection at [path]. *)
Definition doc (path id : string) : string := path +:+ "/" +:+ id.

Definition dailyRecordsPath : string :=
  "artifacts/" +:+ appId +:+ "/public/data/dailyRecords".

(** The document both effect 4 and [updateDailyRecord] address for a
    date. *)
Definition dailyRecordDocRef (date : Date) : string :=
  doc dailyRecordsPath (formatDateForFirestore date).

(** *** The store *)

(** [setDoc(ref, data, { merge: true })].  Whether the write reaches the
    store is the store's to decide: [ok].  A write that fails rejects, so
    the [await] throws. *)
Definition setDocMerge (ref : string) (data : Doc) (ok : bool) (w : World)
  : World * Completion :=
  let w :=
    mkWorld (app w) (docs w) (listeners w) (effectCleanup w) (nextListener w)
            (console w) (alerts w) (S (setDocCalls w)) in
  if ok then
    (mkWorld (app w)
             (<[ref := data ∪ default ∅ (docs w !! ref)]> (docs w))
             (listeners w) (effectCleanup w) (nextListener w)
             (console w) (alerts w) (setDocCalls w),
     Returned)
  else (w, Threw).

(** [onSnapshot(ref, next, error)]: registers a listener and returns the
    id its [unsubscribe] function closes over. *)
Definition onSnapshot (ref : string) (w : World) : nat * World :=
  (nextListener w,
   mkWorld (app w) (docs w) (listeners w ++ [(nextListener w, ref)])
           (effectCleanup w) (S (nextListener w)) (console w) (alerts w)
           (setDocCalls w)).

(** [unsubscribe()]: the listener is dropped; the client calls a dropped
    listener no more. *)
Definition unsubscribe (lid : nat) (w : World) : World :=
  mkWorld (app w) (docs w)
          (List.filter (fun l => negb (Nat.eqb (fst l) lid)) (listeners w))
          (effectCleanup w) (nextListener w) (console w) (alerts w)
          (setDocCalls w).

(** *** Effect 4: the daily-record listener *)

(** [data.field || fallback]: a missing field and the empty string are
    falsy. *)
Definition orElse (field : option string) (fallback : string) : string :=
  match field with
  | Some s => if String.eqb s EmptyString then fallback else s
  | None => fallback
  end.

(** The [next] callback given to [onSnapshot]; [docSnap] is [None] when the
    document does not exist.  A [JSON.parse] that throws leaves the callback
    at that point: the cells set before it stay set. *)
Definition onNext (docSnap : option Doc) (w : World) : World * Completion :=
  match docSnap with
  | Some data =>
      match JSON_parse (orElse (data !! "medicationStatus") "{}") with
      | None => (w, Threw)
      | Some parsedStatus =>
          let w := withApp (setMedicationStatus parsedStatus) w in
          match JSON_parse (orElse (data !! "notes") "[]") with
          | None => (w, Threw)
          | Some parsedNotes =>
              let w := withApp (setNotes parsedNotes) w in
              match JSON_parse (orElse (data !! "bloodPressure") "[]") with
              | None => (w, Threw)
              | Some parsedReadings =>
                  let w := withApp (setBloodPressure parsedReadings) w in
                  let w := consoleLog "Daily records loaded:" w in
                  (withApp (setLoading false) w, Returned)
              end
          end
      end
  | None =>
      let w := withApp (setMedicationStatus ∅) w in
      let w := withApp (setNotes []) w in
      let w := withApp (setBloodPressure []) w in
      let w := consoleLog "No daily records found for this date." w in
      (withApp (setLoading false) w, Returned)
  end.

(** The [error] callback given to [onSnapshot]. *)
Definition onError (w : World) : World :=
  withApp (setLoading false) (consoleError "Error fetching daily records:" w).

(** The cleanup React runs before the effect runs again. *)
Definition cleanupEffect4 (w : World) : World :=
  match effectCleanup w with
  | Some lid =>
      let w := consoleLog "Cleaning up Firestore listener for daily records." w in
      unsubscribe lid w
  | None => w
  end.

(** The body of effect 4. *)
Definition effect4 (w : World) : World :=
  if negb (isAuthReady (app w)) then
    mkWorld (app w) (docs w) (listeners w) None (nextListener w)
            (console w) (alerts w) (setDocCalls w)
  else
    let formattedDate := formatDateForFirestore (currentDate (app w)) in
    let dailyRecordDocRef := doc dailyRecordsPath formattedDate in
    let w :=
      consoleLog ("Setting up Firestore listener for daily records: "
                  +:+ formattedDate) w in
    let '(lid, w) := onSnapshot dailyRecordDocRef w in
    mkWorld (app w) (docs w) (listeners w) (Some lid) (nextListener w)
            (console w) (alerts w) (setDocCalls w).

(** React runs effect 4 as a passive effect: after the commit of a render
    in which [currentDate] or [isAuthReady] has changed it runs the cleanup
    of the previous run, then the body. *)
Definition rerunEffect4 (w : World) : World := effect4 (cleanupEffect4 w).

(** [setCurrentDate(newDate)] as far as the commit of the render: the cell
    holds the new [Date] object, and effect 4 is due to run again (a new
    object always differs from the old dependency). *)
Definition commitCurrentDate (newDate : Date) (w : World) : World :=
  withApp (setCurrentDateCell newDate) w.

(** [setCurrentDate(newDate)] with the effect run that follows, nothing
    happening in between. *)
Definition setCurrentDate (newDate : Date) (w : World) : World :=
  rerunEffect4 (commitCurrentDate newDate w).

(** The two day buttons.  [None] from [setDate] is an Invalid Date, which
    [Date] does not hold: the models of the buttons leave the page as it is
    there, and what is proved of the buttons is proved where the new date is
    valid. *)
Definition goToPreviousDay (w : World) : World :=
  let newDate := copyDate (currentDate (app w)) in
  match setDate newDate (getDate newDate - 1) with
  | Some newDate => setCurrentDate newDate w
  | None => w
  end.

Definition goToNextDay (w : World) : World :=
  let newDate := copyDate (currentDate (app w)) in
  match setDate newDate (getDate newDate + 1) with
  | Some newDate => setCurrentDate newDate w
  | None => w
  end.

(** The callback of [onAuthStateChanged] (effect 1) for a signed-in user,
    as far as the commit, with whether [isAuthReady] has changed. *)
Definition commitUser (w : World) : World * bool :=
  let w := consoleLog "Firebase Auth Ready. User:" w in
  if isAuthReady (app w) then (w, false)
  else (withApp (setIsAuthReady true) w, true).

Definition onUser (w : World) : World :=
  let '(w, changed) := commitUser w in
  if changed then rerunEffect4 w else w.

(** [signInAnonymously] rejected: the [catch] of effect 1. *)
Definition commitSignInError (w : World) : World * bool :=
  let w := consoleError "Error signing in anonymously:" w in
  let changed := isAuthReady (app w) in
  (withApp (setLoading false) (withApp (setIsAuthReady false) w), changed).

Definition onSignInError (w : World) : World :=
  let '(w, changed) := commitSignInError w in
  if changed then rerunEffect4 w else w.

(** *** Writing the daily record *)

Definition updateDailyRecord {V : Type} `{JSON V} (field : string) (value : V)
    (ok : bool) (w : World) : World * Completion :=
  if negb (isAuthReady (app w)) then
    (consoleError "Authentication not ready. Cannot save data." w, Returned)
  else
    let formattedDate := formatDateForFirestore (currentDate (app w)) in
    let dailyRecordDocRef := doc dailyRecordsPath formattedDate in
    match
      setDocMerge dailyRecordDocRef
        (<["date" := formattedDate]> {[ field := JSON_stringify value ]})
        ok w
    with
    | (w, Returned) => (w, Returned)
    | (w, Threw) =>
        (consoleError ("Error updating " +:+ field +:+ " in document: ") w,
         Returned)
    end.

(** [medicationStatus[medId]] as a condition.  The object is a plain one
    (the initial [{}], a [JSON.parse] result or an object literal), so an
    id it does not own is read from [Object.prototype]: [undefined] (falsy)
    unless the id names a member of the prototype, whose value is truthy. *)
Definition isChecked (status : gmap string bool) (medId : string) : bool :=
  match status !! medId with
  | Some b => b
  | None => inherited medId
  end.

Definition toggled (status : gmap string bool) (medId : string)
  : gmap string bool :=
  <[medId := negb (isChecked status medId)]> status.

Definition handleToggleMedication (medId : string) (ok : bool) (w : World)
  : World * Completion :=
  let newStatus := toggled (medicationStatus (app w)) medId in
  let w := withApp (setMedicationStatus newStatus) w in
  updateDailyRecord "medicationStatus" newStatus ok w.

(** [noteText] is the trimmed input, [now] is [new Date().toISOString()]. *)
Definition handleAddNote (noteText now : string) (ok : bool) (w : World)
  : World * Completion :=
  if negb (String.eqb noteText EmptyString)
     && negb (String.eqb (userName (app w)) EmptyString) then
    let newNotes := notes (app w) ++ [mkNote noteText (userName (app w)) now] in
    let w := withApp (setNotes newNotes) w in
    updateDailyRecord "notes" newNotes ok w
  else if String.eqb (userName (app w)) EmptyString then
    let w := alert "Por favor, ingresa tu nombre para añadir una nota." w in
    (withApp (setShowNameInput true) w, Returned)
  else (w, Returned).

Definition handleAddBloodPressure (systolic diastolic now : string) (ok : bool)
    (w : World) : World * Completion :=
  if negb (String.eqb systolic EmptyString)
     && negb (String.eqb diastolic EmptyString)
     && negb (String.eqb (userName (app w)) EmptyString) then
    let newBP :=
      bloodPressure (app w)
      ++ [mkReading systolic diastolic (userName (app w)) now] in
    let w := withApp (setBloodPressure newBP) w in
    updateDailyRecord "bloodPressure" newBP ok w
  else if String.eqb (userName (app w)) EmptyString then
    let w := alert "Por favor, ingresa tu nombre para registrar la presión." w in
    (withApp (setShowNameInput true) w, Returned)
  else (w, Returned).

(** *** What can happen to the component *)

Inductive Event : Type :=
| AuthUser
| SignInError
| PreviousDay
| NextDay
| SetCurrentDate (newDate : Date)
| ToggleMedication (medId : string) (ok : bool)
| AddNote (noteText now : string) (ok : bool)
| AddBloodPressure (systolic diastolic now : string) (ok : bool)
| ChangeUserName (newName : string)
| Snapshot (lid : nat)
| SnapshotError (lid : nat)
| RemoteWrite (ref : string) (data : Doc).

Definition listenerRef (lid : nat) (w : World) : option string :=
  snd <$> List.find (fun l => Nat.eqb (fst l) lid) (listeners w).

(** The client delivers the current document to a listener it still holds;
    for a listener it has dropped nothing runs. *)
Definition deliver (lid : nat) (w : World) : World * Completion :=
  match listenerRef lid w with
  | Some ref => onNext (docs w !! ref) w
  | None => (w, Returned)
  end.

Definition deliverError (lid : nat) (w : World) : World :=
  match listenerRef lid w with
  | Some _ => onError w
  | None => w
  end.

(** Another device, or anything else, writes a document. *)
Definition remoteWrite (ref : string) (data : Doc) (w : World) : World :=
  mkWorld (app w) (<[ref := data]> (docs w)) (listeners w) (effectCleanup w)
          (nextListener w) (console w) (alerts w) (setDocCalls w).

Definition step (w : World) (e : Event) : World :=
  match e with
  | AuthUser => onUser w
  | SignInError => onSignInError w
  | PreviousDay => goToPreviousDay w
  | NextDay => goToNextDay w
  | SetCurrentDate d => setCurrentDate d w
  | ToggleMedication medId ok => fst (handleToggleMedication medId ok w)
  | AddNote noteText now ok => fst (handleAddNote noteText now ok w)
  | AddBloodPressure s d now ok => fst (handleAddBloodPressure s d now ok w)
  | ChangeUserName newName => withApp (setUserName newName) w
  | Snapshot lid => fst (deliver lid w)
  | SnapshotError lid => deliverError lid w
  | RemoteWrite ref data => remoteWrite ref data w
  end.

Definition run (w : World) (events : list Event) : World :=
  fold_left step events w.

(** The component as mounted: [useState] initial values, effect 4 has run
    once and returned early ([isAuthReady] is false). *)
Definition mounted (now : Date) (store : gmap string Doc) : World :=
  mkWorld (mkState now ∅ [] [] true false EmptyString false false)
          store [] None 0 [] [] 0.

(** *** Between a commit and its passive effects *)

(** [step] takes a change of [currentDate] or [isAuthReady] and the run of
    effect 4 it causes as one step.  React keeps them apart: the effect is
    a passive effect, run some time after the commit and at the latest
    before the next render, and until then the listener of the previous run
    stays registered.  [commitStep] is an event as far as the commit, with
    whether effect 4 has become due. *)
Definition commitStep (w : World) (e : Event) : World * bool :=
  match e with
  | AuthUser => commitUser w
  | SignInError => commitSignInError w
  | PreviousDay =>
      let newDate := copyDate (currentDate (app w)) in
      match setDate newDate (getDate newDate - 1) with
      | Some newDate => (commitCurrentDate newDate w, true)
      | None => (w, false)
      end
  | NextDay =>
      let newDate := copyDate (currentDate (app w)) in
      match setDate newDate (getDate newDate + 1) with
      | Some newDate => (commitCurrentDate newDate w, true)
      | None => (w, false)
      end
  | SetCurrentDate d => (commitCurrentDate d w, true)
  | ToggleMedication medId ok => (fst (handleToggleMedication medId ok w), false)
  | AddNote noteText now ok => (fst (handleAddNote noteText now ok w), false)
  | AddBloodPressure s d now ok =>
      (fst (handleAddBloodPressure s d now ok w), false)
  | ChangeUserName newName => (withApp (setUserName newName) w, false)
  | Snapshot lid => (fst (deliver lid w), false)
  | SnapshotError lid => (deliverError lid w, false)
  | RemoteWrite ref data => (remoteWrite ref data w, false)
  end.

(** The page with whether a run of effect 4 is due. *)
Record Page : Type := mkPage {
  world : World;
  effect4Due : bool
}.

(** What happens next: an event, handled as far as the commit, or React
    running the passive effects that are due.  React also runs them before
    it renders again; the histories below let a due effect wait longer than
    that, so they are more than React produces and what holds for all of
    them holds for React's. *)
Inductive Tick : Type :=
| Act (e : Event)
| PassiveEffects.

Definition tick (p : Page) (t : Tick) : Page :=
  match t with
  | Act e =>
      let '(w, due) := commitStep (world p) e in
      mkPage w (effect4Due p || due)
  | PassiveEffects =>
      if effect4Due p then mkPage (rerunEffect4 (world p)) false else p
  end.

Definition ticks (p : Page) (history : list Tick) : Page :=
  fold_left tick history p.

Definition mountedPage (now : Date) (store : gmap string Doc) : Page :=
  mkPage (mounted now store) false.

End Component.

(** *** The compact JSON text of notes and readings *)

Definition printNote (n : Note) : string :=
  "{" +:+ printMember quoteString "text" (text n) +:+ "," +:+
  printMember quoteString "author" (author n) +:+ "," +:+
  printMember quoteString "timestamp" (timestamp n) +:+ "}".

Definition parseNote (s : string) : option (Note * string) :=
  s ← expect "{" s;
  '(t, s) ← parseField parseString "text" s;
  s ← expect "," s;
  '(a, s) ← parseField parseString "author" s;
  s ← expect "," s;
  '(ts, s) ← parseField parseString "timestamp" s;
  s ← expect "}" s;
  Some (mkNote t a ts, s).

Definition printReading (r : Reading) : string :=
  "{" +:+ printMember quoteString "systolic" (systolic r) +:+ "," +:+
  printMember quoteString "diastolic" (diastolic r) +:+ "," +:+
  printMember quoteString "author" (readingAuthor r) +:+ "," +:+
  printMember quoteString "timestamp" (readingTimestamp r) +:+ "}".

Definition parseReading (s : string) : option (Reading * string) :=
  s ← expect "{" s;
  '(sy, s) ← parseField parseString "systolic" s;
  s ← expect "," s;
  '(di, s) ← parseField parseString "diastolic" s;
  s ← expect "," s;
  '(a, s) ← parseField parseString "author" s;
  s ← expect "," s;
  '(ts, s) ← parseField parseString "timestamp" s;
  s ← expect "}" s;
  Some (mkReading sy di a ts, s).

Definition stringifyNotes (l : list Note) : string :=
  printSequence printNote "[" "]" l.
Definition parseNotes (s : string) : option (list Note) :=
  parseSequence parseNote "[" "]" s.

Definition stringifyReadings (l : list Reading) : string :=
  printSequence printReading "[" "]" l.
Definition parseReadings (s : string) : option (list Reading) :=
  parseSequence parseReading "[" "]" s.

End Sync.

(* ===================================================================== *)
(** ** Managing the medication definitions                                *)
(* ===================================================================== *)

Module Manage.
Import JSDate Schedule Sync.

(** The [useState] cells of [App] behind the management dialog. *)
Record Form : Type := mkForm {
  medicationDefinitions : list Med;
  showManageMedications : bool;
  newMedication : Med;
  editMedicationId : option string
}.

(** The component with the one document that holds the definitions
    ([currentDefinitions], field [medications]; [None] while the document
    does not exist), the console, the [alert] dialogs shown and the number
    of [setDoc] calls made. *)
Record Desk : Type := mkDesk {
  form : Form;
  definitionsDoc : option (list Med);
  deskConsole : list LogEntry;
  deskAlerts : list string;
  deskSetDocCalls : nat
}.

Definition withForm (f : Form -> Form) (w : Desk) : Desk :=
  mkDesk (f (form w)) (definitionsDoc w) (deskConsole w) (deskAlerts w)
         (deskSetDocCalls w).
Definition deskError (msg : string) (w : Desk) : Desk :=
  mkDesk (form w) (definitionsDoc w) (deskConsole w ++ [ConsoleError msg])
         (deskAlerts w) (deskSetDocCalls w).
Definition deskAlert (msg : string) (w : Desk) : Desk :=
  mkDesk (form w) (definitionsDoc w) (deskConsole w) (deskAlerts w ++ [msg])
         (deskSetDocCalls w).

Definition setMedicationDefinitions (l : list Med) (f : Form) : Form :=
  mkForm l (showManageMedications f) (newMedication f) (editMedicationId f).
Definition setShowManageMedications (b : bool) (f : Form) : Form :=
  mkForm (medicationDefinitions f) b (newMedication f) (editMedicationId f).
Definition setNewMedication (m : Med) (f : Form) : Form :=
  mkForm (medicationDefinitions f) (showManageMedications f) m
         (editMedicationId f).
Definition setEditMedicationId (i : option string) (f : Form) : Form :=
  mkForm (medicationDefinitions f) (showManageMedications f) (newMedication f) i.

(** The blank form: every field the empty string. *)
Definition blankMedication : Med :=
  mkMed EmptyString EmptyString EmptyString EmptyString EmptyString.

(** [{ ...med, id: newId }]. *)
Definition withId (med : Med) (newId : string) : Med :=
  mkMed newId (name med) (dosage med) (time med) (frequency med).

(** [!s] for a string: only the empty string is falsy. *)
Definition isBlank (s : string) : bool := String.eqb s EmptyString.

(** [if (editMedicationId)]: [null] and the empty string are falsy. *)
Definition editing (f : Form) : option string :=
  match editMedicationId f with
  | Some i => if isBlank i then None else Some i
  | None => None
  end.

(** [setDoc(ref, { medications })], without merge: the document is
    replaced.  [ok] is the store's answer; a rejected write throws at the
    [await]. *)
Definition setDefinitionsDoc (l : list Med) (ok : bool) (w : Desk)
  : Desk * Completion :=
  let w := mkDesk (form w) (definitionsDoc w) (deskConsole w) (deskAlerts w)
                  (S (deskSetDocCalls w)) in
  if ok then
    (mkDesk (form w) (Some l) (deskConsole w) (deskAlerts w)
            (deskSetDocCalls w), Returned)
  else (w, Threw).

(** The list [handleAddEditMedication] saves: the edited entry replaced in
    place, or the new entry appended with [Date.now().toString()] as id. *)
Definition updatedMedications (f : Form) (now : Z) : list Med :=
  match editing f with
  | Some editId =>
      map (fun med => if String.eqb (id med) editId
                      then withId (newMedication f) editId else med)
          (medicationDefinitions f)
  | None =>
      medicationDefinitions f ++ [withId (newMedication f) (String_of now)]
  end.

(** [now] is [Date.now()]. *)
Definition handleAddEditMedication (now : Z) (ok : bool) (w : Desk)
  : Desk * Completion :=
  let f := form w in
  if isBlank (name (newMedication f)) || isBlank (time (newMedication f))
     || isBlank (frequency (newMedication f)) then
    (deskAlert "Nombre, horario y frecuencia son campos obligatorios." w,
     Returned)
  else
    let updated := updatedMedications f now in
    match setDefinitionsDoc updated ok w with
    | (w, Returned) =>
        let w := withForm (setMedicationDefinitions updated) w in
        let w := withForm (setNewMedication blankMedication) w in
        let w := withForm (setEditMedicationId None) w in
        (withForm (setShowManageMedications false) w, Returned)
    | (w, Threw) =>
        let w := deskError "Error saving medication definitions:" w in
        (deskAlert "Error al guardar los medicamentos. Inténtalo de nuevo." w,
         Returned)
    end.

Definition handleEditClick (med : Med) (w : Desk) : Desk :=
  let w := withForm (setNewMedication med) w in
  let w := withForm (setEditMedicationId (Some (id med))) w in
  withForm (setShowManageMedications true) w.

(** [confirmed] is the answer to [window.confirm]. *)
Definition handleDeleteMedication (medId : string) (confirmed ok : bool)
    (w : Desk) : Desk * Completion :=
  if confirmed then
    let updated :=
      List.filter (fun med => negb (String.eqb (id med) medId))
                  (medicationDefinitions (form w)) in
    match setDefinitionsDoc updated ok w with
    | (w, Returned) =>
        (withForm (setMedicationDefinitions updated) w, Returned)
    | (w, Threw) =>
        let w := deskError "Error deleting medication:" w in
        (deskAlert "Error al eliminar el medicamento. Inténtalo de nuevo." w,
         Returned)
    end
  else (w, Returned).

(** [fetchDefinitions] of effect 3.  [readOk] says whether [getDoc]
    succeeds, [writeOk] whether the [setDoc] of the defaults does. *)
Definition fetchDefinitions (readOk writeOk : bool) (w : Desk)
  : Desk * Completion :=
  if readOk then
    match definitionsDoc w with
    | Some medications =>
        (withForm (setMedicationDefinitions medications) w, Returned)
    | None =>
        match setDefinitionsDoc defaultMedications writeOk w with
        | (w, Returned) =>
            (withForm (setMedicationDefinitions defaultMedications) w,
             Returned)
        | (w, Threw) =>
            (deskError "Error fetching or setting medication definitions:" w,
             Returned)
        end
    end
  else
    (deskError "Error fetching or setting medication definitions:" w, Returned).

(** The component on mount, before effect 3 has fetched anything. *)
Definition opened (store : option (list Med)) : Desk :=
  mkDesk (mkForm [] false blankMedication None) store [] [] 0.

(** The inputs of the form: [setNewMedication({ ...newMedication, name })]
    and the same for the other three fields. *)
Definition changeName (v : string) (w : Desk) : Desk :=
  let m := newMedication (form w) in
  withForm (setNewMedication (mkMed (id m) v (dosage m) (time m) (frequency m)))
           w.
Definition changeDosage (v : string) (w : Desk) : Desk :=
  let m := newMedication (form w) in
  withForm (setNewMedication (mkMed (id m) (name m) v (time m) (frequency m)))
           w.
Definition changeTime (v : string) (w : Desk) : Desk :=
  let m := newMedication (form w) in
  withForm (setNewMedication (mkMed (id m) (name m) (dosage m) v (frequency m)))
           w.
Definition changeFrequency (v : string) (w : Desk) : Desk :=
  let m := newMedication (form w) in
  withForm (setNewMedication (mkMed (id m) (name m) (dosage m) (time m) v)) w.

(** The button that leaves the edit. *)
Definition cancelEdit (w : Desk) : Desk :=
  let w := withForm (setNewMedication blankMedication) w in
  withForm (setEditMedicationId None) w.

(** The buttons that open and close the dialog. *)
Definition openManage (w : Desk) : Desk :=
  withForm (setShowManageMedications true) w.
Definition closeManage (w : Desk) : Desk :=
  withForm (setShowManageMedications false) w.

(** The store as another device leaves it. *)
Definition withStore (store : option (list Med)) (w : Desk) : Desk :=
  mkDesk (form w) store (deskConsole w) (deskAlerts w) (deskSetDocCalls w).

(** What can happen to the dialog of one device. *)
Inductive DeskEvent : Type :=
| Fetch (readOk writeOk : bool)
| OpenManage
| CloseManage
| ChangeName (v : string)
| ChangeDosage (v : string)
| ChangeTime (v : string)
| ChangeFrequency (v : string)
| Save (now : Z) (ok : bool)
| CancelEdit
| EditClick (med : Med)
| Delete (medId : string) (confirmed ok : bool).

Definition deskStep (w : Desk) (e : DeskEvent) : Desk :=
  match e with
  | Fetch readOk writeOk => fst (fetchDefinitions readOk writeOk w)
  | OpenManage => openManage w
  | CloseManage => closeManage w
  | ChangeName v => changeName v w
  | ChangeDosage v => changeDosage v w
  | ChangeTime v => changeTime v w
  | ChangeFrequency v => changeFrequency v w
  | Save now ok => fst (handleAddEditMedication now ok w)
  | CancelEdit => cancelEdit w
  | EditClick med => handleEditClick med w
  | Delete medId confirmed ok => fst (handleDeleteMedication medId confirmed ok w)
  end.

Definition deskRun (w : Desk) (events : list DeskEvent) : Desk :=
  fold_left deskStep events w.

End Manage.

(* ===================================================================== *)
(** ** The user name                                                      *)
(* ===================================================================== *)

Module Profile.

(** The two [useState] cells behind the name dialog and the entry
    "medication_calendar_user_name" of [localStorage] ([None] when
    [getItem] answers [null]). *)
Record Profile : Type := mkProfile {
  userName : string;
  showNameInput : bool;
  storedName : option string
}.

Section Trim.

(** [String.prototype.trim]. *)
Variable trim : string -> string.

(** The page as loaded, before effect 2 has run. *)
Definition loaded (storage : option string) : Profile :=
  mkProfile EmptyString false storage.

(** Effect 2: [if (storedName)], where [null] and the empty string are
    falsy. *)
Definition effect2 (p : Profile) : Profile :=
  match storedName p with
  | Some s =>
      if String.eqb s EmptyString
      then mkProfile (userName p) true (storedName p)
      else mkProfile s (showNameInput p) (storedName p)
  | None => mkProfile (userName p) true (storedName p)
  end.

(** The input of the dialog. *)
Definition typeName (v : string) (p : Profile) : Profile :=
  mkProfile v (showNameInput p) (storedName p).

Definition handleSaveUserName (p : Profile) : Profile :=
  if String.eqb (trim (userName p)) EmptyString then p
  else mkProfile (userName p) false (Some (trim (userName p))).

End Trim.

End Profile.

Module JSDateFacts.
Import JSDate.

Lemma DayFromYear_succ y : DayFromYear (y + 1) = DayFromYear y + DaysInYear y.
Proof.
  unfold DayFromYear, DaysInYear, isLeapYear.
  destruct (Z.eqb_spec (y mod 4) 0); destruct (Z.eqb_spec (y mod 100) 0);
    destruct (Z.eqb_spec (y mod 400) 0); simpl;
    Z.div_mod_to_equations; lia.
Qed.

Lemma DayFromYear_bounds y :
  146097 * (y - 1970) - 600 <= 400 * DayFromYear y <= 146097 * (y - 1970) + 600.
Proof.
  unfold DayFromYear. Z.div_mod_to_equations. lia.
Qed.

Lemma DayFromYear_mono y1 y2 : y1 <= y2 -> DayFromYear y1 <= DayFromYear y2.
Proof.
  intros Hle. unfold DayFromYear. Z.div_mod_to_equations. lia.
Qed.

Lemma DaysInYear_cases y : DaysInYear y = 365 \/ DaysInYear y = 366.
Proof. unfold DaysInYear. destruct (isLeapYear y); auto. Qed.

(** The computed year is the one the standard defines: the year whose first
    day is the last one not after [day]. *)
Lemma YearFromDay_spec day :
  DayFromYear (YearFromDay day) <= day < DayFromYear (YearFromDay day + 1).
Proof.
  unfold YearFromDay.
  set (q := (400 * day) / 146097).
  assert (Hq : 146097 * q <= 400 * day < 146097 * (q + 1)).
  { unfold q. Z.div_mod_to_equations. lia. }
  pose proof (DayFromYear_bounds (1970 + q - 1)) as Hlo.
  pose proof (DayFromYear_bounds (1970 + q + 1 + 1)) as Hhi.
  cbv zeta.
  destruct (Z.ltb_spec day (DayFromYear (1970 + q))).
  - replace (1970 + q - 1 + 1) with (1970 + q) by lia. lia.
  - destruct (Z.leb_spec (DayFromYear (1970 + q + 1)) day); lia.
Qed.

Lemma YearFromDay_unique day y :
  DayFromYear y <= day < DayFromYear (y + 1) -> YearFromDay day = y.
Proof.
  intros Hy. pose proof (YearFromDay_spec day) as Hs.
  destruct (Z.lt_trichotomy (YearFromDay day) y) as [Hlt | [Heq | Hgt]]; auto.
  - pose proof (DayFromYear_mono (YearFromDay day + 1) y ltac:(lia)). lia.
  - pose proof (DayFromYear_mono (y + 1) (YearFromDay day) ltac:(lia)). lia.
Qed.

Lemma DayWithinYear_range day :
  0 <= DayWithinYear day < DaysInYear (YearFromDay day).
Proof.
  unfold DayWithinYear. pose proof (YearFromDay_spec day) as Hs.
  rewrite DayFromYear_succ in Hs. lia.
Qed.

Lemma InLeapYear_DaysInYear day :
  DaysInYear (YearFromDay day) = 365 + InLeapYear day /\
  (InLeapYear day = 0 \/ InLeapYear day = 1).
Proof.
  unfold DaysInYear, InLeapYear. destruct (isLeapYear _); lia.
Qed.

Ltac month_cases :=
  repeat match goal with
         | |- context [Z.ltb ?a ?b] => destruct (Z.ltb_spec a b)
         end.

Lemma MonthFromDay_range day : 0 <= MonthFromDay day <= 11.
Proof. unfold MonthFromDay. cbv zeta. month_cases; lia. Qed.

(** The month found brackets the day within the year. *)
Lemma MonthFromDay_bracket day :
  monthStart (InLeapYear day) (MonthFromDay day) <= DayWithinYear day
  < monthStart (InLeapYear day) (MonthFromDay day + 1).
Proof.
  pose proof (DayWithinYear_range day) as Hr.
  destruct (InLeapYear_DaysInYear day) as [Hd Hl].
  unfold MonthFromDay. cbv zeta. month_cases; simpl monthStart; lia.
Qed.

Lemma MonthFromDay_unique day m :
  0 <= m <= 11 ->
  monthStart (InLeapYear day) m <= DayWithinYear day
  < monthStart (InLeapYear day) (m + 1) ->
  MonthFromDay day = m.
Proof.
  intros Hm Hb.
  destruct (InLeapYear_DaysInYear day) as [_ Hl].
  assert (Hc : m = 0 \/ m = 1 \/ m = 2 \/ m = 3 \/ m = 4 \/ m = 5 \/ m = 6 \/
               m = 7 \/ m = 8 \/ m = 9 \/ m = 10 \/ m = 11) by lia.
  unfold MonthFromDay. cbv zeta.
  repeat (destruct Hc as [-> | Hc]); try subst m;
    simpl monthStart in Hb; month_cases; lia.
Qed.

(** Building a day from the components of [day] with another day of the
    month moves by the difference: the basis of [setDate]. *)
Lemma MakeDay_components day n :
  MakeDay (YearFromDay day) (MonthFromDay day) n = day - DateFromDay day + n.
Proof.
  pose proof (MonthFromDay_range day) as Hm.
  unfold MakeDay. cbv zeta.
  rewrite Z.div_small, Z.mod_small, Z.add_0_r by lia.
  unfold DateFromDay, DayWithinYear, InLeapYear. lia.
Qed.

Lemma MakeDay_roundtrip day :
  MakeDay (YearFromDay day) (MonthFromDay day) (DateFromDay day) = day.
Proof. rewrite MakeDay_components. lia. Qed.

(** Number of days of month [m] (0..11) of year [y]. *)
Definition daysInMonth (y m : Z) : Z :=
  let l := if isLeapYear y then 1 else 0 in
  monthStart l (m + 1) - monthStart l m.

Lemma daysInMonth_range y m : 0 <= m <= 11 -> 28 <= daysInMonth y m <= 31.
Proof.
  intros Hm. unfold daysInMonth. cbv zeta.
  assert (Hc : m = 0 \/ m = 1 \/ m = 2 \/ m = 3 \/ m = 4 \/ m = 5 \/ m = 6 \/
               m = 7 \/ m = 8 \/ m = 9 \/ m = 10 \/ m = 11) by lia.
  destruct (isLeapYear y);
    repeat (destruct Hc as [-> | Hc]); try subst m; simpl; lia.
Qed.

Lemma monthStart_range l m :
  0 <= l <= 1 -> 0 <= m <= 11 ->
  0 <= monthStart l m /\ monthStart l (m + 1) <= 365 + l.
Proof.
  intros Hl Hm.
  assert (Hc : m = 0 \/ m = 1 \/ m = 2 \/ m = 3 \/ m = 4 \/ m = 5 \/ m = 6 \/
               m = 7 \/ m = 8 \/ m = 9 \/ m = 10 \/ m = 11) by lia.
  repeat (destruct Hc as [-> | Hc]); try subst m; simpl; lia.
Qed.

(** The components of a day built from a valid year, month and day of the
    month are that year, month and day. *)
Lemma components_MakeDay y m n :
  0 <= m <= 11 -> 1 <= n <= daysInMonth y m ->
  YearFromDay (MakeDay y m n) = y /\
  MonthFromDay (MakeDay y m n) = m /\
  DateFromDay (MakeDay y m n) = n.
Proof.
  intros Hm Hn. unfold daysInMonth in Hn. cbv zeta in Hn.
  set (l := if isLeapYear y then 1 else 0) in *.
  assert (Hl : 0 <= l <= 1) by (unfold l; destruct (isLeapYear y); lia).
  destruct (monthStart_range l m Hl Hm) as [Hs0 Hs1].
  assert (Hmk : MakeDay y m n = DayFromYear y + monthStart l m + n - 1).
  { unfold MakeDay. cbv zeta.
    rewrite Z.div_small, Z.mod_small, Z.add_0_r by lia. reflexivity. }
  assert (Hdy : DaysInYear y = 365 + l).
  { unfold DaysInYear, l. destruct (isLeapYear y); lia. }
  assert (Hy : YearFromDay (MakeDay y m n) = y).
  { apply YearFromDay_unique. rewrite DayFromYear_succ, Hmk. lia. }
  assert (Hil : InLeapYear (MakeDay y m n) = l).
  { unfold InLeapYear. rewrite Hy. reflexivity. }
  assert (Hdw : DayWithinYear (MakeDay y m n) = monthStart l m + n - 1).
  { unfold DayWithinYear. rewrite Hy, Hmk. lia. }
  assert (Hmo : MonthFromDay (MakeDay y m n) = m).
  { apply MonthFromDay_unique; [exact Hm |]. rewrite Hil, Hdw. lia. }
  repeat split; auto.
  unfold DateFromDay. rewrite Hil, Hmo, Hdw. lia.
Qed.

Lemma DateFromDay_range day :
  1 <= DateFromDay day <= daysInMonth (YearFromDay day) (MonthFromDay day).
Proof.
  pose proof (MonthFromDay_bracket day) as Hb.
  unfold DateFromDay, daysInMonth. cbv zeta.
  fold (InLeapYear day). lia.
Qed.

(** *** Time values *)

Lemma msPerDay_pos : 0 < msPerDay.
Proof. reflexivity. Qed.

Lemma Day_MakeDate day t :
  0 <= t < msPerDay ->
  Day (MakeDate day t) = day /\ TimeWithinDay (MakeDate day t) = t.
Proof.
  intros Ht. unfold Day, TimeWithinDay, MakeDate. split.
  - rewrite Z.div_add_l by (unfold msPerDay; lia). rewrite Z.div_small; lia.
  - rewrite Z.add_comm, Z.mod_add by (unfold msPerDay; lia).
    apply Z.mod_small; lia.
Qed.

Lemma TimeWithinDay_range t : 0 <= TimeWithinDay t < msPerDay.
Proof. unfold TimeWithinDay. apply Z.mod_pos_bound. reflexivity. Qed.

Lemma MakeDate_Day t : MakeDate (Day t) (TimeWithinDay t) = t.
Proof.
  unfold MakeDate, Day, TimeWithinDay.
  pose proof (Z.div_mod t msPerDay ltac:(unfold msPerDay; lia)). lia.
Qed.

(** [addDays d k]: the same time of day, [k] days later. *)
Definition addDays (d : Date) (k : Z) : Date :=
  DateOf (localTime d + k * msPerDay).

Lemma Day_addDays d k :
  Day (localTime (addDays d k)) = Day (localTime d) + k.
Proof.
  unfold addDays, Day. simpl.
  rewrite Z.div_add by (unfold msPerDay; lia). reflexivity.
Qed.

Lemma addDays_0 d : addDays d 0 = d.
Proof. destruct d as [t]. unfold addDays. simpl. f_equal. lia. Qed.

Lemma addDays_addDays d j k : addDays (addDays d j) k = addDays d (j + k).
Proof. unfold addDays. simpl. f_equal. lia. Qed.

(** The local time [d.setDate(d.getDate() + k)] asks for is [k] days later
    at the same time of day: the step of [goToPreviousDay], [goToNextDay]
    and of the loop of [getLastTuesdayOfMonth]. *)
Lemma setDate_getDate {tz : TimeZone} d k :
  setDate d (getDate d + k) = dateOfLocal (localTime (addDays d k)).
Proof.
  unfold setDate, addDays, getFullYear, getMonth, getDate.
  rewrite MakeDay_components. simpl. f_equal.
  pose proof (MakeDate_Day (localTime d)) as Ht.
  unfold MakeDate in *. lia.
Qed.

Lemma getDay_addDays d k : getDay (addDays d k) = (getDay d + k) mod 7.
Proof.
  unfold getDay, WeekDay. rewrite Day_addDays.
  rewrite Zplus_mod_idemp_l. f_equal. lia.
Qed.

Lemma getDay_range d : 0 <= getDay d < 7.
Proof. unfold getDay, WeekDay. apply Z.mod_pos_bound. lia. Qed.

Lemma localMidnight_Day y m n : Day (localTime (localMidnight y m n)) = MakeDay y m n.
Proof.
  unfold localMidnight. simpl. apply Day_MakeDate. unfold msPerDay. lia.
Qed.

(** *** Time zones *)

(** The last day a time value reaches: 100 000 000 days from the epoch. *)
Definition lastDay : Z := 100000000.

Lemma maxTime_lastDay : maxTime = lastDay * msPerDay.
Proof. reflexivity. Qed.

(** A date more than forty days inside the range of [Date]. *)
Definition wellInside (d : Date) : Prop :=
  Z.abs (Day (localTime d)) <= lastDay - 40.

Lemma abs_time_Day t : Z.abs t <= (Z.abs (Day t) + 1) * msPerDay.
Proof.
  unfold Day. pose proof msPerDay_pos as Hp.
  pose proof (Z.div_mod t msPerDay ltac:(lia)) as Hdm.
  pose proof (Z.mod_pos_bound t msPerDay Hp) as Hr. nia.
Qed.

Section ZoneFacts.

Context {tz : TimeZone}.

(** A civil zone: a local time taken to UTC and back is a time of the same
    calendar day (no calendar day is skipped), and the offset from UTC is
    at most a day.  Zones that skip an hour within a day are civil; a zone
    is not on the day it skips. *)
Definition Civil : Prop :=
  (forall t : Z, Day (LocalTime (UTC t)) = Day t) /\
  (forall (t : Z) (isUTC : bool), Z.abs (LocalTZA t isUTC) <= msPerDay).

(** In a civil zone a local time at least two days inside the range gives
    a valid date of the same calendar day. *)
Lemma dateOfLocal_Some t :
  Civil -> Z.abs (Day t) <= lastDay - 2 ->
  exists d, dateOfLocal t = Some d /\ Day (localTime d) = Day t.
Proof.
  intros [Hday Hoff] Hr. unfold dateOfLocal, TimeClip.
  assert (Hclip : Z.abs (UTC t) <= maxTime).
  { unfold UTC. pose proof (Hoff t false) as Ho.
    pose proof (abs_time_Day t) as Ht. rewrite maxTime_lastDay.
    pose proof msPerDay_pos. nia. }
  apply Z.leb_le in Hclip. rewrite Hclip.
  eexists. split; [reflexivity |]. simpl. apply Hday.
Qed.

Lemma setDate_Some d k :
  Civil -> Z.abs (Day (localTime d) + k) <= lastDay - 2 ->
  exists d', setDate d (getDate d + k) = Some d' /\
    Day (localTime d') = Day (localTime d) + k.
Proof.
  intros Hc Hr. rewrite setDate_getDate.
  destruct (dateOfLocal_Some (localTime (addDays d k)) Hc) as (d' & Hd & HD).
  - now rewrite Day_addDays.
  - exists d'. split; [exact Hd |]. now rewrite HD, Day_addDays.
Qed.

(** [new Date(year, month, date)] inside the range: a valid date of the
    calendar day MakeDay(yr, month, date), where [yr] is the year as the
    constructor reads it. *)
Lemma newDate_returns y m n :
  Civil ->
  let yr := if (0 <=? y) && (y <=? 99) then 1900 + y else y in
  Z.abs (MakeDay yr m n) <= lastDay - 2 ->
  exists d, newDate y m n = Some d /\ Day (localTime d) = MakeDay yr m n.
Proof.
  intros Hc yr Hr. unfold newDate. fold yr.
  assert (HD : Day (MakeDate (MakeDay yr m n) 0) = MakeDay yr m n)
    by (apply Day_MakeDate; unfold msPerDay; lia).
  destruct (dateOfLocal_Some (MakeDate (MakeDay yr m n) 0) Hc) as (d & Hd & Hday).
  - now rewrite HD.
  - exists d. split; [exact Hd |]. now rewrite Hday.
Qed.


(** A year from 0 to 99 is read as a year of the twentieth century. *)
Lemma newDate_two_digit_year y m n :
  0 <= y <= 99 -> newDate y m n = newDate (1900 + y) m n.
Proof.
  intros Hy. unfold newDate.
  assert (H1 : (0 <=? y) && (y <=? 99) = true).
  { apply andb_true_iff. split; apply Z.leb_le; lia. }
  assert (H2 : (0 <=? 1900 + y) && (1900 + y <=? 99) = false).
  { apply andb_false_iff. right. apply Z.leb_gt. lia. }
  now rewrite H1, H2.
Qed.

End ZoneFacts.

(** A zone with a fixed offset of at most a day is civil. *)
Lemma fixedOffset_Civil offset :
  Z.abs offset <= msPerDay -> @Civil (fixedOffset offset).
Proof.
  intros Ho. split.
  - intros t. unfold LocalTime, UTC. simpl. f_equal. lia.
  - intros t b. exact Ho.
Qed.

Lemma buenosAires_Civil : @Civil buenosAires.
Proof. apply fixedOffset_Civil. unfold msPerDay. lia. Qed.

Lemma length_append (a b : string) :
  String.length (a +:+ b) = (String.length a + String.length b)%nat.
Proof. induction a as [| c a IH]; simpl; [reflexivity | now rewrite IH]. Qed.

Lemma append_inj_length (a a' b b' : string) :
  String.length a = String.length a' ->
  a +:+ b = a' +:+ b' -> a = a' /\ b = b'.
Proof.
  revert a'. induction a as [| c a IH]; intros [| c' a'] Hlen Heq;
    simpl in *; try discriminate; [now split |].
  injection Heq as -> Heq. injection Hlen as Hlen.
  destruct (IH a' Hlen Heq) as [-> ->]. now split.
Qed.

Lemma append_inj_length_r (a a' b b' : string) :
  String.length b = String.length b' ->
  a +:+ b = a' +:+ b' -> a = a' /\ b = b'.
Proof.
  intros Hlen Heq. apply append_inj_length; [| exact Heq].
  apply (f_equal String.length) in Heq. rewrite !length_append in Heq. lia.
Qed.

Lemma append_char_inj (c : ascii) (a b : string) :
  String c EmptyString +:+ a = String c EmptyString +:+ b -> a = b.
Proof.
  intros H. change (String c a = String c b) in H. now injection H.
Qed.

(** The number a string of decimal digits denotes ([None] when some
    character is not a digit). *)
Definition decimalValue (s : string) : option Z :=
  match NilEmpty.uint_of_string s with
  | Some u => Some (Z.of_N (N.of_uint u))
  | None => None
  end.

Lemma String_of_nonneg n :
  0 <= n -> String_of n = NilEmpty.string_of_uint (N.to_uint (Z.to_N n)).
Proof.
  intros Hn. unfold String_of. destruct n as [| p | p]; [reflexivity | | lia].
  simpl. pose proof (DecimalPos.Unsigned.to_uint_nonnil p) as Hnn.
  destruct (Pos.to_uint p); [congruence | reflexivity ..].
Qed.

Lemma decimalValue_String_of n : 0 <= n -> decimalValue (String_of n) = Some n.
Proof.
  intros Hn. unfold decimalValue.
  rewrite String_of_nonneg, NilEmpty.usu by exact Hn.
  rewrite DecimalN.Unsigned.of_to. f_equal. lia.
Qed.

Lemma decimalValue_zero s : decimalValue (String "0" s) = decimalValue s.
Proof.
  unfold decimalValue. simpl.
  destruct (NilEmpty.uint_of_string s); reflexivity.
Qed.


Lemma decimalValue_padStart s k :
  decimalValue (padStart s k "0") = decimalValue s.
Proof.
  unfold padStart. induction (k - String.length s)%nat as [| j IH];
    [reflexivity |].
  change (repeatChar "0" (S j) +:+ s)
    with (String "0" (repeatChar "0" j +:+ s)).
  now rewrite decimalValue_zero.
Qed.


(** A property checked on every integer of a range by evaluation. *)
Lemma range_check (P : Z -> bool) (lo : Z) (k : nat) :
  forallb (fun i => P (lo + Z.of_nat i)) (seq 0 k) = true ->
  forall n, lo <= n < lo + Z.of_nat k -> P n = true.
Proof.
  intros Hall n Hn. rewrite forallb_forall in Hall.
  specialize (Hall (Z.to_nat (n - lo))).
  replace (lo + Z.of_nat (Z.to_nat (n - lo))) with n in Hall by lia.
  apply Hall. apply in_seq. lia.
Qed.

Lemma padStart2_length n :
  0 <= n < 100 -> String.length (padStart (String_of n) 2 "0") = 2%nat.
Proof.
  intros Hn.
  apply (range_check
           (fun n => Nat.eqb (String.length (padStart (String_of n) 2 "0")) 2)
           0 100) in Hn; [now apply Nat.eqb_eq in Hn | vm_compute; reflexivity].
Qed.




(** *** Calendar days *)

(** Two dates fall on the same local calendar day. *)
Definition sameDay (d1 d2 : Date) : Prop :=
  Day (localTime d1) = Day (localTime d2).

Lemma sameDay_components d1 d2 :
  sameDay d1 d2 <->
  getFullYear d1 = getFullYear d2 /\ getMonth d1 = getMonth d2 /\
  getDate d1 = getDate d2.
Proof.
  unfold sameDay, getFullYear, getMonth, getDate. split.
  - intros ->. auto.
  - intros (Hy & Hm & Hd).
    rewrite <- (MakeDay_roundtrip (Day (localTime d1))).
    rewrite <- (MakeDay_roundtrip (Day (localTime d2))).
    now rewrite Hy, Hm, Hd.
Qed.

Lemma getDate_range d : 1 <= getDate d <= 31.
Proof.
  unfold getDate. pose proof (DateFromDay_range (Day (localTime d))) as Hr.
  pose proof (daysInMonth_range (YearFromDay (Day (localTime d)))
                (MonthFromDay (Day (localTime d)))
                (MonthFromDay_range _)). lia.
Qed.


End JSDateFacts.

(* ===================================================================== *)
(** ** Facts about the schedule resolution                                *)
(* ===================================================================== *)

Module ScheduleFacts.
Import JSDate JSDateFacts Schedule.

(** *** The loop of [getLastTuesdayOfMonth] *)

(** Number of steps back from [d] to the nearest Tuesday not after it. *)
Definition stepsToTuesday (d : Date) : Z := (getDay d - 2) mod 7.

Lemma stepsToTuesday_range d : 0 <= stepsToTuesday d <= 6.
Proof.
  unfold stepsToTuesday.
  pose proof (Z.mod_pos_bound (getDay d - 2) 7 ltac:(lia)). lia.
Qed.

Lemma stepsToTuesday_0 d : getDay d = 2 <-> stepsToTuesday d = 0.
Proof.
  unfold stepsToTuesday. pose proof (getDay_range d) as Hr.
  split; intros H.
  - rewrite H. reflexivity.
  - assert (Hc : getDay d = 0 \/ getDay d = 1 \/ getDay d = 2 \/ getDay d = 3 \/
                 getDay d = 4 \/ getDay d = 5 \/ getDay d = 6) by lia.
    repeat (destruct Hc as [Hc | Hc]); rewrite Hc in H;
      solve [exact Hc | discriminate H].
Qed.

Lemma getDay_Day d d' k :
  Day (localTime d') = Day (localTime d) + k ->
  getDay d' = (getDay d + k) mod 7.
Proof.
  intros HD. unfold getDay, WeekDay. rewrite HD.
  rewrite Zplus_mod_idemp_l. f_equal. lia.
Qed.

Lemma stepsToTuesday_Day d d' k :
  Day (localTime d') = Day (localTime d) + k ->
  stepsToTuesday d' = (stepsToTuesday d + k) mod 7.
Proof.
  intros HD. unfold stepsToTuesday. rewrite (getDay_Day d d' k HD).
  rewrite Zplus_mod_idemp_l.
  rewrite <- Zminus_mod_idemp_l.
  rewrite Z.mod_mod by lia.
  rewrite Zminus_mod_idemp_l. f_equal. lia.
Qed.

Lemma stepsToTuesday_addDays d k :
  stepsToTuesday (addDays d k) = (stepsToTuesday d + k) mod 7.
Proof. apply stepsToTuesday_Day, Day_addDays. Qed.

(** [d] lies in month [m] (0..11) of year [y]. *)
Definition inMonth (y m : Z) (d : Date) : Prop :=
  getFullYear d = y /\ getMonth d = m.

Lemma inMonth_Day y m d :
  inMonth y m d -> Day (localTime d) = MakeDay y m (getDate d).
Proof.
  intros [<- <-]. unfold getFullYear, getMonth, getDate.
  now rewrite MakeDay_roundtrip.
Qed.

Lemma MakeDay_date y m n k : MakeDay y m (n + k) = MakeDay y m n + k.
Proof. unfold MakeDay. lia. Qed.

(** Day 0 of the next month is the last day of the month. *)
Lemma MakeDay_last y m :
  0 <= m <= 11 -> MakeDay y (m + 1) 0 = MakeDay y m (daysInMonth y m).
Proof.
  intros Hm. unfold MakeDay, daysInMonth. cbv zeta.
  rewrite (Z.div_small m), (Z.mod_small m) by lia.
  replace (y + 0) with y by lia.
  destruct (Z.eq_dec m 11) as [-> | Hne].
  - change ((11 + 1) / 12) with 1. change ((11 + 1) mod 12) with 0.
    rewrite DayFromYear_succ. unfold DaysInYear.
    destruct (isLeapYear y), (isLeapYear (y + 1)); simpl; lia.
  - rewrite (Z.div_small (m + 1)), (Z.mod_small (m + 1)) by lia.
    replace (y + 0) with y by lia. lia.
Qed.

(** The last day of the month of a date is at most thirty days after it. *)
Lemma last_day_near d :
  let last := MakeDay (getFullYear d) (getMonth d)
                (daysInMonth (getFullYear d) (getMonth d)) in
  Day (localTime d) <= last <= Day (localTime d) + 30.
Proof.
  cbv zeta.
  pose proof (MonthFromDay_range (Day (localTime d))) as Hm.
  fold (getMonth d) in Hm.
  pose proof (inMonth_Day (getFullYear d) (getMonth d) d (conj eq_refl eq_refl))
    as HD.
  pose proof (DateFromDay_range (Day (localTime d))) as Hr.
  fold (getDate d) (getFullYear d) (getMonth d) in Hr.
  pose proof (daysInMonth_range (getFullYear d) (getMonth d) Hm) as Hl.
  rewrite HD. unfold MakeDay. lia.
Qed.

Section Zoned.

Context {tz : TimeZone}.

(** More fuel does not change what the loop returns. *)
Lemma whileNotTuesday_more fuel fuel' d lt :
  whileNotTuesday fuel d = Some lt -> (fuel <= fuel')%nat ->
  whileNotTuesday fuel' d = Some lt.
Proof.
  revert fuel' d. induction fuel as [| fuel IH]; intros fuel' d Hr Hle;
    [discriminate |].
  destruct fuel' as [| fuel']; [lia |]. cbn [whileNotTuesday] in *.
  destruct (negb (getDay d =? 2)); [| exact Hr].
  destruct (setDate d (getDate d - 1)) as [d' |]; [| discriminate].
  apply IH; [exact Hr | lia].
Qed.

(** In a civil zone, inside the range of [Date] and with more fuel than
    steps to go, the loop exits on the nearest Tuesday at or before the day
    it starts from; none of the days it passes is a Tuesday. *)
Lemma whileNotTuesday_exits fuel d :
  Civil ->
  Z.abs (Day (localTime d)) + stepsToTuesday d <= lastDay - 2 ->
  (Z.to_nat (stepsToTuesday d) < fuel)%nat ->
  exists lt,
    whileNotTuesday fuel d = Some lt /\
    Day (localTime lt) = Day (localTime d) - stepsToTuesday d.
Proof.
  intros Hc. revert d. induction fuel as [| fuel IH]; intros d Hr Hfuel; [lia |].
  pose proof (stepsToTuesday_range d) as Hs.
  cbn [whileNotTuesday].
  destruct (Z.eqb_spec (getDay d) 2) as [Htue | Hnot]; cbn [negb].
  - apply stepsToTuesday_0 in Htue. rewrite Htue. exists d.
    split; [reflexivity | lia].
  - assert (Hpos : stepsToTuesday d <> 0)
      by (intros H0; apply Hnot; now apply stepsToTuesday_0).
    replace (getDate d - 1) with (getDate d + -1) by lia.
    destruct (setDate_Some d (-1) Hc) as (d' & Hd' & HD'); [lia |].
    rewrite Hd'.
    assert (Hstep : stepsToTuesday d' = stepsToTuesday d - 1).
    { rewrite (stepsToTuesday_Day d d' (-1) HD'). apply Z.mod_small. lia. }
    destruct (IH d') as (lt & Hlt & HDlt); [rewrite Hstep, HD'; lia | lia |].
    exists lt. split; [exact Hlt |]. rewrite HDlt, HD', Hstep. lia.
Qed.


(** For a year from 0 to 99 the function answers for the year 1900 later:
    the constructor reads such a year as one of the twentieth century. *)
Lemma getLastTuesdayOfMonth_two_digit_year y m :
  0 <= y <= 99 ->
  getLastTuesdayOfMonth y m = getLastTuesdayOfMonth (1900 + y) m.
Proof.
  intros Hy. unfold getLastTuesdayOfMonth.
  now rewrite newDate_two_digit_year.
Qed.

(** *** The filter *)

(** What the callback answers, as a boolean; [false] where it does not
    return. *)
Definition included (d : Date) (med : Med) : bool :=
  match filterCallback d med with
  | Some b => b
  | None => false
  end.

Lemma included_true d med :
  included d med = true <-> filterCallback d med = Some true.
Proof.
  unfold included. destruct (filterCallback d med) as [[|] |];
    split; congruence.
Qed.

Lemma filterM_Some {A : Type} (f : A -> option bool) (l r : list A) :
  filterM f l = Some r <->
  Forall (fun x => f x <> None) l /\
  r = List.filter (fun x => match f x with Some b => b | None => false end) l.
Proof.
  revert r. induction l as [| x l IH]; intros r; simpl.
  - split; [intros [= <-]; split; [constructor | reflexivity]
           | now intros [_ ->]].
  - destruct (f x) as [b |] eqn:Hx.
    + destruct (filterM f l) as [r' |] eqn:Hl.
      * destruct (proj1 (IH r') eq_refl) as [Hall ->]. split.
        -- intros [= <-]. split; [| now destruct b].
           constructor; [congruence | exact Hall].
        -- intros [_ ->]. now destruct b.
      * split; [discriminate |]. intros [Hall _].
        apply Forall_inv_tail in Hall.
        pose proof (proj2 (IH _) (conj Hall eq_refl)) as Habs. discriminate.
    + split; [discriminate |]. intros [Hall _].
      apply Forall_inv in Hall. congruence.
Qed.

(** When [getFilteredMedications] returns, the callback has returned for
    every definition, and the result is the definitions it accepts, in the
    order of the definition list. *)
Lemma getFilteredMedications_Some d defs shown :
  getFilteredMedications d defs = Some shown <->
  Forall (fun med => filterCallback d med <> None) defs /\
  shown = List.filter (included d) defs.
Proof. unfold getFilteredMedications. apply filterM_Some. Qed.

(** The callback returns for every definition that is not monthly. *)
Lemma filterCallback_not_monthly d med :
  frequency med <> "Último Martes del Mes" -> filterCallback d med <> None.
Proof.
  intros Hf. unfold filterCallback. cbv zeta.
  apply String.eqb_neq in Hf. rewrite Hf.
  repeat match goal with
         | |- context [String.eqb ?a ?b] => destruct (String.eqb a b)
         end; discriminate.
Qed.

(** *** Objects *)

Lemma getProp_setProp {V : Type} (o : JSObject V) k v k' :
  getProp (setProp o k v) k' = if String.eqb k k' then Some v else getProp o k'.
Proof.
  induction o as [| [k0 v0] o IH]; simpl.
  - reflexivity.
  - destruct (String.eqb_spec k0 k) as [-> | Hne]; simpl.
    + destruct (String.eqb_spec k k'); reflexivity.
    + rewrite IH. destruct (String.eqb_spec k0 k') as [-> | Hne'].
      * destruct (String.eqb_spec k k'); [congruence | reflexivity].
      * reflexivity.
Qed.

Lemma getProp_None {V : Type} (o : JSObject V) k :
  getProp o k = None <-> ~ In k (map fst o).
Proof.
  induction o as [| [k0 v0] o IH]; simpl.
  - tauto.
  - destruct (String.eqb_spec k0 k) as [-> | Hne].
    + split; [discriminate | tauto].
    + rewrite IH. tauto.
Qed.

(** *** The grouping where it does not throw *)

(** The step of the reducer for a slot that names no member of
    [Object.prototype]. *)
Definition plainReducer (acc : JSObject (list Med)) (med : Med)
  : JSObject (list Med) :=
  let acc :=
    match getProp acc (time med) with
    | None => setProp acc (time med) []
    | Some _ => acc
    end in
  match getProp acc (time med) with
  | Some arr => setProp acc (time med) (arr ++ [med])
  | None => acc
  end.

Definition plainGroups (l : list Med) : JSObject (list Med) :=
  fold_left plainReducer l [].

(** No slot of the list names a member of [Object.prototype]. *)
Definition plainSlots (l : list Med) : Prop :=
  Forall (fun med => inherited (time med) = false) l.

(** The object owns no property named like a member of the prototype. *)
Definition plainKeys {V : Type} (o : JSObject V) : Prop :=
  Forall (fun k => inherited k = false) (map fst o).

Lemma setProp_keys_In {V : Type} (o : JSObject V) k v k' :
  In k' (map fst (setProp o k v)) <-> k' = k \/ In k' (map fst o).
Proof.
  induction o as [| [k0 v0] o IH]; simpl; [intuition congruence |].
  destruct (String.eqb_spec k0 k) as [-> | Hne]; simpl.
  - intuition congruence.
  - rewrite IH. intuition congruence.
Qed.

Lemma setProp_plainKeys {V : Type} (o : JSObject V) k v :
  inherited k = false -> plainKeys o -> plainKeys (setProp o k v).
Proof.
  unfold plainKeys. rewrite !Forall_forall. intros Hk Ho k' Hin.
  apply list_elem_of_In, setProp_keys_In in Hin as [-> | Hin];
    [exact Hk | apply Ho; now apply list_elem_of_In].
Qed.

Lemma groupReducer_plain acc med :
  inherited (time med) = false ->
  groupReducer acc med = Some (plainReducer acc med).
Proof.
  intros Hi. unfold groupReducer, plainReducer. rewrite Hi.
  destruct (getProp acc (time med)) as [arr |] eqn:Hacc.
  - now rewrite Hacc.
  - now rewrite getProp_setProp, String.eqb_refl.
Qed.

(** For a slot that names a member of the prototype the reducer throws. *)
Lemma groupReducer_throws acc med :
  inherited (time med) = true -> plainKeys acc -> groupReducer acc med = None.
Proof.
  intros Hi Hacc. unfold groupReducer. rewrite Hi.
  assert (Hn : getProp acc (time med) = None).
  { apply getProp_None. intros Hin. unfold plainKeys in Hacc.
    rewrite Forall_forall in Hacc.
    apply list_elem_of_In, Hacc in Hin. congruence. }
  cbv zeta. rewrite Hn. cbn. now rewrite Hn.
Qed.

Lemma plainReducer_plainKeys acc med :
  inherited (time med) = false -> plainKeys acc ->
  plainKeys (plainReducer acc med).
Proof.
  intros Hi Hacc. unfold plainReducer.
  destruct (getProp acc (time med)) as [arr |] eqn:Hg.
  - rewrite Hg. now apply setProp_plainKeys.
  - rewrite getProp_setProp, String.eqb_refl.
    now apply setProp_plainKeys, setProp_plainKeys.
Qed.

Lemma reduceM_groupReducer l acc g :
  plainKeys acc ->
  reduceM groupReducer l acc = Some g <->
  plainSlots l /\ g = fold_left plainReducer l acc.
Proof.
  revert acc. induction l as [| med l IH]; intros acc Hacc; simpl.
  - split; [intros [= <-]; split; [constructor | reflexivity]
           | now intros [_ ->]].
  - destruct (inherited (time med)) eqn:Hi.
    + rewrite groupReducer_throws by assumption.
      split; [discriminate |]. intros [Hall _].
      apply Forall_inv in Hall. congruence.
    + rewrite groupReducer_plain by exact Hi.
      rewrite IH by now apply plainReducer_plainKeys.
      split; intros [Hall ->]; (split; [| reflexivity]).
      * now constructor.
      * now apply Forall_inv_tail in Hall.
Qed.

(** [groupedMedications] returns exactly for a list none of whose slots
    names a member of the prototype. *)
Lemma groupedMedications_Some l g :
  groupedMedications l = Some g <-> plainSlots l /\ g = plainGroups l.
Proof. apply reduceM_groupReducer. constructor. Qed.

Lemma plainReducer_getProp acc med t :
  getProp (plainReducer acc med) t
  = if String.eqb (time med) t
    then Some (default [] (getProp acc t) ++ [med])
    else getProp acc t.
Proof.
  unfold plainReducer.
  destruct (getProp acc (time med)) as [arr |] eqn:Hacc.
  - rewrite Hacc, getProp_setProp.
    destruct (String.eqb_spec (time med) t) as [<- | _]; [| reflexivity].
    now rewrite Hacc.
  - rewrite getProp_setProp, String.eqb_refl, !getProp_setProp.
    destruct (String.eqb_spec (time med) t) as [<- | _]; [| reflexivity].
    now rewrite Hacc.
Qed.

Definition inSlot (t : string) (med : Med) : bool := String.eqb (time med) t.

Lemma fold_plainReducer_getProp l acc t :
  getProp (fold_left plainReducer l acc) t
  = match getProp acc t, List.filter (inSlot t) l with
    | None, [] => None
    | o, meds => Some (default [] o ++ meds)
    end.
Proof.
  revert acc. induction l as [| med l IH]; intros acc; simpl.
  - destruct (getProp acc t); simpl; [now rewrite app_nil_r | reflexivity].
  - rewrite IH, plainReducer_getProp. fold (inSlot t med).
    destruct (inSlot t med).
    + destruct (getProp acc t); simpl; [now rewrite <- app_assoc | reflexivity].
    + reflexivity.
Qed.

(** A slot of the grouping holds the medications of that slot, in the order
    of the list grouped; a slot with no medication is no property at all. *)
Lemma plainGroups_getProp l t :
  getProp (plainGroups l) t
  = match List.filter (inSlot t) l with
    | [] => None
    | meds => Some meds
    end.
Proof.
  unfold plainGroups. rewrite fold_plainReducer_getProp. simpl.
  now destruct (List.filter (inSlot t) l).
Qed.


(** *** [Object.keys] and the sort *)

Lemma insertIndex_In x y l : In x (insertIndex y l) <-> x = y \/ In x l.
Proof.
  induction l as [| z l IH]; simpl; [intuition congruence |].
  destruct (fst y <=? fst z); simpl; [intuition congruence |].
  rewrite IH. intuition congruence.
Qed.

Lemma fold_insertIndex_In x l : In x (fold_right insertIndex [] l) <-> In x l.
Proof.
  induction l as [| y l IH]; simpl; [tauto |].
  rewrite insertIndex_In, IH. intuition congruence.
Qed.

Lemma indexKeys_In {V : Type} (o : JSObject V) n k :
  In (n, k) (indexKeys o) <-> In k (map fst o) /\ arrayIndex k = Some n.
Proof.
  unfold indexKeys. rewrite fold_insertIndex_In.
  rewrite <- list_elem_of_In, list_elem_of_omap. split.
  - intros ([k' v] & Hin & Hf). simpl in Hf.
    destruct (arrayIndex k') as [n' |] eqn:Hk'; [| discriminate].
    injection Hf as -> ->. split; [| exact Hk'].
    apply in_map_iff. exists (k, v). split; [reflexivity |].
    now apply list_elem_of_In.
  - intros [Hin Hk]. apply in_map_iff in Hin as ([k' v] & Heq & Hin).
    simpl in Heq. subst k'. exists (k, v). split.
    + now apply list_elem_of_In.
    + simpl. now rewrite Hk.
Qed.

(** [Object.keys] lists the keys of the object, each key of it. *)
Lemma ObjectKeys_In {V : Type} (o : JSObject V) k :
  In k (ObjectKeys o) <-> In k (map fst o).
Proof.
  unfold ObjectKeys. rewrite in_app_iff, in_map_iff.
  rewrite <- (list_elem_of_In (filter _ _)), list_elem_of_filter, list_elem_of_In.
  split.
  - intros [([n k'] & Heq & Hin) | [_ Hin]]; [| exact Hin].
    simpl in Heq. subst k'. now apply indexKeys_In in Hin.
  - intros Hin. destruct (arrayIndex k) as [n |] eqn:Hk.
    + left. exists (n, k). split; [reflexivity |]. now apply indexKeys_In.
    + right. split; [reflexivity | exact Hin].
Qed.

Section Sorting.
Context {A : Type} (cmp : A -> A -> Z).

Lemma sortInsert_In x y l : In x (sortInsert cmp y l) <-> x = y \/ In x l.
Proof.
  induction l as [| z l IH]; simpl; [intuition congruence |].
  destruct (cmp y z <=? 0); simpl; [intuition congruence |].
  rewrite IH. intuition congruence.
Qed.

Lemma sort_In x l : In x (sort cmp l) <-> In x l.
Proof.
  unfold sort. induction l as [| y l IH]; simpl; [tauto |].
  rewrite sortInsert_In, IH. intuition congruence.
Qed.

Lemma sortInsert_Permutation y l : sortInsert cmp y l ≡ₚ y :: l.
Proof.
  induction l as [| z l IH]; simpl; [reflexivity |].
  destruct (cmp y z <=? 0); [reflexivity |].
  rewrite IH. apply Permutation_swap.
Qed.

Lemma sort_Permutation l : sort cmp l ≡ₚ l.
Proof.
  unfold sort. induction l as [| y l IH]; simpl; [reflexivity |].
  now rewrite sortInsert_Permutation, IH.
Qed.

(** A comparator that is the difference of a rank. *)
Variable rank : A -> Z.
Hypothesis cmp_rank : forall a b, cmp a b = rank a - rank b.

Definition rankLe (a b : A) : Prop := rank a <= rank b.

Lemma sortInsert_sorted y l :
  StronglySorted rankLe l -> StronglySorted rankLe (sortInsert cmp y l).
Proof.
  induction 1 as [| z l Hs IH Hall]; simpl.
  - repeat constructor.
  - rewrite cmp_rank. destruct (Z.leb_spec (rank y - rank z) 0) as [Hle | Hgt].
    + constructor; [now constructor |].
      constructor; [unfold rankLe; lia |].
      eapply Forall_impl; [exact Hall |].
      unfold rankLe. intros a Ha. lia.
    + constructor; [exact IH |].
      apply Forall_forall. intros a Ha.
      apply list_elem_of_In, sortInsert_In in Ha as [-> | Ha].
      * unfold rankLe. lia.
      * rewrite Forall_forall in Hall. apply Hall. now apply list_elem_of_In.
Qed.

(** The sorted array is in ascending order of rank... *)
Lemma sort_sorted l : StronglySorted rankLe (sort cmp l).
Proof.
  unfold sort. induction l as [| y l IH]; simpl; [constructor |].
  now apply sortInsert_sorted.
Qed.

Lemma sortInsert_filter_rank v y l :
  StronglySorted rankLe l ->
  List.filter (fun a => rank a =? v) (sortInsert cmp y l)
  = List.filter (fun a => rank a =? v) (y :: l).
Proof.
  induction 1 as [| z l Hs IH Hall]; [reflexivity |].
  cbn [sortInsert]. rewrite cmp_rank.
  destruct (Z.leb_spec (rank y - rank z) 0) as [Hle | Hgt]; [reflexivity |].
  cbn [List.filter] in *. rewrite IH.
  destruct (Z.eqb_spec (rank y) v), (Z.eqb_spec (rank z) v);
    try reflexivity. lia.
Qed.

(** ... and elements of equal rank keep the order they had (the sort is
    stable). *)
Lemma sort_stable v l :
  List.filter (fun a => rank a =? v) (sort cmp l)
  = List.filter (fun a => rank a =? v) l.
Proof.
  unfold sort. induction l as [| y l IH]; [reflexivity |].
  cbn [fold_right]. rewrite sortInsert_filter_rank by apply sort_sorted.
  cbn [List.filter]. unfold sort in IH. now rewrite IH.
Qed.

Lemma sorted_lookup l i j a b :
  StronglySorted rankLe l ->
  l !! i = Some a -> l !! j = Some b -> (i < j)%nat -> rank a <= rank b.
Proof.
  intros Hs. revert i j. induction Hs as [| z l Hs IH Hall]; intros i j Hi Hj Hlt.
  - discriminate.
  - destruct j as [| j]; [lia |]. simpl in Hj.
    destruct i as [| i]; simpl in Hi.
    + injection Hi as ->. rewrite Forall_forall in Hall.
      apply Hall. eapply list_elem_of_lookup_2. exact Hj.
    + eapply IH; eauto. lia.
Qed.

End Sorting.

Lemma compareSlots_rank a b : compareSlots a b = indexOf order a - indexOf order b.
Proof. reflexivity. Qed.

(** A slot of the priority list. *)
Definition listed (t : string) : Prop := In t order.

Lemma indexOfFrom_range i l a :
  indexOfFrom i l a = -1 /\ ~ In a l \/
  i <= indexOfFrom i l a /\ In a l.
Proof.
  revert i. induction l as [| x l IH]; intros i; simpl; [left; tauto |].
  destruct (String.eqb_spec x a) as [-> | Hne].
  - right. split; [lia | tauto].
  - destruct (IH (i + 1)) as [[-> Hn] | [Hle Hin]].
    + left. split; [reflexivity | tauto].
    + right. split; [lia | tauto].
Qed.

Lemma indexOf_listed t : listed t <-> 0 <= indexOf order t.
Proof.
  unfold listed, indexOf.
  destruct (indexOfFrom_range 0 order t) as [[-> Hn] | [Hle Hin]];
    split; intros; try tauto; lia.
Qed.

Lemma indexOf_unlisted t : ~ listed t <-> indexOf order t = -1.
Proof.
  unfold listed, indexOf.
  destruct (indexOfFrom_range 0 order t) as [[-> Hn] | [Hle Hin]];
    split; intros; try tauto; lia.
Qed.

(** *** The resolved schedule *)

(** [med] stands under some slot heading of the resolution [r]. *)
Definition shownIn (r : list (string * list Med)) (med : Med) : Prop :=
  exists slot meds, In (slot, meds) r /\ In med meds.

(** [med] is shown for [d]: the render produces a resolution, and [med]
    stands under some slot heading of it. *)
Definition scheduledOn (defs : list Med) (d : Date) (med : Med) : Prop :=
  exists r slot meds,
    resolve defs d = Some r /\ In (slot, meds) r /\ In med meds.

(** When the render produces the resolution: the filter has returned for
    every definition, no slot shown names a member of [Object.prototype],
    and the resolution is the slots shown, sorted, each with the definitions
    shown of that slot. *)
Lemma resolve_Some defs d r :
  resolve defs d = Some r <->
  Forall (fun med => filterCallback d med <> None) defs /\
  plainSlots (List.filter (included d) defs) /\
  r = map (fun t => (t, List.filter (inSlot t) (List.filter (included d) defs)))
          (displayedSlots (plainGroups (List.filter (included d) defs))).
Proof.
  unfold resolve.
  destruct (getFilteredMedications d defs) as [shown |] eqn:Hf.
  - apply getFilteredMedications_Some in Hf as [Hall ->].
    destruct (groupedMedications (List.filter (included d) defs))
      as [g |] eqn:Hg.
    + apply groupedMedications_Some in Hg as [Hp ->].
      assert (Heq : map (fun t => (t, default [] (getProp
                           (plainGroups (List.filter (included d) defs)) t)))
                        (displayedSlots
                           (plainGroups (List.filter (included d) defs)))
                    = map (fun t => (t, List.filter (inSlot t)
                                          (List.filter (included d) defs)))
                        (displayedSlots
                           (plainGroups (List.filter (included d) defs)))).
      { apply map_ext. intros t. f_equal. rewrite plainGroups_getProp.
        now destruct (List.filter (inSlot t) _). }
      rewrite Heq. split.
      * intros [= <-]. now repeat split.
      * now intros (_ & _ & ->).
    + split; [discriminate |]. intros (_ & Hp & _).
      pose proof (proj2 (groupedMedications_Some _ _) (conj Hp eq_refl)) as Habs.
      rewrite Hg in Habs. discriminate.
  - split; [discriminate |]. intros (Hall & _ & _).
    pose proof (proj2 (getFilteredMedications_Some d defs _)
                  (conj Hall eq_refl)) as Habs.
    rewrite Hf in Habs. discriminate.
Qed.

Lemma displayedSlots_In l t :
  In t (displayedSlots (plainGroups l))
  <-> exists med, In med l /\ time med = t.
Proof.
  unfold displayedSlots. rewrite sort_In, ObjectKeys_In.
  pose proof (getProp_None (plainGroups l) t) as Hn.
  rewrite plainGroups_getProp in Hn.
  split.
  - intros Hin. destruct (List.filter (inSlot t) l) as [| med meds] eqn:Hf.
    + exfalso. now apply Hn.
    + exists med. assert (Hm : In med (List.filter (inSlot t) l))
        by (rewrite Hf; now left).
      apply filter_In in Hm as [Hm Ht]. split; [exact Hm |].
      now apply String.eqb_eq in Ht.
  - intros (med & Hm & Ht).
    destruct (List.filter (inSlot t) l) as [| med' meds] eqn:Hf.
    + assert (Hin : In med (List.filter (inSlot t) l)).
      { apply filter_In. split; [exact Hm |]. unfold inSlot.
        now apply String.eqb_eq. }
      rewrite Hf in Hin. destruct Hin.
    + destruct (in_dec string_dec t (map fst (plainGroups l)))
        as [Hin | Hnin]; [exact Hin |].
      apply Hn in Hnin. discriminate.
Qed.

(** In a resolution a definition stands under a heading exactly when it is
    in the definition list and the filter callback accepts it; the heading
    is that of its slot. *)
Lemma shownIn_iff defs d r med :
  resolve defs d = Some r ->
  (shownIn r med <-> In med defs /\ included d med = true).
Proof.
  intros Hr. apply resolve_Some in Hr as (_ & _ & ->). unfold shownIn. split.
  - intros (slot & meds & Hin & Hmed).
    apply in_map_iff in Hin as (t & Heq & _). injection Heq as <- <-.
    apply filter_In in Hmed as [Hmed _]. now apply filter_In in Hmed.
  - intros [Hin Hinc].
    assert (Hf : In med (List.filter (included d) defs))
      by (apply filter_In; now split).
    exists (time med), (List.filter (inSlot (time med))
                          (List.filter (included d) defs)). split.
    + apply in_map_iff. exists (time med). split; [reflexivity |].
      apply displayedSlots_In. now exists med.
    + apply filter_In. split; [exact Hf |]. unfold inSlot.
      apply String.eqb_refl.
Qed.

Lemma shownIn_slot defs d r med :
  resolve defs d = Some r -> shownIn r med ->
  exists meds, In (time med, meds) r /\ In med meds.
Proof.
  intros Hr Hs. pose proof (proj1 (shownIn_iff defs d r med Hr) Hs) as [Hin Hinc].
  apply resolve_Some in Hr as (_ & _ & ->).
  assert (Hf : In med (List.filter (included d) defs))
    by (apply filter_In; now split).
  eexists. split.
  - apply in_map_iff. exists (time med). split; [reflexivity |].
    apply displayedSlots_In. now exists med.
  - apply filter_In. split; [exact Hf |]. apply String.eqb_refl.
Qed.

Lemma scheduledOn_shownIn defs d med :
  scheduledOn defs d med <-> exists r, resolve defs d = Some r /\ shownIn r med.
Proof.
  unfold scheduledOn, shownIn. split.
  - intros (r & slot & meds & Hr & H1 & H2). exists r. split; [exact Hr |].
    now exists slot, meds.
  - intros (r & Hr & slot & meds & H1 & H2). now exists r, slot, meds.
Qed.

(** *** The frequency rules *)

Lemma copyDate_id d : copyDate d = d.
Proof. now destruct d. Qed.

Lemma included_Diario d med : frequency med = "Diario" -> included d med = true.
Proof. intros Hf. unfold included, filterCallback. now rewrite Hf. Qed.

Lemma included_weekdays d med :
  frequency med = "Martes, Jueves, Sábados" ->
  included d med = (getDay d =? 2) || (getDay d =? 4) || (getDay d =? 6).
Proof. intros Hf. unfold included, filterCallback. now rewrite Hf. Qed.


Lemma included_asNeeded d med :
  frequency med = "Según necesidad" -> included d med = false.
Proof. intros Hf. unfold included, filterCallback. now rewrite Hf. Qed.

Lemma included_default d med :
  frequency med <> "Diario" ->
  frequency med <> "Martes, Jueves, Sábados" ->
  frequency med <> "Último Martes del Mes" ->
  frequency med <> "Según necesidad" ->
  included d med = true.
Proof.
  intros H1 H2 H3 H4. unfold included, filterCallback.
  apply String.eqb_neq in H1, H2, H3, H4. now rewrite H1, H2, H3, H4.
Qed.

(** *** When the render produces a resolution *)

(** The function returns for a month all of whose days lie inside the
    range of [Date], in a civil zone: years 0..99 included, for which the
    month looked at is that of the year 1900 later. *)
Lemma getLastTuesdayOfMonth_returns y m :
  Civil ->
  let yr := if (0 <=? y) && (y <=? 99) then 1900 + y else y in
  Z.abs (MakeDay yr (m + 1) 0) <= lastDay - 8 ->
  exists last lastTuesday,
    newDate y (m + 1) 0 = Some last /\
    Day (localTime last) = MakeDay yr (m + 1) 0 /\
    getLastTuesdayOfMonth y m = Some lastTuesday /\
    Day (localTime lastTuesday) = Day (localTime last) - stepsToTuesday last.
Proof.
  intros Hc yr Hr.
  destruct (newDate_returns y (m + 1) 0 Hc) as (last & Hlast & HD);
    [fold yr; lia |].
  fold yr in HD.
  pose proof (stepsToTuesday_range last) as Hk.
  destruct (whileNotTuesday_exits loopFuel last Hc) as (lt & Hlt & HDlt);
    [rewrite HD; lia | unfold loopFuel; lia |].
  exists last, lt. split; [exact Hlast |]. split; [exact HD |].
  split; [| exact HDlt].
  unfold getLastTuesdayOfMonth. rewrite Hlast, copyDate_id. exact Hlt.
Qed.

Lemma DayFromYear_abs y : Z.abs (DayFromYear y) <= 366 * Z.abs (y - 1970) + 2.
Proof. pose proof (DayFromYear_bounds y). lia. Qed.

(** The filter callback returns for every definition when the date is well
    inside the range of [Date] and the zone is civil. *)
Lemma filterCallback_returns d med :
  Civil -> wellInside d -> filterCallback d med <> None.
Proof.
  intros Hc Hw.
  destruct (String.eqb_spec (frequency med) "Último Martes del Mes")
    as [Hf | Hf]; [| now apply filterCallback_not_monthly].
  assert (Hm : 0 <= getMonth d <= 11) by apply MonthFromDay_range.
  set (y := getFullYear d). set (m := getMonth d). fold m in Hm.
  destruct (getLastTuesdayOfMonth_returns y m Hc) as (last & lt & _ & _ & Hlt & _).
  { cbv zeta. rewrite MakeDay_last by exact Hm.
    destruct ((0 <=? y) && (y <=? 99)) eqn:Hy.
    - apply andb_true_iff in Hy as [Hy0 Hy9].
      apply Z.leb_le in Hy0, Hy9.
      pose proof (daysInMonth_range (1900 + y) m Hm) as Hl.
      pose proof (DayFromYear_abs (1900 + y)) as Hb.
      unfold MakeDay. rewrite (Z.div_small m), (Z.mod_small m) by lia.
      replace (1900 + y + 0) with (1900 + y) by lia.
      pose proof (monthStart_range
                    (if isLeapYear (1900 + y) then 1 else 0) m) as Hs.
      assert (Hleap : 0 <= (if isLeapYear (1900 + y) then 1 else 0) <= 1)
        by (destruct (isLeapYear (1900 + y)); lia).
      specialize (Hs Hleap ltac:(lia)).
      assert (Hl' := Hl). unfold daysInMonth in Hl'. cbv zeta in Hl'.
      unfold lastDay. lia.
    - pose proof (last_day_near d) as Hnear. cbv zeta in Hnear.
      fold y m in Hnear. unfold wellInside in Hw. lia. }
  unfold filterCallback. cbv zeta. fold y m. rewrite Hlt.
  repeat match goal with
         | |- context [String.eqb ?a ?b] => destruct (String.eqb a b)
         end; discriminate.
Qed.

(** In a civil zone, on a date well inside the range of [Date], the render
    produces the resolution of a definition list none of whose slots names
    a member of [Object.prototype]. *)
Lemma resolve_returns defs d :
  Civil -> wellInside d -> plainSlots defs ->
  exists r, resolve defs d = Some r.
Proof.
  intros Hc Hw Hp. eexists. apply resolve_Some.
  split; [| split; [| reflexivity]].
  - apply Forall_forall. intros med _. now apply filterCallback_returns.
  - unfold plainSlots in *. rewrite Forall_forall in *.
    intros med Hin. apply Hp.
    apply list_elem_of_In in Hin. apply list_elem_of_In.
    now apply filter_In in Hin as [Hin _].
Qed.

(** C5 - In a civil time zone, on a date well inside the range of [Date],
    the render produces the resolution of a definition list none of whose
    slots names a member of [Object.prototype].  In every resolution the
    render produces, a definition whose frequency is none of the four
    recognised values stands under the heading of its slot (the [default]
    branch of the switch), and a definition whose frequency is exactly
    "Según necesidad" stands under no heading. *)
Theorem unrecognised_frequency_is_daily
    (defs : list Med) (d : Date) (med : Med) :
  In med defs ->
  (Civil -> wellInside d -> plainSlots defs ->
   exists r, resolve defs d = Some r) /\
  (forall r : list (string * list Med),
      resolve defs d = Some r ->
      (frequency med <> "Diario" ->
       frequency med <> "Martes, Jueves, Sábados" ->
       frequency med <> "Último Martes del Mes" ->
       frequency med <> "Según necesidad" ->
       exists meds, In (time med, meds) r /\ In med meds) /\
      (frequency med = "Según necesidad" -> ~ shownIn r med)).
Proof.
  intros Hin. split; [apply resolve_returns |]. intros r Hr. split.
  - intros H1 H2 H3 H4. apply (shownIn_slot defs d r med Hr).
    apply (shownIn_iff defs d r med Hr). split; [exact Hin |].
    now apply included_default.
  - intros Hf Hs. apply (shownIn_iff defs d r med Hr) in Hs as [_ Hs].
    rewrite included_asNeeded in Hs by exact Hf. discriminate.
Qed.

Lemma weekdays_in_a_week g :
  0 <= g < 7 ->
  length (List.filter
            (fun k => let x := (g + Z.of_nat k) mod 7 in
                      (x =? 2) || (x =? 4) || (x =? 6))
            (seq 0 7)) = 3%nat.
Proof.
  intros Hg.
  assert (Hc : g = 0 \/ g = 1 \/ g = 2 \/ g = 3 \/ g = 4 \/ g = 5 \/ g = 6)
    by lia.
  repeat (destruct Hc as [-> | Hc]); try subst g; reflexivity.
Qed.

(** C6 - In a civil time zone, on a date well inside the range of [Date],
    the render produces the resolution of a definition list none of whose
    slots names a member of [Object.prototype].  In every resolution the
    render produces, a definition with frequency "Martes, Jueves, Sábados"
    stands exactly when the date's day of the week is Tuesday (2),
    Thursday (4) or Saturday (6).  Of seven dates on seven consecutive
    local calendar days, each with its resolution, exactly three show the
    definition: the list [shown] holds the positions 0..6 of those three
    and nothing else. *)
Theorem weekday_rule (defs : list Med) (med : Med) :
  In med defs ->
  frequency med = "Martes, Jueves, Sábados" ->
  (forall d : Date,
      Civil -> wellInside d -> plainSlots defs ->
      exists r, resolve defs d = Some r) /\
  (forall (d : Date) (r : list (string * list Med)),
      resolve defs d = Some r ->
      (shownIn r med <-> getDay d = 2 \/ getDay d = 4 \/ getDay d = 6)) /\
  (forall (week : nat -> Date) (rs : nat -> list (string * list Med)),
      (forall k : nat,
          (k < 7)%nat ->
          Day (localTime (week k)) = Day (localTime (week 0%nat)) + Z.of_nat k) ->
      (forall k : nat, (k < 7)%nat -> resolve defs (week k) = Some (rs k)) ->
      exists shown : list nat,
        List.NoDup shown /\ length shown = 3%nat /\
        forall k : nat, In k shown <-> (k < 7)%nat /\ shownIn (rs k) med).
Proof.
  intros Hin Hf.
  assert (Hrule : forall d r, resolve defs d = Some r ->
                    (shownIn r med <->
                     (getDay d =? 2) || (getDay d =? 4) || (getDay d =? 6) = true)).
  { intros d r Hr. rewrite (shownIn_iff defs d r med Hr).
    rewrite included_weekdays by exact Hf. tauto. }
  split; [intros d; apply resolve_returns |].
  split.
  - intros d r Hr. rewrite (Hrule d r Hr).
    rewrite !orb_true_iff, !Z.eqb_eq. tauto.
  - intros week rs Hweek Hrs.
    set (f := fun k : nat =>
                let x := (getDay (week 0%nat) + Z.of_nat k) mod 7 in
                (x =? 2) || (x =? 4) || (x =? 6)).
    exists (List.filter f (seq 0 7)).
    split; [apply List.NoDup_filter, List.seq_NoDup |].
    split; [apply weekdays_in_a_week, getDay_range |].
    intros k. rewrite filter_In, in_seq. split.
    + intros [Hk Hfk]. assert (Hk7 : (k < 7)%nat) by lia.
      split; [exact Hk7 |]. apply (Hrule _ _ (Hrs k Hk7)).
      rewrite (getDay_Day (week 0%nat) (week k) (Z.of_nat k) (Hweek k Hk7)).
      exact Hfk.
    + intros [Hk7 Hs]. split; [lia |].
      apply (Hrule _ _ (Hrs k Hk7)) in Hs.
      rewrite (getDay_Day (week 0%nat) (week k) (Z.of_nat k) (Hweek k Hk7)) in Hs.
      exact Hs.
Qed.


(** In every resolution the render produces, a slot that is not in the
    priority list stands before every slot that is. *)
Lemma unlisted_before_listed defs d r (i j : nat) (a b : string) :
  resolve defs d = Some r ->
  map fst r !! i = Some a -> map fst r !! j = Some b ->
  ~ listed a -> listed b -> (i < j)%nat.
Proof.
  intros Hr Hi Hj Ha Hb.
  apply resolve_Some in Hr as (_ & _ & ->).
  rewrite map_map in Hi, Hj. simpl in Hi, Hj. rewrite map_id in Hi, Hj.
  apply indexOf_unlisted in Ha. apply indexOf_listed in Hb.
  pose proof (sort_sorted compareSlots (indexOf order) compareSlots_rank
                (ObjectKeys (plainGroups (List.filter (included d) defs)))) as Hs.
  fold (displayedSlots (plainGroups (List.filter (included d) defs))) in Hs.
  destruct (Nat.lt_trichotomy i j) as [Hlt | [-> | Hgt]]; [exact Hlt | |].
  - rewrite Hi in Hj. injection Hj as ->. lia.
  - pose proof (sorted_lookup (indexOf order) _ _ _ _ _ Hs Hj Hi Hgt). lia.
Qed.


(** *** The document id of a day *)

Lemma to_int_proper z :
  Z.to_int z <> Decimal.Pos Decimal.Nil /\ Z.to_int z <> Decimal.Neg Decimal.Nil.
Proof.
  destruct z as [| p | p]; cbn; split; try discriminate;
    intros Heq; injection Heq as Heq;
    now apply DecimalPos.Unsigned.to_uint_nonnil in Heq.
Qed.

Lemma String_of_inj a b : String_of a = String_of b -> a = b.
Proof.
  unfold String_of. intros Heq. apply DecimalZ.to_int_inj.
  destruct (to_int_proper a) as [Ha1 Ha2], (to_int_proper b) as [Hb1 Hb2].
  pose proof (NilZero.isi _ Ha1 Ha2) as Ia.
  pose proof (NilZero.isi _ Hb1 Hb2) as Ib.
  rewrite Heq in Ia. rewrite Ia in Ib. now injection Ib.
Qed.

(** The id is the year, a dash, the month (1..12) as two digits, a dash,
    the day of the month as two digits. *)
Lemma formatDateForFirestore_shape d :
  exists month day : string,
    formatDateForFirestore d
    = String_of (getFullYear d) +:+ "-" +:+ month +:+ "-" +:+ day /\
    String.length month = 2%nat /\ String.length day = 2%nat /\
    decimalValue month = Some (getMonth d + 1) /\
    decimalValue day = Some (getDate d).
Proof.
  pose proof (MonthFromDay_range (Day (localTime d))) as Hm.
  fold (getMonth d) in Hm. pose proof (getDate_range d) as Hd.
  exists (padStart (String_of (getMonth d + 1)) 2 "0"),
         (padStart (String_of (getDate d)) 2 "0").
  split; [unfold formatDateForFirestore; now rewrite copyDate_id |].
  rewrite !padStart2_length by lia.
  rewrite !decimalValue_padStart, !decimalValue_String_of by lia.
  repeat split.
Qed.

(** Two dates have the same id exactly when they fall on the same local
    calendar day. *)
Lemma formatDateForFirestore_sameDay d1 d2 :
  formatDateForFirestore d1 = formatDateForFirestore d2 <-> sameDay d1 d2.
Proof.
  split.
  - intros Heq. apply sameDay_components.
    destruct (formatDateForFirestore_shape d1)
      as (m1 & a1 & E1 & Lm1 & La1 & Vm1 & Va1).
    destruct (formatDateForFirestore_shape d2)
      as (m2 & a2 & E2 & Lm2 & La2 & Vm2 & Va2).
    rewrite E1, E2 in Heq.
    apply append_inj_length_r in Heq;
      [| rewrite !length_append; cbn; lia].
    destruct Heq as [Hy Heq]. apply String_of_inj in Hy.
    apply append_char_inj in Heq.
    apply append_inj_length in Heq; [| lia]. destruct Heq as [Hm Heq].
    apply append_char_inj in Heq. subst m2 a2.
    rewrite Vm1 in Vm2. rewrite Va1 in Va2.
    injection Vm2 as Hm. injection Va2 as Ha.
    repeat split; [exact Hy | lia | exact Ha].
  - unfold sameDay, formatDateForFirestore, copyDate, getFullYear, getMonth,
      getDate. cbn. now intros ->.
Qed.

(** *** Further properties of the resolution *)

(** In every resolution the render produces, a definition with frequency
    "Diario" stands under the heading of its slot; and the render produces
    the resolution, in a civil time zone and on a date well inside the
    range of [Date], when no slot of the definitions names a member of
    [Object.prototype]. *)
Theorem daily_rule (defs : list Med) (d : Date) (med : Med) :
  In med defs -> frequency med = "Diario" ->
  (Civil -> wellInside d -> plainSlots defs ->
   exists r, resolve defs d = Some r) /\
  (forall r : list (string * list Med),
      resolve defs d = Some r ->
      exists meds, In (time med, meds) r /\ In med meds).
Proof.
  intros Hin Hf. split; [apply resolve_returns |]. intros r Hr.
  apply (shownIn_slot defs d r med Hr).
  apply (shownIn_iff defs d r med Hr). split; [exact Hin |].
  now apply included_Diario.
Qed.

Lemma filter_sublist {A : Type} (f : A -> bool) (l : list A) :
  List.filter f l `sublist_of` l.
Proof.
  induction l as [| x l IH]; simpl; [constructor |].
  destruct (f x); now constructor.
Qed.

(** When [getFilteredMedications] returns, the result is the definition
    list with entries left out (nothing added, nothing reordered), and an
    entry stays exactly when the switch on its frequency answers true.  It
    returns whenever no definition is monthly, and, in a civil zone, for
    every definition list on a date well inside the range of [Date]. *)
Theorem getFilteredMedications_sublist (d : Date) (defs : list Med) :
  (forall shown : list Med,
      getFilteredMedications d defs = Some shown ->
      shown `sublist_of` defs /\
      forall med : Med,
        In med shown <-> In med defs /\ filterCallback d med = Some true) /\
  ((forall med, In med defs -> frequency med <> "Último Martes del Mes") ->
   exists shown, getFilteredMedications d defs = Some shown) /\
  (Civil -> wellInside d ->
   exists shown, getFilteredMedications d defs = Some shown).
Proof.
  split; [| split].
  - intros shown Hs. apply getFilteredMedications_Some in Hs as [_ ->].
    split; [apply filter_sublist |].
    intros med. now rewrite filter_In, included_true.
  - intros Hall. eexists. apply getFilteredMedications_Some.
    split; [| reflexivity]. apply Forall_forall. intros med Hin.
    apply filterCallback_not_monthly, Hall. now apply list_elem_of_In.
  - intros Hc Hw. eexists. apply getFilteredMedications_Some.
    split; [| reflexivity]. apply Forall_forall. intros med _.
    now apply filterCallback_returns.
Qed.

(** In a civil zone and for a month all of whose days lie inside the range
    of [Date], the loop exits within seven tests, whatever fuel is given
    beyond them, on a Tuesday at most six days before the day
    [new Date(year, month + 1, 0)] it starts from.  When that day is an
    Invalid Date the loop does not exit. *)
Theorem getLastTuesdayOfMonth_terminates (year month : Z) :
  (Civil ->
   let yr := if (0 <=? year) && (year <=? 99) then 1900 + year else year in
   Z.abs (MakeDay yr (month + 1) 0) <= lastDay - 8 ->
   exists last lastTuesday : Date,
     newDate year (month + 1) 0 = Some last /\
     Day (localTime last) = MakeDay yr (month + 1) 0 /\
     getLastTuesdayOfMonth year month = Some lastTuesday /\
     (forall fuel : nat,
         (7 <= fuel)%nat ->
         whileNotTuesday fuel (copyDate last) = Some lastTuesday) /\
     getDay lastTuesday = 2 /\
     0 <= Day (localTime last) - Day (localTime lastTuesday) <= 6) /\
  (newDate year (month + 1) 0 = None ->
   getLastTuesdayOfMonth year month = None).
Proof.
  split.
  - intros Hc yr Hr.
    destruct (getLastTuesdayOfMonth_returns year month Hc Hr)
      as (last & lt & Hlast & HD & Hlt & HDlt).
    pose proof (stepsToTuesday_range last) as Hk.
    exists last, lt. split; [exact Hlast |]. split; [exact HD |].
    split; [exact Hlt |]. split; [| split].
    + intros fuel Hf. unfold getLastTuesdayOfMonth in Hlt.
      rewrite Hlast in Hlt.
      apply (whileNotTuesday_more loopFuel fuel _ _ Hlt). unfold loopFuel. lia.
    + apply stepsToTuesday_0.
      rewrite (stepsToTuesday_Day last lt (- stepsToTuesday last))
        by (rewrite HDlt; lia).
      replace (stepsToTuesday last + - stepsToTuesday last) with 0 by lia.
      reflexivity.
    + rewrite HDlt. lia.
  - intros Hn. unfold getLastTuesdayOfMonth. now rewrite Hn.
Qed.

(** *** The slot headings *)

Lemma fold_insertIndex_Permutation l : fold_right insertIndex [] l ≡ₚ l.
Proof.
  induction l as [| x l IH]; [reflexivity |]. cbn [fold_right].
  transitivity (x :: fold_right insertIndex [] l); [| now rewrite IH].
  generalize (fold_right insertIndex [] l). intros k.
  induction k as [| y k IHk]; cbn; [reflexivity |].
  destruct (fst x <=? fst y); [reflexivity |].
  rewrite IHk. apply Permutation_swap.
Qed.

Lemma keys_partition {V : Type} (o : JSObject V) :
  map snd (omap (fun kv : string * V =>
                   match arrayIndex (fst kv) with
                   | Some n => Some (n, fst kv)
                   | None => None
                   end) o)
  ++ filter (fun k => arrayIndex k = None) (map fst o) ≡ₚ map fst o.
Proof.
  induction o as [| [k v] o IH]; [reflexivity |].
  change (map fst ((k, v) :: o)) with (k :: map fst o).
  rewrite filter_cons.
  change (omap ?f ((k, v) :: o))
    with (match f (k, v) with Some y => y :: omap f o | None => omap f o end).
  cbn beta. change (fst (k, v)) with k.
  destruct (arrayIndex k) as [n |] eqn:Hk.
  - rewrite decide_False by discriminate. apply perm_skip. exact IH.
  - rewrite decide_True by reflexivity.
    rewrite <- Permutation_middle. apply perm_skip. exact IH.
Qed.

(** [Object.keys] is a rearrangement of the keys of the object. *)
Lemma ObjectKeys_Permutation {V : Type} (o : JSObject V) :
  ObjectKeys o ≡ₚ map fst o.
Proof.
  unfold ObjectKeys, indexKeys.
  rewrite fold_insertIndex_Permutation. apply keys_partition.
Qed.

Lemma setProp_keys {V : Type} (o : JSObject V) k v :
  map fst (setProp o k v)
  = match getProp o k with
    | Some _ => map fst o
    | None => map fst o ++ [k]
    end.
Proof.
  induction o as [| [k0 v0] o IH]; [reflexivity |]. cbn.
  destruct (String.eqb k0 k); [reflexivity |]. cbn. rewrite IH.
  now destruct (getProp o k).
Qed.

Lemma setProp_NoDup {V : Type} (o : JSObject V) k v :
  NoDup (map fst o) -> NoDup (map fst (setProp o k v)).
Proof.
  intros Hnd. rewrite setProp_keys.
  destruct (getProp o k) eqn:Hk; [exact Hnd |].
  apply NoDup_app. split; [exact Hnd |]. split; [| apply NoDup_singleton].
  intros x Hx Hk'. apply list_elem_of_singleton in Hk'. subst x.
  apply getProp_None in Hk. apply Hk. now apply list_elem_of_In.
Qed.

Lemma plainGroups_NoDup l : NoDup (map fst (plainGroups l)).
Proof.
  unfold plainGroups.
  assert (Hgen : forall acc, NoDup (map fst acc) ->
                             NoDup (map fst (fold_left plainReducer l acc))).
  { induction l as [| med l IH]; intros acc Hacc; [exact Hacc |].
    cbn. apply IH. unfold plainReducer.
    destruct (getProp acc (time med)) eqn:Hg.
    - rewrite Hg. now apply setProp_NoDup.
    - rewrite getProp_setProp, String.eqb_refl.
      now do 2 apply setProp_NoDup. }
  apply Hgen. constructor.
Qed.

Lemma displayedSlots_NoDup l : NoDup (displayedSlots (plainGroups l)).
Proof.
  unfold displayedSlots.
  rewrite sort_Permutation, ObjectKeys_Permutation.
  apply plainGroups_NoDup.
Qed.

(** Whenever the render produces the resolution: its headings are
    distinct and none names a member of [Object.prototype]; under a heading
    stand exactly the shown definitions of that slot, at least one, in the
    order of the definition list; and every shown definition stands under
    the heading of its own slot. *)
Theorem resolve_groups_by_slot
    (defs : list Med) (d : Date) (r : list (string * list Med)) :
  resolve defs d = Some r ->
  exists shown : list Med,
    getFilteredMedications d defs = Some shown /\
    NoDup (map fst r) /\
    (forall slot meds,
        In (slot, meds) r ->
        inherited slot = false /\
        meds <> [] /\
        meds = List.filter (fun med => String.eqb (time med) slot) shown) /\
    (forall med, In med shown -> exists meds, In (time med, meds) r /\ In med meds).
Proof.
  intros Hr. apply resolve_Some in Hr as (Hall & Hplain & ->).
  set (shown := List.filter (included d) defs) in *.
  exists shown.
  split; [apply getFilteredMedications_Some; now split |].
  split; [| split].
  - rewrite map_map. cbn [fst]. rewrite map_id. apply displayedSlots_NoDup.
  - intros slot meds Hin. apply in_map_iff in Hin as (t & Heq & Ht).
    injection Heq as <- <-.
    apply displayedSlots_In in Ht as (med & Hm & Htime).
    split; [| split; [| reflexivity]].
    + unfold plainSlots in Hplain. rewrite Forall_forall in Hplain.
      rewrite <- Htime. apply Hplain. now apply list_elem_of_In.
    + intros Hnil.
      assert (Hmed : In med (List.filter (inSlot t) shown)).
      { apply filter_In. split; [exact Hm |]. unfold inSlot.
        now apply String.eqb_eq. }
      assert (Hx : In med []) by (rewrite <- Hnil; exact Hmed).
      destruct Hx.
  - intros med Hm. eexists. split.
    + apply in_map_iff. exists (time med). split; [reflexivity |].
      apply displayedSlots_In. now exists med.
    + apply filter_In. split; [exact Hm |]. apply String.eqb_refl.
Qed.

(** When the render produces the resolution and when it does not.  In a
    civil zone, on a date well inside the range of [Date], it does when no
    definition has a slot named like a member of [Object.prototype].  It
    does not, on any date in any zone, when a definition that the filter
    accepts has such a slot: the grouping throws. *)
Theorem resolve_returns_or_throws (defs : list Med) (d : Date) :
  (Civil -> wellInside d -> plainSlots defs ->
   exists r, resolve defs d = Some r) /\
  (forall med,
      In med defs -> filterCallback d med = Some true ->
      inherited (time med) = true ->
      resolve defs d = None).
Proof.
  split; [apply resolve_returns |].
  intros med Hin Hf Hi.
  destruct (resolve defs d) as [r |] eqn:Hr; [exfalso | reflexivity].
  apply resolve_Some in Hr as (_ & Hp & _).
  unfold plainSlots in Hp. rewrite Forall_forall in Hp.
  assert (Hs : In med (List.filter (included d) defs)).
  { apply filter_In. split; [exact Hin |]. now apply included_true. }
  apply list_elem_of_In, Hp in Hs. congruence.
Qed.

(** The slots of a list in the order they are first seen; [seen] are the
    slots met before. *)
Fixpoint firstSeen (seen : list string) (l : list string) : list string :=
  match l with
  | [] => []
  | t :: r =>
      if existsb (String.eqb t) seen then firstSeen seen r
      else t :: firstSeen (seen ++ [t]) r
  end.

Lemma existsb_keys {V : Type} (o : JSObject V) t :
  existsb (String.eqb t) (map fst o)
  = match getProp o t with Some _ => true | None => false end.
Proof.
  induction o as [| [k v] o IH]; [reflexivity |]. cbn.
  rewrite (String.eqb_sym t k). destruct (String.eqb k t); [reflexivity |].
  exact IH.
Qed.

Lemma plainReducer_keys acc med :
  map fst (plainReducer acc med)
  = match getProp acc (time med) with
    | Some _ => map fst acc
    | None => map fst acc ++ [time med]
    end.
Proof.
  unfold plainReducer. destruct (getProp acc (time med)) eqn:Hg.
  - now rewrite Hg, setProp_keys, Hg.
  - rewrite getProp_setProp, String.eqb_refl, setProp_keys.
    rewrite getProp_setProp, String.eqb_refl, setProp_keys. now rewrite Hg.
Qed.

(** The properties of the grouping are created in the order in which the
    slots are first met in the list grouped. *)
Lemma plainGroups_keys l :
  map fst (plainGroups l) = firstSeen [] (map time l).
Proof.
  unfold plainGroups.
  assert (Hgen : forall acc,
             map fst (fold_left plainReducer l acc)
             = map fst acc ++ firstSeen (map fst acc) (map time l)).
  { induction l as [| med l IH]; intros acc; cbn [fold_left map firstSeen].
    - now rewrite app_nil_r.
    - rewrite IH, plainReducer_keys, existsb_keys.
      destruct (getProp acc (time med)); [reflexivity |].
      now rewrite <- app_assoc. }
  apply (Hgen []).
Qed.

Lemma filter_filter {A : Type} (f g : A -> bool) (l : list A) :
  List.filter f (List.filter g l) = List.filter (fun x => f x && g x) l.
Proof.
  induction l as [| x l IH]; [reflexivity |]. cbn.
  destruct (g x); cbn; rewrite ?andb_true_r, ?andb_false_r;
    [destruct (f x) |]; now rewrite IH.
Qed.

Lemma filter_comm {A : Type} (f g : A -> bool) (l : list A) :
  List.filter f (List.filter g l) = List.filter g (List.filter f l).
Proof.
  rewrite !filter_filter. apply filter_ext. intros x. apply andb_comm.
Qed.

(** A slot name that [Object.keys] does not treat as an array index. *)
Definition plainKey (t : string) : bool :=
  match arrayIndex t with Some _ => false | None => true end.

Lemma ObjectKeys_plain {V : Type} (o : JSObject V) :
  List.filter plainKey (ObjectKeys o) = List.filter plainKey (map fst o).
Proof.
  unfold ObjectKeys. rewrite List.filter_app.
  assert (Hidx : List.filter plainKey (map snd (indexKeys o)) = []).
  { assert (Hall : forall p, In p (indexKeys o) -> plainKey (snd p) = false).
    { intros [n k] Hin. apply indexKeys_In in Hin as [_ Hk].
      unfold plainKey. cbn. now rewrite Hk. }
    induction (indexKeys o) as [| p l IH]; [reflexivity |]. cbn.
    rewrite (Hall p) by now left. apply IH. intros q Hq. apply Hall.
    now right. }
  rewrite Hidx. cbn.
  induction (map fst o) as [| k ks IH]; [reflexivity |].
  rewrite filter_cons. cbn [List.filter].
  assert (Hp : plainKey k
               = match arrayIndex k with Some _ => false | None => true end)
    by reflexivity.
  destruct (arrayIndex k) eqn:Hk.
  - rewrite decide_False by discriminate. rewrite Hp. exact IH.
  - rewrite decide_True by reflexivity. cbn [List.filter]. rewrite Hp.
    now rewrite IH.
Qed.

(** Whenever the render produces the resolution: among the slots of the
    priority list the headings follow the list.  The slots outside the list
    keep among themselves the order in which the shown definitions first
    mention them, unless the slot name is the decimal form of an array
    index: [Object.keys] moves those ahead. *)
Theorem listed_slots_follow_priority
    (defs : list Med) (d : Date) (r : list (string * list Med)) :
  resolve defs d = Some r ->
  exists shown : list Med,
    getFilteredMedications d defs = Some shown /\
    (forall (i j : nat) (a b : string),
        map fst r !! i = Some a -> map fst r !! j = Some b ->
        In a order -> In b order ->
        indexOf order a < indexOf order b -> (i < j)%nat) /\
    List.filter (fun t => plainKey t && (indexOf order t =? -1)) (map fst r)
    = List.filter (fun t => plainKey t && (indexOf order t =? -1))
        (firstSeen [] (map time shown)).
Proof.
  intros Hr. apply resolve_Some in Hr as (Hall & Hplain & ->).
  exists (List.filter (included d) defs).
  split; [apply getFilteredMedications_Some; now split |].
  rewrite map_map. cbn [fst]. rewrite map_id.
  set (g := plainGroups (List.filter (included d) defs)).
  split.
  - intros i j a b Hi Hj Ha Hb Hlt.
    pose proof (sort_sorted compareSlots (indexOf order) compareSlots_rank
                  (ObjectKeys g)) as Hs.
    fold (displayedSlots g) in Hs.
    destruct (Nat.lt_trichotomy i j) as [Hij | [-> | Hgt]]; [exact Hij | |].
    + rewrite Hi in Hj. injection Hj as ->. lia.
    + pose proof (sorted_lookup (indexOf order) _ _ _ _ _ Hs Hj Hi Hgt). lia.
  - rewrite <- !(filter_filter plainKey (fun t => indexOf order t =? -1)).
    unfold displayedSlots.
    rewrite (sort_stable compareSlots (indexOf order) compareSlots_rank).
    rewrite (filter_comm plainKey _ (ObjectKeys g)), ObjectKeys_plain.
    rewrite (filter_comm plainKey _ (firstSeen _ _)).
    unfold g. now rewrite plainGroups_keys.
Qed.

End Zoned.

(** *** The theorems at concrete inputs *)

(** C1 - The slot headings are sorted by [order.indexOf], and [indexOf]
    answers -1 for a slot that is not in the priority list: in every
    resolution such a slot stands before every slot of the list, not after.
    With the default medications the heading shown first is "Según
    necesidad", ahead of "Ayunas". *)
Theorem unlisted_slot_is_displayed_first :
  (forall (tz : TimeZone) (defs : list Med) (d : Date) r (i j : nat)
          (a b : string),
      resolve defs d = Some r ->
      map fst r !! i = Some a -> map fst r !! j = Some b ->
      ~ listed a -> listed b -> (i < j)%nat) /\
  option_map (map fst)
    (resolve (tz := buenosAires) defaultMedications (localMidnight 2024 2 5))
  = Some [ "Según necesidad"; "Ayunas"; "Mañana Post desayuno";
           "Antes de Comer 13hs"; "Tarde 18hs"; "Noche" ] /\
  ~ listed "Según necesidad".
Proof.
  split; [| split].
  - intros tz defs d r i j a b. apply unlisted_before_listed.
  - vm_compute. reflexivity.
  - apply indexOf_unlisted. reflexivity.
Qed.

Ltac in_list := simpl; repeat (first [left; reflexivity | right]).

(** 5 March 2024 in Buenos Aires, a Tuesday. *)
Definition march5 : Date := localMidnight 2024 2 5.

Lemma march5_wellInside : wellInside march5.
Proof. unfold wellInside. vm_compute. discriminate. Qed.

Lemma defaultMedications_plainSlots : plainSlots defaultMedications.
Proof. unfold plainSlots. repeat constructor. Qed.

Lemma unrecognised_frequency_is_daily_witness :
  exists r,
    resolve (tz := buenosAires) defaultMedications march5 = Some r /\
    exists meds,
      In ("Según necesidad", meds) r /\
      In (mkMed "miopropan" "Mipropan" EmptyString "Según necesidad"
                "En caso de diarrea") meds.
Proof.
  destruct (unrecognised_frequency_is_daily (tz := buenosAires)
              defaultMedications march5
              (mkMed "miopropan" "Mipropan" EmptyString "Según necesidad"
                     "En caso de diarrea"))
    as [Hreturns Hrule]; [in_list |].
  destruct (Hreturns buenosAires_Civil march5_wellInside
              defaultMedications_plainSlots) as [r Hr].
  exists r. split; [exact Hr |].
  apply (Hrule r Hr); discriminate.
Defined.

(** The week from 5 March 2024 and its resolutions. *)
Definition demoWeek (k : nat) : Date := localMidnight 2024 2 (5 + Z.of_nat k).

Definition demoResolutions (k : nat) : list (string * list Med) :=
  default [] (resolve (tz := buenosAires) defaultMedications (demoWeek k)).

Lemma weekday_rule_witness :
  exists shown : list nat,
    List.NoDup shown /\ length shown = 3%nat /\
    forall k : nat,
      In k shown <->
      (k < 7)%nat /\
      shownIn (demoResolutions k)
        (mkMed "b12" "B12" "3 veces x semana sublingual" "Antes de Comer 13hs"
               "Martes, Jueves, Sábados").
Proof.
  refine (proj2 (proj2 (weekday_rule (tz := buenosAires) defaultMedications
                   (mkMed "b12" "B12" "3 veces x semana sublingual"
                          "Antes de Comer 13hs" "Martes, Jueves, Sábados")
                   _ eq_refl)) demoWeek demoResolutions _ _).
  - in_list.
  - intros k Hk.
    assert (Hc : (k = 0 \/ k = 1 \/ k = 2 \/ k = 3 \/ k = 4 \/ k = 5 \/ k = 6)%nat)
      by lia.
    repeat (destruct Hc as [-> | Hc]); try subst k; vm_compute; reflexivity.
  - intros k Hk.
    assert (Hc : (k = 0 \/ k = 1 \/ k = 2 \/ k = 3 \/ k = 4 \/ k = 5 \/ k = 6)%nat)
      by lia.
    repeat (destruct Hc as [-> | Hc]); try subst k; vm_compute; reflexivity.
Defined.


Lemma daily_rule_witness :
  exists r meds,
    resolve (tz := buenosAires) defaultMedications march5 = Some r /\
    In ("Ayunas", meds) r /\
    In (mkMed "t4" "T4" EmptyString "Ayunas" "Diario") meds.
Proof.
  destruct (daily_rule (tz := buenosAires) defaultMedications march5
              (mkMed "t4" "T4" EmptyString "Ayunas" "Diario"))
    as [Hreturns Hrule]; [in_list | reflexivity |].
  destruct (Hreturns buenosAires_Civil march5_wellInside
              defaultMedications_plainSlots) as [r Hr].
  destruct (Hrule r Hr) as (meds & H1 & H2).
  exists r, meds. split; [exact Hr |]. split; assumption.
Defined.

Lemma resolve_groups_witness :
  exists r,
    resolve (tz := buenosAires) defaultMedications march5 = Some r /\
    NoDup (map fst r).
Proof.
  destruct (resolve (tz := buenosAires) defaultMedications march5)
    as [r |] eqn:Hr; [| vm_compute in Hr; discriminate].
  destruct (resolve_groups_by_slot (tz := buenosAires) defaultMedications
              march5 r Hr) as (shown & _ & Hnd & _).
  exists r. split; [reflexivity | exact Hnd].
Defined.

Lemma listed_slots_witness :
  exists r shown,
    resolve (tz := buenosAires) defaultMedications march5 = Some r /\
    getFilteredMedications (tz := buenosAires) march5 defaultMedications
    = Some shown.
Proof.
  destruct (resolve (tz := buenosAires) defaultMedications march5)
    as [r |] eqn:Hr; [| vm_compute in Hr; discriminate].
  destruct (listed_slots_follow_priority (tz := buenosAires) defaultMedications
              march5 r Hr) as (shown & Hs & _).
  exists r, shown. split; [reflexivity | exact Hs].
Defined.

End ScheduleFacts.

(* ===================================================================== *)
(** ** The JSON implementation meets its interface                        *)
(* ===================================================================== *)

Module JsonFacts.
Import JSDateFacts Json Sync.

#[local] Arguments String.append !s1 s2 : simpl nomatch.

Lemma append_assoc (a b c : string) : (a +:+ b) +:+ c = a +:+ (b +:+ c).
Proof. induction a as [| x a IH]; simpl; [reflexivity | now rewrite IH]. Qed.

Lemma append_nil_r (a : string) : a +:+ EmptyString = a.
Proof. induction a as [| x a IH]; simpl; [reflexivity | now rewrite IH]. Qed.

(** *** String literals *)

Lemma parseStringBody_escapeChar c t :
  parseStringBody (escapeChar c +:+ t) = consFst c (parseStringBody t).
Proof.
  destruct c as [[] [] [] [] [] [] [] []]; reflexivity.
Qed.

Lemma parseStringBody_escape s rest :
  parseStringBody (escape s +:+ String dquote rest) = Some (s, rest).
Proof.
  induction s as [| c s IH]; [reflexivity |].
  cbn [escape]. rewrite append_assoc, parseStringBody_escapeChar, IH.
  reflexivity.
Qed.

Lemma parseString_quoteString s rest :
  parseString (quoteString s +:+ rest) = Some (s, rest).
Proof.
  unfold quoteString. cbn [String.append parseString].
  rewrite Ascii.eqb_refl, append_assoc. apply parseStringBody_escape.
Qed.

Lemma parseBool_printBool b rest :
  parseBool (printBool b +:+ rest) = Some (b, rest).
Proof. destruct b; reflexivity. Qed.

(** *** Sequences *)

Section Items.
Context {A : Type} (print : A -> string) (parse : string -> option (A * string)).
Hypothesis parse_print :
  forall x rest, parse (print x +:+ rest) = Some (x, rest).
Variable close : ascii.
Hypothesis close_not_comma : close <> ","%char.

Lemma parseItems_printItems l rest fuel :
  l <> [] -> (length l <= fuel)%nat ->
  parseItems parse close fuel (printItems print l +:+ String close rest)
  = Some (l, rest).
Proof.
  revert fuel. induction l as [| x l IH]; intros fuel Hne Hfuel;
    [congruence |].
  destruct fuel as [| fuel]; [simpl in Hfuel; lia |].
  destruct l as [| y l].
  - cbn [printItems parseItems]. rewrite parse_print.
    destruct (Ascii.eqb_spec close ","); [congruence |].
    now rewrite Ascii.eqb_refl.
  - cbn [printItems parseItems] in *.
    rewrite !append_assoc, parse_print.
    cbn [String.append]. rewrite Ascii.eqb_refl.
    rewrite IH; [reflexivity | discriminate | simpl in *; lia].
Qed.

Hypothesis print_nonempty : forall x, print x <> EmptyString.

Lemma printItems_length l :
  l <> [] -> (length l <= String.length (printItems print l))%nat.
Proof.
  induction l as [| x l IH]; intros Hne; [congruence |].
  pose proof (print_nonempty x) as Hx.
  assert (1 <= String.length (print x))%nat
    by (destruct (print x); [congruence | simpl; lia]).
  destruct l as [| y l].
  - simpl. lia.
  - cbn [printItems]. rewrite !length_append.
    specialize (IH ltac:(discriminate)). simpl in *. lia.
Qed.

Lemma parseSequence_printSequence (open : ascii) l :
  parseSequence parse open close (printSequence print open close l) = Some l.
Proof.
  unfold printSequence, parseSequence. rewrite Ascii.eqb_refl.
  destruct l as [| x l].
  - cbn [printItems String.append]. now rewrite Ascii.eqb_refl.
  - set (items := printItems print (x :: l)).
    assert (Hlen : (length (x :: l) <= String.length items)%nat)
      by (apply printItems_length; discriminate).
    assert (Hp : parseItems parse close
                   (String.length (items +:+ String close EmptyString))
                   (items +:+ String close EmptyString)
                 = Some (x :: l, EmptyString)).
    { apply parseItems_printItems; [discriminate |].
      rewrite length_append. lia. }
    destruct (items +:+ String close EmptyString) as [| c1 [| c2 r]] eqn:Hs.
    + simpl in Hp. discriminate.
    + apply (f_equal String.length) in Hs. rewrite length_append in Hs.
      simpl in Hs, Hlen. lia.
    + now rewrite Hp.
Qed.

End Items.

Lemma parseMember_printMember {A : Type} (print : A -> string)
    (parse : string -> option (A * string)) :
  (forall x rest, parse (print x +:+ rest) = Some (x, rest)) ->
  forall k v rest,
    parseMember parse (printMember print k v +:+ rest) = Some ((k, v), rest).
Proof.
  intros Hp k v rest. unfold parseMember, printMember.
  rewrite !append_assoc, parseString_quoteString.
  cbn [String.append]. now rewrite Ascii.eqb_refl, Hp.
Qed.

Lemma parseField_printMember {A : Type} (print : A -> string)
    (parse : string -> option (A * string)) :
  (forall x rest, parse (print x +:+ rest) = Some (x, rest)) ->
  forall k v rest,
    parseField parse k (printMember print k v +:+ rest) = Some (v, rest).
Proof.
  intros Hp k v rest. unfold parseField.
  now rewrite (parseMember_printMember print parse Hp), String.eqb_refl.
Qed.

(** *** The object of check marks *)

Lemma parseStatus_stringifyStatus (m : gmap string bool) :
  parseStatus (stringifyStatus m) = Some m.
Proof.
  unfold parseStatus, stringifyStatus.
  rewrite (parseSequence_printSequence
             (fun kv : string * bool => printMember printBool (fst kv) (snd kv))
             (parseMember parseBool)).
  - f_equal. symmetry. apply list_to_map_flip.
    now rewrite reverse_Permutation.
  - intros [k v] rest. apply (parseMember_printMember printBool parseBool).
    apply parseBool_printBool.
  - discriminate.
  - intros [k v]. unfold printMember, quoteString. discriminate.
Qed.

Lemma stringifyStatus_nonempty (m : gmap string bool) :
  stringifyStatus m <> EmptyString.
Proof. unfold stringifyStatus, printSequence. discriminate. Qed.

Lemma expect_append p rest : expect p (p +:+ rest) = Some rest.
Proof.
  induction p as [| c p IH]; [reflexivity |].
  cbn [String.append expect]. now rewrite Ascii.eqb_refl.
Qed.

(** *** Notes and readings *)

Lemma parseNote_printNote n rest :
  parseNote (printNote n +:+ rest) = Some (n, rest).
Proof.
  destruct n as [t a ts]. unfold parseNote, printNote. cbn [text author timestamp].
  rewrite !append_assoc.
  rewrite expect_append. cbn [mbind option_bind].
  rewrite (parseField_printMember quoteString parseString parseString_quoteString).
  cbn [mbind option_bind]. rewrite expect_append. cbn [mbind option_bind].
  rewrite (parseField_printMember quoteString parseString parseString_quoteString).
  cbn [mbind option_bind]. rewrite expect_append. cbn [mbind option_bind].
  rewrite (parseField_printMember quoteString parseString parseString_quoteString).
  cbn [mbind option_bind]. rewrite expect_append. reflexivity.
Qed.

Lemma parseReading_printReading r rest :
  parseReading (printReading r +:+ rest) = Some (r, rest).
Proof.
  destruct r as [sy di a ts]. unfold parseReading, printReading.
  cbn [systolic diastolic readingAuthor readingTimestamp].
  rewrite !append_assoc.
  rewrite expect_append. cbn [mbind option_bind].
  rewrite (parseField_printMember quoteString parseString parseString_quoteString).
  cbn [mbind option_bind]. rewrite expect_append. cbn [mbind option_bind].
  rewrite (parseField_printMember quoteString parseString parseString_quoteString).
  cbn [mbind option_bind]. rewrite expect_append. cbn [mbind option_bind].
  rewrite (parseField_printMember quoteString parseString parseString_quoteString).
  cbn [mbind option_bind]. rewrite expect_append. cbn [mbind option_bind].
  rewrite (parseField_printMember quoteString parseString parseString_quoteString).
  cbn [mbind option_bind]. rewrite expect_append. reflexivity.
Qed.

Lemma parseNotes_stringifyNotes l : parseNotes (stringifyNotes l) = Some l.
Proof.
  apply (parseSequence_printSequence printNote parseNote).
  - apply parseNote_printNote.
  - discriminate.
  - intros n. unfold printNote. discriminate.
Qed.

Lemma parseReadings_stringifyReadings l :
  parseReadings (stringifyReadings l) = Some l.
Proof.
  apply (parseSequence_printSequence printReading parseReading).
  - apply parseReading_printReading.
  - discriminate.
  - intros r. unfold printReading. discriminate.
Qed.

(** *** The implementation meets the interface *)

#[export] Instance statusJSON : JSON (gmap string bool) := {|
  JSON_stringify := stringifyStatus;
  JSON_parse := parseStatus;
  JSON_parse_stringify := parseStatus_stringifyStatus;
  JSON_stringify_nonempty := stringifyStatus_nonempty
|}.

Lemma stringifyNotes_nonempty l : stringifyNotes l <> EmptyString.
Proof. unfold stringifyNotes, printSequence. discriminate. Qed.

Lemma stringifyReadings_nonempty l : stringifyReadings l <> EmptyString.
Proof. unfold stringifyReadings, printSequence. discriminate. Qed.

#[export] Instance notesJSON : JSON (list Note) := {|
  JSON_stringify := stringifyNotes;
  JSON_parse := parseNotes;
  JSON_parse_stringify := parseNotes_stringifyNotes;
  JSON_stringify_nonempty := stringifyNotes_nonempty
|}.

#[export] Instance readingsJSON : JSON (list Reading) := {|
  JSON_stringify := stringifyReadings;
  JSON_parse := parseReadings;
  JSON_parse_stringify := parseReadings_stringifyReadings;
  JSON_stringify_nonempty := stringifyReadings_nonempty
|}.

#[export] Instance statusJSONObject : JSONObject (gmap string bool).
Proof. reflexivity. Qed.

#[export] Instance notesJSONArray : JSONArray Note.
Proof. reflexivity. Qed.

#[export] Instance readingsJSONArray : JSONArray Reading.
Proof. reflexivity. Qed.

Example stringify_status_example :
  JSON_stringify ({[ "id1" := true ]} : gmap string bool)
  = String "{" (String dquote ("id1" +:+ String dquote ":true}")).
Proof. vm_compute. reflexivity. Qed.

Example parse_note_example :
  JSON_parse (JSON_stringify [mkNote "a" "b" "c"]) = Some [mkNote "a" "b" "c"].
Proof. vm_compute. reflexivity. Qed.

End JsonFacts.

(* ===================================================================== *)
(** ** Facts about the component                                           *)
(* ===================================================================== *)

Module SyncFacts.
Import JSDate JSDateFacts Schedule ScheduleFacts Json Sync JsonFacts.


Section SyncFacts.

Variable appId : string.
Context `{JSON (gmap string bool)} `{JSON (list Note)} `{JSON (list Reading)}.
Context {tz : TimeZone}.

(** *** What the handlers leave alone *)

(** The parts of the world a date switch and the listeners depend on. *)
Definition sameSubscription (w w' : World) : Prop :=
  currentDate (app w') = currentDate (app w) /\
  isAuthReady (app w') = isAuthReady (app w) /\
  listeners w' = listeners w /\
  effectCleanup w' = effectCleanup w /\
  nextListener w' = nextListener w.

Lemma sameSubscription_refl w : sameSubscription w w.
Proof. repeat split. Qed.

Lemma updateDailyRecord_sameSubscription {V : Type} `{JSON V}
    (field : string) (value : V) ok w :
  sameSubscription w (fst (updateDailyRecord appId field value ok w)).
Proof.
  unfold updateDailyRecord, setDocMerge.
  destruct (isAuthReady (app w)), ok; repeat split.
Qed.

Lemma onNext_sameSubscription docSnap w :
  sameSubscription w (fst (onNext docSnap w)).
Proof.
  unfold onNext. destruct docSnap as [data |]; [| repeat split].
  repeat match goal with
         | |- context [match JSON_parse ?s with _ => _ end] =>
             destruct (JSON_parse s)
         end; repeat split.
Qed.

Lemma handler_sameSubscription w e :
  match e with
  | ToggleMedication _ _ | AddNote _ _ _ | AddBloodPressure _ _ _ _
  | ChangeUserName _ | Snapshot _ | SnapshotError _ | RemoteWrite _ _ => True
  | _ => False
  end ->
  sameSubscription w (step appId w e).
Proof.
  destruct e; intros []; cbn [step].
  - unfold handleToggleMedication.
    destruct (updateDailyRecord_sameSubscription "medicationStatus"
                (toggled (medicationStatus (app w)) medId) ok
                (withApp (setMedicationStatus
                            (toggled (medicationStatus (app w)) medId)) w))
      as (? & ? & ? & ? & ?).
    repeat split; assumption.
  - unfold handleAddNote.
    destruct (_ && _); [| destruct (String.eqb _ _); repeat split].
    match goal with
    | |- context [updateDailyRecord _ ?f ?v ?o ?w0] =>
        destruct (updateDailyRecord_sameSubscription f v o w0)
          as (? & ? & ? & ? & ?)
    end.
    repeat split; assumption.
  - unfold handleAddBloodPressure.
    destruct (_ && _); [| destruct (String.eqb _ _); repeat split].
    match goal with
    | |- context [updateDailyRecord _ ?f ?v ?o ?w0] =>
        destruct (updateDailyRecord_sameSubscription f v o w0)
          as (? & ? & ? & ? & ?)
    end.
    repeat split; assumption.
  - repeat split.
  - unfold deliver. destruct (listenerRef lid w); [| repeat split].
    apply onNext_sameSubscription.
  - unfold deliverError. destruct (listenerRef lid w); repeat split.
  - repeat split.
Qed.

(** *** The two callbacks of effect 1, with the effect run that follows *)

Lemma onUser_eq w :
  onUser appId w
  = if isAuthReady (app w)
    then consoleLog "Firebase Auth Ready. User:" w
    else rerunEffect4 appId
           (withApp (setIsAuthReady true)
              (consoleLog "Firebase Auth Ready. User:" w)).
Proof.
  unfold onUser, commitUser. cbn. destruct (isAuthReady (app w)); reflexivity.
Qed.

Lemma onSignInError_eq w :
  onSignInError appId w
  = let w' :=
      withApp (setLoading false)
        (withApp (setIsAuthReady false)
           (consoleError "Error signing in anonymously:" w)) in
    if isAuthReady (app w) then rerunEffect4 appId w' else w'.
Proof.
  unfold onSignInError, commitSignInError. cbn.
  destruct (isAuthReady (app w)); reflexivity.
Qed.

(** *** The listener invariant *)

(** At most one snapshot listener is registered, the one whose
    [unsubscribe] React holds as the cleanup of effect 4, and it listens to
    the document of the current date. *)
Definition listening (w : World) : Prop :=
  match effectCleanup w with
  | Some lid =>
      listeners w = [(lid, dailyRecordDocRef appId (currentDate (app w)))] /\
      isAuthReady (app w) = true
  | None => listeners w = []
  end.

(** Listener ids are handed out in increasing order. *)
Definition idsBelowNext (w : World) : Prop :=
  Forall (fun l => (fst l < nextListener w)%nat) (listeners w).

(** No listener of [w] has an id below [n]. *)
Definition idsFrom (n : nat) (w : World) : Prop :=
  (n <= nextListener w)%nat /\
  Forall (fun l => (n <= fst l)%nat) (listeners w).

Lemma rerunEffect4_listening w :
  listening w \/ (effectCleanup w = None /\ listeners w = []) ->
  listening (rerunEffect4 appId w).
Proof.
  intros Hw. unfold rerunEffect4, cleanupEffect4, effect4, listening in *.
  destruct (effectCleanup w) as [lid |] eqn:Hc.
  - destruct Hw as [[Hl _] | [Habs _]]; [| discriminate].
    cbn. rewrite Hl. cbn. rewrite Nat.eqb_refl. cbn.
    destruct (isAuthReady (app w)) eqn:Hr; cbn; rewrite ?Hr; [| reflexivity].
    split; reflexivity.
  - assert (Hl : listeners w = []) by (destruct Hw as [Hl | [_ Hl]]; exact Hl).
    destruct (isAuthReady (app w)) eqn:Hr; cbn; rewrite ?Hr; cbn.
    + rewrite Hl. split; reflexivity.
    + exact Hl.
Qed.

Lemma listening_sameSubscription w w' :
  sameSubscription w w' -> listening w -> listening w'.
Proof.
  intros (Hd & Hr & Hl & Hc & _). unfold listening.
  now rewrite Hd, Hr, Hl, Hc.
Qed.

Lemma withApp_setCurrentDate_listening d w :
  listening w ->
  let w' := withApp (setCurrentDateCell d) w in
  (exists lid ref, effectCleanup w' = Some lid /\ listeners w' = [(lid, ref)])
  \/ (effectCleanup w' = None /\ listeners w' = []).
Proof.
  unfold listening. cbn. destruct (effectCleanup w) as [lid |].
  - intros [Hl _]. left. eauto.
  - intros Hl. now right.
Qed.

Lemma rerunEffect4_one_listener w lid ref :
  effectCleanup w = Some lid -> listeners w = [(lid, ref)] ->
  listening (rerunEffect4 appId w).
Proof.
  intros Hc Hl. unfold rerunEffect4, cleanupEffect4, effect4, listening.
  rewrite Hc. cbn. rewrite Hl. cbn. rewrite Nat.eqb_refl. cbn.
  destruct (isAuthReady (app w)) eqn:Hr; cbn; rewrite ?Hr; [split |];
    reflexivity.
Qed.

Lemma setCurrentDate_listening d w :
  listening w -> listening (setCurrentDate appId d w).
Proof.
  intros Hw. unfold setCurrentDate.
  destruct (withApp_setCurrentDate_listening d w Hw)
    as [(lid & ref & Hc & Hl) | Hnone].
  - eapply rerunEffect4_one_listener; eassumption.
  - apply rerunEffect4_listening. now right.
Qed.

Lemma step_listening w e : listening w -> listening (step appId w e).
Proof.
  intros Hw.
  destruct e;
    try (eapply listening_sameSubscription;
         [apply handler_sameSubscription; exact I | exact Hw]);
    cbn [step].
  - (* AuthUser *)
    rewrite onUser_eq. cbn.
    destruct (isAuthReady (app w)) eqn:Hr.
    + unfold listening in *. cbn. exact Hw.
    + apply rerunEffect4_listening. right.
      unfold listening in Hw. cbn.
      destruct (effectCleanup w); [destruct Hw; congruence | now split].
  - (* SignInError *)
    rewrite onSignInError_eq. cbn.
    destruct (isAuthReady (app w)) eqn:Hr.
    + unfold listening in Hw.
      destruct (effectCleanup w) as [lid |] eqn:Hc.
      * destruct Hw as [Hl _].
        eapply rerunEffect4_one_listener; cbn; eassumption.
      * apply rerunEffect4_listening. right. now split.
    + unfold listening in *. cbn.
      destruct (effectCleanup w); [destruct Hw; congruence | exact Hw].
  - unfold goToPreviousDay. cbv zeta.
    destruct (setDate _ _); [apply setCurrentDate_listening, Hw | exact Hw].
  - unfold goToNextDay. cbv zeta.
    destruct (setDate _ _); [apply setCurrentDate_listening, Hw | exact Hw].
  - apply setCurrentDate_listening, Hw.
Qed.

Lemma run_listening w events : listening w -> listening (run appId w events).
Proof.
  revert w. induction events as [| e events IH]; intros w Hw; [exact Hw |].
  apply IH, step_listening, Hw.
Qed.

Lemma mounted_listening now store : listening (mounted now store).
Proof. reflexivity. Qed.

(** *** Listener ids *)

Lemma Forall_filter_keep {A : Type} (P : A -> Prop) (f : A -> bool) l :
  Forall P l -> Forall P (List.filter f l).
Proof.
  induction 1 as [| x l Hx Hl IH]; simpl; [constructor |].
  destruct (f x); [constructor; assumption | assumption].
Qed.

Lemma rerunEffect4_ids w n :
  idsFrom n w /\ idsBelowNext w ->
  idsFrom n (rerunEffect4 appId w) /\ idsBelowNext (rerunEffect4 appId w).
Proof.
  unfold idsFrom, idsBelowNext, rerunEffect4, cleanupEffect4, effect4.
  intros [[Hn Hall] Hbelow].
  destruct (effectCleanup w) as [lid |]; cbn;
    destruct (isAuthReady (app w)); cbn;
    repeat split;
    repeat first
      [ lia
      | assumption
      | apply Forall_app; split
      | apply Forall_filter_keep
      | apply Forall_cons; split; [cbn; lia |]
      | apply Forall_nil_2
      | (eapply Forall_impl; [eassumption | cbn; intros; lia]) ].
Qed.

Lemma ids_sameSubscription n w w' :
  sameSubscription w w' ->
  idsFrom n w /\ idsBelowNext w -> idsFrom n w' /\ idsBelowNext w'.
Proof.
  intros (_ & _ & Hl & _ & Hn). unfold idsFrom, idsBelowNext.
  now rewrite Hl, Hn.
Qed.

Lemma step_ids n w e :
  idsFrom n w /\ idsBelowNext w ->
  idsFrom n (step appId w e) /\ idsBelowNext (step appId w e).
Proof.
  intros Hw.
  destruct e;
    try (eapply ids_sameSubscription;
         [apply handler_sameSubscription; exact I | exact Hw]);
    cbn [step].
  - rewrite onUser_eq. cbn. destruct (isAuthReady (app w)).
    + exact Hw.
    + apply rerunEffect4_ids. exact Hw.
  - rewrite onSignInError_eq. cbn. destruct (isAuthReady (app w)).
    + apply rerunEffect4_ids. exact Hw.
    + exact Hw.
  - unfold goToPreviousDay. cbv zeta.
    destruct (setDate _ _); [apply rerunEffect4_ids |]; exact Hw.
  - unfold goToNextDay. cbv zeta.
    destruct (setDate _ _); [apply rerunEffect4_ids |]; exact Hw.
  - apply rerunEffect4_ids. exact Hw.
Qed.

Lemma run_ids n w events :
  idsFrom n w /\ idsBelowNext w ->
  idsFrom n (run appId w events) /\ idsBelowNext (run appId w events).
Proof.
  revert w. induction events as [| e events IH]; intros w Hw; [exact Hw |].
  apply IH, step_ids, Hw.
Qed.

Lemma listenerRef_None lid w :
  ~ In lid (map fst (listeners w)) -> listenerRef lid w = None.
Proof.
  intros Hn. unfold listenerRef.
  destruct (List.find _ (listeners w)) as [[l r] |] eqn:Hf; [| reflexivity].
  apply find_some in Hf as [Hin Heq]. cbn in Heq.
  apply Nat.eqb_eq in Heq. subst l. exfalso. apply Hn.
  apply in_map_iff. now exists (lid, r).
Qed.


(** *** Commits and passive effects *)

Lemma rerunEffect4_app w : app (rerunEffect4 appId w) = app w.
Proof.
  unfold rerunEffect4, cleanupEffect4, effect4.
  destruct (effectCleanup w); cbn; destruct (isAuthReady (app w)); reflexivity.
Qed.

Lemma rerunEffect4_docs w : docs (rerunEffect4 appId w) = docs w.
Proof.
  unfold rerunEffect4, cleanupEffect4, effect4.
  destruct (effectCleanup w); cbn; destruct (isAuthReady (app w)); reflexivity.
Qed.

Lemma rerunEffect4_cleanup w :
  effectCleanup (rerunEffect4 appId w)
  = if isAuthReady (app w) then Some (nextListener w) else None.
Proof.
  unfold rerunEffect4, cleanupEffect4, effect4.
  destruct (effectCleanup w); cbn; destruct (isAuthReady (app w)); reflexivity.
Qed.

(** [step] is the commit of the event followed at once by the run of
    effect 4, when it has become due. *)
Lemma step_commitStep w e :
  step appId w e
  = if snd (commitStep appId w e)
    then rerunEffect4 appId (fst (commitStep appId w e))
    else fst (commitStep appId w e).
Proof.
  destruct e; cbn [step commitStep fst snd]; try reflexivity.
  - unfold onUser. now destruct (commitUser w) as [w' [|]].
  - unfold goToPreviousDay. cbv zeta. now destruct (setDate _ _).
  - unfold goToNextDay. cbv zeta. now destruct (setDate _ _).
Qed.

(** A history of the settled page: every event is followed at once by the
    passive effects. *)
Definition settled (events : list Event) : list Tick :=
  concat (map (fun e => [Act e; PassiveEffects]) events).

Lemma tick_settled w e :
  tick appId (tick appId (mkPage w false) (Act e)) PassiveEffects
  = mkPage (step appId w e) false.
Proof.
  rewrite step_commitStep. cbn [tick world effect4Due].
  destruct (commitStep appId w e) as [w' [|]]; reflexivity.
Qed.

Lemma run_ticks w events :
  ticks appId (mkPage w false) (settled events)
  = mkPage (run appId w events) false.
Proof.
  revert w. induction events as [| e events IH]; intros w; [reflexivity |].
  unfold settled, ticks, run in *. cbn [map concat].
  rewrite fold_left_app. cbn [fold_left].
  rewrite tick_settled. apply IH.
Qed.

(** A commit leaves the listeners alone. *)
Lemma commitStep_listeners w e :
  let w' := fst (commitStep appId w e) in
  listeners w' = listeners w /\ effectCleanup w' = effectCleanup w /\
  nextListener w' = nextListener w.
Proof.
  cbv zeta.
  assert (Hhandler : forall e0,
             match e0 with
             | ToggleMedication _ _ | AddNote _ _ _ | AddBloodPressure _ _ _ _
             | ChangeUserName _ | Snapshot _ | SnapshotError _
             | RemoteWrite _ _ => True
             | _ => False
             end ->
             listeners (step appId w e0) = listeners w /\
             effectCleanup (step appId w e0) = effectCleanup w /\
             nextListener (step appId w e0) = nextListener w).
  { intros e0 He0.
    destruct (handler_sameSubscription w e0 He0) as (_ & _ & Hl & Hc & Hn).
    now repeat split. }
  destruct e as [| | | | d | medId ok | noteText now ok | sys dia now ok | newName | lid | lid | ref data];
    cbn [commitStep fst].
  - unfold commitUser. cbn. destruct (isAuthReady (app w)); repeat split.
  - repeat split.
  - cbv zeta. destruct (setDate _ _); repeat split.
  - cbv zeta. destruct (setDate _ _); repeat split.
  - repeat split.
  - exact (Hhandler (ToggleMedication medId ok) I).
  - exact (Hhandler (AddNote noteText now ok) I).
  - exact (Hhandler (AddBloodPressure sys dia now ok) I).
  - exact (Hhandler (ChangeUserName newName) I).
  - exact (Hhandler (Snapshot lid) I).
  - exact (Hhandler (SnapshotError lid) I).
  - exact (Hhandler (RemoteWrite ref data) I).
Qed.

(** A commit after which effect 4 is not due has changed neither
    [currentDate] nor [isAuthReady]. *)
Lemma commitStep_same w e :
  snd (commitStep appId w e) = false ->
  sameSubscription w (fst (commitStep appId w e)).
Proof.
  destruct e as [| | | | d | medId ok | noteText now ok | sys dia now ok | newName | lid | lid | ref data];
    cbn [commitStep fst snd].
  - unfold commitUser. cbn. destruct (isAuthReady (app w)) eqn:Hr;
      [intros _; repeat split; cbn; congruence | discriminate].
  - unfold commitSignInError. cbn. intros Hr. repeat split. cbn. congruence.
  - cbv zeta. destruct (setDate _ _); [discriminate | intros _; repeat split].
  - cbv zeta. destruct (setDate _ _); [discriminate | intros _; repeat split].
  - discriminate.
  - intros _. exact (handler_sameSubscription w (ToggleMedication medId ok) I).
  - intros _. exact (handler_sameSubscription w (AddNote noteText now ok) I).
  - intros _.
    exact (handler_sameSubscription w (AddBloodPressure sys dia now ok) I).
  - intros _. exact (handler_sameSubscription w (ChangeUserName newName) I).
  - intros _. exact (handler_sameSubscription w (Snapshot lid) I).
  - intros _. exact (handler_sameSubscription w (SnapshotError lid) I).
  - intros _. exact (handler_sameSubscription w (RemoteWrite ref data) I).
Qed.

(** At most one listener is registered, the one whose [unsubscribe] React
    holds as the cleanup of effect 4. *)
Definition tracked (w : World) : Prop :=
  match effectCleanup w with
  | Some lid => exists ref, listeners w = [(lid, ref)]
  | None => listeners w = []
  end.

(** While signed in the component holds a cleanup. *)
Definition subscribed (w : World) : Prop :=
  isAuthReady (app w) = true -> effectCleanup w <> None.

Lemma listening_tracked w : listening w -> tracked w.
Proof.
  unfold listening, tracked. destruct (effectCleanup w); [| tauto].
  intros [Hl _]. eauto.
Qed.

Lemma rerunEffect4_tracked w :
  tracked w ->
  listening (rerunEffect4 appId w) /\ subscribed (rerunEffect4 appId w).
Proof.
  intros Ht. split.
  - unfold tracked in Ht. destruct (effectCleanup w) as [lid |] eqn:Hc.
    + destruct Ht as [ref Hl]. eapply rerunEffect4_one_listener; eassumption.
    + apply rerunEffect4_listening. right. now split.
  - unfold subscribed. rewrite rerunEffect4_app, rerunEffect4_cleanup.
    intros ->. discriminate.
Qed.

(** What holds of every page a history reaches: the listener is tracked,
    listener ids are below the next one, and when no run of effect 4 is due
    the listener is that of the current date, and there is one when signed
    in. *)
Definition pageInv (p : Page) : Prop :=
  tracked (world p) /\ idsBelowNext (world p) /\
  (effect4Due p = false -> listening (world p) /\ subscribed (world p)).

Lemma tick_pageInv p t : pageInv p -> pageInv (tick appId p t).
Proof.
  intros (Ht & Hb & Hs). destruct t as [e |]; cbn [tick].
  - destruct (commitStep_listeners (world p) e) as (Hl & Hc & Hn).
    pose proof (commitStep_same (world p) e) as Hsame.
    destruct (commitStep appId (world p) e) as [w' due]. cbn [fst snd] in *.
    split; [| split]; cbn [world effect4Due].
    + unfold tracked. now rewrite Hc, Hl.
    + unfold idsBelowNext. now rewrite Hl, Hn.
    + intros Hdue. apply orb_false_iff in Hdue as [Hp ->].
      destruct (Hs Hp) as [Hlis Hsub]. specialize (Hsame eq_refl). split.
      * eapply listening_sameSubscription; eassumption.
      * destruct Hsame as (_ & Hr & _ & Hc' & _). unfold subscribed.
        now rewrite Hr, Hc'.
  - destruct (effect4Due p) eqn:Hdue;
      [| split; [exact Ht | split; [exact Hb | intros _; now apply Hs]]].
    destruct (rerunEffect4_tracked (world p) Ht) as [Hlis Hsub].
    split; [| split]; cbn [world effect4Due].
    + now apply listening_tracked.
    + apply (rerunEffect4_ids (world p) 0). split; [| exact Hb].
      split; [lia |]. apply Forall_forall. intros; lia.
    + intros _. now split.
Qed.

Lemma ticks_pageInv p history : pageInv p -> pageInv (ticks appId p history).
Proof.
  revert p. induction history as [| t history IH]; intros p Hp; [exact Hp |].
  apply IH, tick_pageInv, Hp.
Qed.

Lemma mountedPage_pageInv now store : pageInv (mountedPage now store).
Proof.
  split; [reflexivity |]. split; [constructor |].
  intros _. split; [reflexivity |]. unfold subscribed. cbn. discriminate.
Qed.

(** Once the passive effects have run after [n] listener ids were handed
    out, no listener with an id below [n] is registered any more. *)
Definition freshFrom (n : nat) (p : Page) : Prop :=
  tracked (world p) /\ (n <= nextListener (world p))%nat /\
  (effect4Due p = true \/
   Forall (fun l => (n <= fst l)%nat) (listeners (world p))).

Lemma tick_freshFrom n p t : freshFrom n p -> freshFrom n (tick appId p t).
Proof.
  intros (Ht & Hn & Hd). destruct t as [e |]; cbn [tick].
  - destruct (commitStep_listeners (world p) e) as (Hl & Hc & Hnext).
    destruct (commitStep appId (world p) e) as [w' due]. cbn [fst snd] in *.
    split; [| split]; cbn [world effect4Due].
    + unfold tracked. now rewrite Hc, Hl.
    + now rewrite Hnext.
    + destruct Hd as [-> | Hall]; [now left | right; now rewrite Hl].
  - destruct (effect4Due p) eqn:Hdue.
    + destruct (rerunEffect4_tracked (world p) Ht) as [Hlis _].
      pose proof (rerunEffect4_cleanup (world p)) as Hc.
      assert (Hnext : (nextListener (world p)
                       <= nextListener (rerunEffect4 appId (world p)))%nat).
      { unfold rerunEffect4, cleanupEffect4, effect4.
        destruct (effectCleanup (world p)); cbn;
          destruct (isAuthReady (app (world p))); cbn; lia. }
      split; [| split]; cbn [world effect4Due].
      * now apply listening_tracked.
      * lia.
      * right. unfold listening in Hlis. rewrite Hc in Hlis.
        destruct (isAuthReady (app (world p))).
        -- destruct Hlis as [-> _]. repeat constructor. cbn. lia.
        -- rewrite Hlis. constructor.
    + split; [exact Ht |]. split; [exact Hn |].
      destruct Hd as [Habs | Hall]; [congruence | now right].
Qed.

Lemma ticks_freshFrom n p history :
  freshFrom n p -> freshFrom n (ticks appId p history).
Proof.
  revert p. induction history as [| t history IH]; intros p Hp; [exact Hp |].
  apply IH, tick_freshFrom, Hp.
Qed.

Lemma freshFrom_not_In n p lid :
  freshFrom n p -> effect4Due p = false -> (lid < n)%nat ->
  ~ In lid (map fst (listeners (world p))).
Proof.
  intros (_ & _ & [Habs | Hall]) Hdue Hlt Hin; [congruence |].
  apply in_map_iff in Hin as ([l r] & Heq & Hlr). cbn in Heq. subst l.
  rewrite Forall_forall in Hall. apply list_elem_of_In in Hlr.
  specialize (Hall _ Hlr). cbn in Hall. lia.
Qed.


Lemma tick_ids n p t :
  idsFrom n (world p) /\ idsBelowNext (world p) ->
  idsFrom n (world (tick appId p t)) /\ idsBelowNext (world (tick appId p t)).
Proof.
  intros Hp. destruct t as [e |]; cbn [tick].
  - destruct (commitStep_listeners (world p) e) as (Hl & _ & Hn).
    destruct (commitStep appId (world p) e) as [w' due]. cbn [fst snd world] in *.
    unfold idsFrom, idsBelowNext in *. now rewrite Hl, Hn.
  - destruct (effect4Due p); [| exact Hp]. cbn [world].
    now apply rerunEffect4_ids.
Qed.

Lemma ticks_ids n p history :
  idsFrom n (world p) /\ idsBelowNext (world p) ->
  idsFrom n (world (ticks appId p history))
  /\ idsBelowNext (world (ticks appId p history)).
Proof.
  revert p. induction history as [| t history IH]; intros p Hp; [exact Hp |].
  apply IH, tick_ids, Hp.
Qed.

(** The three cells of the daily record are the same in two pages. *)
Definition sameRecord (p p' : Page) : Prop :=
  medicationStatus (app (world p')) = medicationStatus (app (world p)) /\
  notes (app (world p')) = notes (app (world p)) /\
  bloodPressure (app (world p')) = bloodPressure (app (world p)).

(** The claim as the spec words it: once the date has been switched to
    [d2], whatever follows, a snapshot of a listener that was registered
    before the switch changes none of the three cells while [d2] is the
    current date. *)
Definition staleSnapshotNeverApplied (p1 : Page) (d2 : Date) : Prop :=
  forall (lid : nat) (ref : string) (after : list Tick),
    In (lid, ref) (listeners (world p1)) ->
    let p := ticks appId (tick appId p1 (Act (SetCurrentDate d2))) after in
    currentDate (app (world p)) = d2 ->
    sameRecord p (tick appId p (Act (Snapshot lid))).

(** C2 - Let the page, after any history, hold a snapshot listener [lid].
    When the date is switched to [d2] the render commits first: [d2] is the
    current date, effect 4 is due and the listener is still registered.
    When React then runs the passive effects, at once or after anything
    else has happened, the cleanup closes the listener, and whatever
    happens afterwards it is never registered again: the Firestore client
    delivers nothing to it, so a snapshot or an error of that subscription
    changes nothing in the page, [medicationStatus], [notes] and
    [bloodPressure] included.  On a page with no effect due, the listener
    registered listens to the document of the date then current. *)
Theorem stale_subscription_is_never_applied
    (now : Date) (store : gmap string Doc) (before mid after : list Tick)
    (d2 : Date) (lid : nat) (ref : string) :
  let p1 := ticks appId (mountedPage now store) before in
  let p2 := tick appId p1 (Act (SetCurrentDate d2)) in
  let p3 := tick appId (ticks appId p2 mid) PassiveEffects in
  let p4 := ticks appId p3 after in
  In (lid, ref) (listeners (world p1)) ->
  (effect4Due p1 = false ->
   ref = dailyRecordDocRef appId (currentDate (app (world p1)))) /\
  currentDate (app (world p2)) = d2 /\
  effect4Due p2 = true /\
  In (lid, ref) (listeners (world p2)) /\
  ~ In lid (map fst (listeners (world p3))) /\
  ~ In lid (map fst (listeners (world p4))) /\
  tick appId p4 (Act (Snapshot lid)) = p4 /\
  tick appId p4 (Act (SnapshotError lid)) = p4 /\
  (effect4Due p4 = false ->
   forall lid' ref',
     In (lid', ref') (listeners (world p4)) ->
     ref' = dailyRecordDocRef appId (currentDate (app (world p4)))).
Proof.
  intros p1 p2 p3 p4 Hin.
  assert (Hinv1 : pageInv p1) by apply ticks_pageInv, mountedPage_pageInv.
  destruct Hinv1 as (Ht1 & Hb1 & Hs1).
  assert (Hlid : (lid < nextListener (world p1))%nat).
  { unfold idsBelowNext in Hb1. rewrite Forall_forall in Hb1.
    apply (Hb1 (lid, ref)). now apply list_elem_of_In. }
  set (n := nextListener (world p1)) in *.
  assert (Hw2 : world p2 = commitCurrentDate d2 (world p1)) by reflexivity.
  assert (Hd2 : effect4Due p2 = true).
  { unfold p2. cbn [tick commitStep effect4Due]. apply orb_true_r. }
  assert (Hf2 : freshFrom n p2).
  { split; [| split; [| now left]].
    - rewrite Hw2. exact Ht1.
    - rewrite Hw2. cbn. unfold n. lia. }
  assert (Hfq : freshFrom n (ticks appId p2 mid)) by apply ticks_freshFrom, Hf2.
  assert (Hf3 : freshFrom n p3) by apply tick_freshFrom, Hfq.
  assert (Hd3 : effect4Due p3 = false).
  { unfold p3. cbn [tick]. now destruct (effect4Due (ticks appId p2 mid)) eqn:Hq. }
  assert (Hinv3 : pageInv p3).
  { apply tick_pageInv, ticks_pageInv, tick_pageInv.
    now split; [| split]. }
  assert (Hi3 : idsFrom n (world p3) /\ idsBelowNext (world p3)).
  { split; [| apply Hinv3]. destruct Hf3 as (_ & Hn3 & [Habs | Hall]);
      [congruence | now split]. }
  assert (Hi4 : idsFrom n (world p4) /\ idsBelowNext (world p4))
    by apply ticks_ids, Hi3.
  assert (Hinv4 : pageInv p4) by apply ticks_pageInv, Hinv3.
  assert (Hnot : forall w, idsFrom n w -> ~ In lid (map fst (listeners w))).
  { intros w [_ Hall] Habs. apply in_map_iff in Habs as ([l r] & Heq & Hlr).
    cbn in Heq. subst l. rewrite Forall_forall in Hall.
    apply list_elem_of_In in Hlr. specialize (Hall _ Hlr). cbn in Hall. lia. }
  assert (Hcurrent : forall p, pageInv p -> effect4Due p = false ->
            forall lid' ref', In (lid', ref') (listeners (world p)) ->
              ref' = dailyRecordDocRef appId (currentDate (app (world p)))).
  { intros p (_ & _ & Hs) Hdue lid' ref' Hin'.
    destruct (Hs Hdue) as [Hlis _]. unfold listening in Hlis.
    destruct (effectCleanup (world p)).
    - destruct Hlis as [Hl _]. rewrite Hl in Hin'.
      destruct Hin' as [Heq | []]. now injection Heq.
    - rewrite Hlis in Hin'. destruct Hin'. }
  split; [intros Hdue; eapply Hcurrent; [now split; [| split] | exact Hdue |];
          exact Hin |].
  split; [now rewrite Hw2 |]. split; [exact Hd2 |].
  split; [now rewrite Hw2 |].
  split; [apply Hnot, Hi3 |]. split; [apply Hnot, Hi4 |].
  split; [| split].
  - cbn [tick commitStep]. unfold deliver.
    rewrite (listenerRef_None lid (world p4)) by apply Hnot, Hi4.
    cbn [fst]. rewrite orb_false_r. now destruct p4.
  - cbn [tick commitStep]. unfold deliverError.
    rewrite (listenerRef_None lid (world p4)) by apply Hnot, Hi4.
    rewrite orb_false_r. now destruct p4.
  - now apply Hcurrent.
Qed.

(** After any history: at most one listener is registered, the one whose
    [unsubscribe] React holds; and on a page with no run of effect 4 due, a
    signed-in component holds exactly one, that of the document of the
    current date, and a component that is not signed in holds none.  While
    a run is due (between a commit and its passive effects) the listener, if
    any, is still that of the run before. *)
Theorem one_listener_while_signed_in
    (now : Date) (store : gmap string Doc) (history : list Tick) :
  let p := ticks appId (mountedPage now store) history in
  let w := world p in
  match effectCleanup w with
  | Some lid => (lid < nextListener w)%nat /\ exists ref, listeners w = [(lid, ref)]
  | None => listeners w = []
  end /\
  (effect4Due p = false ->
   if isAuthReady (app w) then
     exists lid,
       effectCleanup w = Some lid /\
       listeners w = [(lid, dailyRecordDocRef appId (currentDate (app w)))]
   else effectCleanup w = None /\ listeners w = []).
Proof.
  cbv zeta.
  set (p := ticks appId (mountedPage now store) history).
  assert (Hinv : pageInv p) by apply ticks_pageInv, mountedPage_pageInv.
  destruct Hinv as (Ht & Hb & Hs). split.
  - unfold tracked in Ht. destruct (effectCleanup (world p)) as [lid |];
      [| exact Ht].
    destruct Ht as [ref Hl]. split; [| now exists ref].
    unfold idsBelowNext in Hb. rewrite Hl in Hb. now apply Forall_inv in Hb.
  - intros Hdue. destruct (Hs Hdue) as [Hl Hsub].
    unfold listening in Hl. unfold subscribed in Hsub.
    destruct (isAuthReady (app (world p))) eqn:Hr.
    + destruct (effectCleanup (world p)) as [lid |]; [| now destruct Hsub].
      destruct Hl as [Hl _]. now exists lid.
    + destruct (effectCleanup (world p)) as [lid |]; [| now split].
      destruct Hl as [_ Habs]. discriminate.
Qed.


(** *** Writing one field *)

Lemma lookup_data_date (field text formattedDate : string) :
  (<["date" := formattedDate]> ({[ field := text ]} : gmap string string)) !! "date"
  = Some formattedDate.
Proof. apply lookup_insert_eq. Qed.

Lemma lookup_data_field (field text formattedDate : string) :
  field <> "date" ->
  (<["date" := formattedDate]> ({[ field := text ]} : gmap string string)) !! field
  = Some text.
Proof.
  intros Hne. rewrite lookup_insert_ne by congruence.
  apply lookup_singleton_eq.
Qed.

Lemma lookup_data_other (field text formattedDate g : string) :
  g <> field -> g <> "date" ->
  (<["date" := formattedDate]> ({[ field := text ]} : gmap string string)) !! g = None.
Proof.
  intros Hf Hd. rewrite lookup_insert_ne by congruence.
  apply lookup_singleton_ne. congruence.
Qed.

Lemma merged_lookup_field (field text formattedDate : string)
    (old : gmap string string) :
  field <> "date" ->
  (<["date" := formattedDate]> {[ field := text ]} ∪ old) !! field = Some text.
Proof. intros Hne. now apply lookup_union_Some_l, lookup_data_field. Qed.

Lemma merged_lookup_other (field text formattedDate g : string)
    (old : gmap string string) :
  g <> field -> g <> "date" ->
  (<["date" := formattedDate]> {[ field := text ]} ∪ old) !! g = old !! g.
Proof.
  intros Hf Hd. rewrite lookup_union_r; [reflexivity |].
  now apply lookup_data_other.
Qed.

(** A successful [updateDailyRecord]: the document of the current date
    becomes the written data merged over what it held. *)
Lemma updateDailyRecord_ok {V : Type} `{JSON V} (field : string) (value : V) w :
  isAuthReady (app w) = true ->
  let formattedDate := formatDateForFirestore (currentDate (app w)) in
  let ref := dailyRecordDocRef appId (currentDate (app w)) in
  let data : Doc :=
    <["date" := formattedDate]> {[ field := JSON_stringify value ]} in
  updateDailyRecord appId field value true w
  = (mkWorld (app w) (<[ref := data ∪ default ∅ (docs w !! ref)]> (docs w))
             (listeners w) (effectCleanup w) (nextListener w) (console w)
             (alerts w) (S (setDocCalls w)),
     Returned).
Proof.
  intros Hr. unfold updateDailyRecord. rewrite Hr. reflexivity.
Qed.

(** A failed one: an error on the console, and nothing else. *)
Lemma updateDailyRecord_failed {V : Type} `{JSON V} (field : string)
    (value : V) w :
  isAuthReady (app w) = true ->
  updateDailyRecord appId field value false w
  = (mkWorld (app w) (docs w) (listeners w) (effectCleanup w) (nextListener w)
             (console w
              ++ [ConsoleError ("Error updating " +:+ field +:+ " in document: ")])
             (alerts w) (S (setDocCalls w)),
     Returned).
Proof.
  intros Hr. unfold updateDailyRecord. rewrite Hr. reflexivity.
Qed.

Lemma orElse_stringify {V : Type} `{JSON V} (value : V) (fallback : string) :
  orElse (Some (JSON_stringify value)) fallback = JSON_stringify value.
Proof.
  unfold orElse. destruct (String.eqb_spec (JSON_stringify value) EmptyString)
    as [Heq | _]; [| reflexivity].
  now apply JSON_stringify_nonempty in Heq.
Qed.

(** What the listener [lid] makes of the document of the current date once
    [field] has been written: the page after the write, then after the
    client has delivered a snapshot to that listener. *)
Definition observedAfterPatch {V : Type} `{JSON V} (field : string) (value : V)
    (lid : nat) (w : World) : World :=
  step appId (fst (updateDailyRecord appId field value true w)) (Snapshot lid).

(** The last sentence of the claim as the spec words it, for [notes]: the
    snapshot that follows a write of the notes reflects the written
    notes. *)
Definition snapshotReflectsNotes (w : World) (lid : nat) : Prop :=
  forall value : list Note,
    notes (app (observedAfterPatch "notes" value lid w)) = value.

Lemma observedAfterPatch_eq {V : Type} `{JSON V} (field : string) (value : V)
    (lid : nat) (w : World) :
  isAuthReady (app w) = true ->
  listenerRef lid w = Some (dailyRecordDocRef appId (currentDate (app w))) ->
  let formattedDate := formatDateForFirestore (currentDate (app w)) in
  let ref := dailyRecordDocRef appId (currentDate (app w)) in
  let data : Doc :=
    <["date" := formattedDate]> {[ field := JSON_stringify value ]} in
  let w' := fst (updateDailyRecord appId field value true w) in
  observedAfterPatch field value lid w
  = fst (onNext (Some (data ∪ default ∅ (docs w !! ref))) w')
  /\ app w' = app w.
Proof.
  intros Hr Hl formattedDate ref data w'. unfold observedAfterPatch.
  fold w'. unfold w'. rewrite updateDailyRecord_ok by exact Hr.
  cbn [fst step]. unfold deliver, listenerRef. cbn [listeners docs].
  unfold listenerRef in Hl. rewrite Hl. fold ref.
  now rewrite lookup_insert_eq.
Qed.

(** C3 - With authentication ready and the store accepting the write,
    [updateDailyRecord(field, value)] returns normally and leaves in the
    document of the current date the serialised value under [field] and the
    formatted date under "date"; every other field of that document, every
    other document and the component state are as before.  A snapshot of
    the document then delivered to the listener of the current date loads
    the fields in the order [medicationStatus], [notes], [bloodPressure] and
    stops at the first whose text does not parse.  So it reflects a written
    [medicationStatus] always; written [notes] when the stored
    [medicationStatus] parses, and not when it does not (the state stays as
    it was); written [bloodPressure] when the stored [medicationStatus] and
    [notes] parse, and not when one of them does not. *)
Theorem patch_merges_one_field (w : World) (lid : nat) :
  isAuthReady (app w) = true ->
  listenerRef lid w = Some (dailyRecordDocRef appId (currentDate (app w))) ->
  let formattedDate := formatDateForFirestore (currentDate (app w)) in
  let ref := dailyRecordDocRef appId (currentDate (app w)) in
  let old : Doc := default ∅ (docs w !! ref) in
  let storedStatus : option (gmap string bool) :=
    JSON_parse (orElse (old !! "medicationStatus") "{}") in
  let storedNotes : option (list Note) :=
    JSON_parse (orElse (old !! "notes") "[]") in
  (forall (V : Type) (J : JSON V) (field : string) (value : V),
      let r := updateDailyRecord appId field value true w in
      snd r = Returned /\
      app (fst r) = app w /\
      (forall ref', ref' <> ref -> docs (fst r) !! ref' = docs w !! ref') /\
      exists new : Doc,
        docs (fst r) !! ref = Some new /\
        new !! "date" = Some formattedDate /\
        (field <> "date" -> new !! field = Some (JSON_stringify value)) /\
        (forall g, g <> field -> g <> "date" -> new !! g = old !! g)) /\
  (forall value : gmap string bool,
      medicationStatus (app (observedAfterPatch "medicationStatus" value lid w))
      = value) /\
  (forall value : list Note,
      let w' := observedAfterPatch "notes" value lid w in
      match storedStatus with
      | Some status =>
          notes (app w') = value /\ medicationStatus (app w') = status
      | None => app w' = app w
      end) /\
  (forall value : list Reading,
      let w' := observedAfterPatch "bloodPressure" value lid w in
      match storedStatus, storedNotes with
      | Some status, Some parsedNotes =>
          bloodPressure (app w') = value /\ notes (app w') = parsedNotes /\
          medicationStatus (app w') = status /\ loading (app w') = false
      | Some status, None =>
          medicationStatus (app w') = status /\ notes (app w') = notes (app w) /\
          bloodPressure (app w') = bloodPressure (app w)
      | None, _ => app w' = app w
      end).
Proof.
  intros Hr Hl formattedDate ref old storedStatus storedNotes.
  split; [| split; [| split]].
  - intros V J field value r. unfold r.
    rewrite updateDailyRecord_ok by exact Hr. cbn [fst snd app docs].
    fold formattedDate ref old.
    split; [reflexivity |]. split; [reflexivity |]. split.
    + intros ref' Hne. now rewrite lookup_insert_ne by congruence.
    + eexists. split; [apply lookup_insert_eq |].
      split; [| split].
      * apply lookup_union_Some_l, lookup_data_date.
      * intros Hne. apply lookup_union_Some_l, lookup_data_field, Hne.
      * intros g Hg Hd. rewrite lookup_union_r; [reflexivity |].
        now apply lookup_data_other.
  - intros value.
    destruct (observedAfterPatch_eq "medicationStatus" value lid w Hr Hl)
      as [-> _].
    fold formattedDate ref old. unfold onNext.
    rewrite merged_lookup_field by discriminate.
    rewrite orElse_stringify, JSON_parse_stringify.
    repeat match goal with
           | |- context [match JSON_parse ?s with _ => _ end] =>
               destruct (JSON_parse s)
           end; reflexivity.
  - intros value w'. unfold w'.
    destruct (observedAfterPatch_eq "notes" value lid w Hr Hl) as [-> Happ].
    fold formattedDate ref old. unfold onNext.
    rewrite (merged_lookup_other _ _ _ "medicationStatus") by discriminate.
    fold storedStatus. destruct storedStatus as [status |];
      [| cbn [fst]; exact Happ].
    rewrite merged_lookup_field by discriminate.
    rewrite orElse_stringify, JSON_parse_stringify.
    repeat match goal with
           | |- context [match JSON_parse ?s with _ => _ end] =>
               destruct (JSON_parse s)
           end; split; reflexivity.
  - intros value w'. unfold w'.
    destruct (observedAfterPatch_eq "bloodPressure" value lid w Hr Hl)
      as [-> Happ].
    fold formattedDate ref old. unfold onNext.
    rewrite (merged_lookup_other _ _ _ "medicationStatus") by discriminate.
    fold storedStatus. destruct storedStatus as [status |];
      [| cbn [fst]; exact Happ].
    rewrite (merged_lookup_other _ _ _ "notes") by discriminate.
    fold storedNotes. destruct storedNotes as [parsedNotes |].
    + rewrite merged_lookup_field by discriminate.
      rewrite orElse_stringify, JSON_parse_stringify.
      repeat split; reflexivity.
    + cbn [fst]. rewrite <- Happ. repeat split; reflexivity.
Qed.

(** *** Loading a snapshot *)

(** What a field of the record is loaded as: the fallback when the field is
    missing (or the empty string), the parse of its text otherwise, which is
    [None] where [JSON.parse] throws. *)
Definition loadedAs {V : Type} `{JSON V} (field : option string)
    (fallback : V) : option V :=
  match field with
  | Some s => if String.eqb s EmptyString then Some fallback else JSON_parse s
  | None => Some fallback
  end.

Lemma loadedAs_orElse {V : Type} `{JSON V} (field : option string)
    (fallbackText : string) (fallback : V) :
  JSON_parse fallbackText = Some fallback ->
  JSON_parse (orElse field fallbackText) = loadedAs field fallback.
Proof.
  intros Hfb. unfold loadedAs, orElse.
  destruct field as [s |]; [destruct (String.eqb s EmptyString) |];
    now rewrite ?Hfb.
Qed.

(** The second half of the claim as the spec words it, for a snapshot of
    the document [data]: each field that is missing from the document loads
    as its empty default, whatever the other fields hold. *)
Definition fieldsDefaultIndependently (w : World) (data : Doc) : Prop :=
  let w' := fst (onNext (Some data) w) in
  (data !! "medicationStatus" = None -> medicationStatus (app w') = ∅) /\
  (data !! "notes" = None -> notes (app w') = []) /\
  (data !! "bloodPressure" = None -> bloodPressure (app w') = []).

(** C7 - A snapshot of a date with no document loads the empty defaults:
    [medicationStatus] the empty object, [notes] and [bloodPressure] the
    empty array; the listener of a document that does not exist is given
    such a snapshot, and the listener of one that exists is given the
    document.  A snapshot of a document loads the three fields in the order
    [medicationStatus], [notes], [bloodPressure]: a field that is missing
    loads as its empty default and a field that is there as the parse of
    its text, as long as the fields before it have parsed; at the first
    field whose text does not parse the callback throws, and that field, the
    fields after it and [loading] keep the values they had. *)
Theorem missing_record_and_fields_default
    `{!JSONObject (gmap string bool)} `{!JSONArray Note} `{!JSONArray Reading}
    (w : World) :
  (let r := onNext None w in
   snd r = Returned /\
   medicationStatus (app (fst r)) = ∅ /\
   notes (app (fst r)) = [] /\
   bloodPressure (app (fst r)) = [] /\
   loading (app (fst r)) = false) /\
  (forall lid ref,
      listenerRef lid w = Some ref ->
      deliver lid w = onNext (docs w !! ref) w /\
      (docs w !! ref = None -> deliver lid w = onNext None w)) /\
  (forall data : Doc,
      let r := onNext (Some data) w in
      match loadedAs (data !! "medicationStatus") (∅ : gmap string bool) with
      | None => r = (w, Threw)
      | Some status =>
          medicationStatus (app (fst r)) = status /\
          match loadedAs (data !! "notes") ([] : list Note) with
          | None =>
              snd r = Threw /\
              notes (app (fst r)) = notes (app w) /\
              bloodPressure (app (fst r)) = bloodPressure (app w) /\
              loading (app (fst r)) = loading (app w)
          | Some parsedNotes =>
              notes (app (fst r)) = parsedNotes /\
              match loadedAs (data !! "bloodPressure") ([] : list Reading) with
              | None =>
                  snd r = Threw /\
                  bloodPressure (app (fst r)) = bloodPressure (app w) /\
                  loading (app (fst r)) = loading (app w)
              | Some readings =>
                  snd r = Returned /\
                  bloodPressure (app (fst r)) = readings /\
                  loading (app (fst r)) = false
              end
          end
      end).
Proof.
  split; [| split].
  - cbn. repeat split.
  - intros lid ref Hl. unfold deliver. rewrite Hl.
    split; [reflexivity | now intros ->].
  - intros data r. unfold r, onNext.
    rewrite (loadedAs_orElse _ "{}" ∅ JSON_parse_empty_object).
    rewrite (loadedAs_orElse _ "[]" ([] : list Note) JSON_parse_empty_array).
    rewrite (loadedAs_orElse _ "[]" ([] : list Reading) JSON_parse_empty_array).
    destruct (loadedAs (data !! "medicationStatus") ∅) as [status |];
      [| reflexivity].
    split; [now destruct (loadedAs (data !! "notes") []),
                         (loadedAs (data !! "bloodPressure") []) |].
    destruct (loadedAs (data !! "notes") []) as [parsedNotes |];
      [| now repeat split].
    split; [now destruct (loadedAs (data !! "bloodPressure") []) |].
    destruct (loadedAs (data !! "bloodPressure") []); now repeat split.
Qed.

(** *** A failed write *)

(** A notice reaches the user: an [alert] dialog opens, or the transient
    message of the page appears. *)
Definition noticeShown (w w' : World) : Prop :=
  alerts w' <> alerts w \/
  (showShareMessage (app w) = false /\ showShareMessage (app w') = true).

(** C8 as the specification words it, for a toggle whose write fails. *)
Definition failedWriteIsNotified (w : World) (medId : string) : Prop :=
  let r := handleToggleMedication appId medId false w in
  (exists msg, console (fst r) = console w ++ [ConsoleError msg]) /\
  noticeShown w (fst r) /\
  setDocCalls (fst r) = S (setDocCalls w) /\
  snd r = Returned /\
  medicationStatus (app (fst r)) = toggled (medicationStatus (app w)) medId.

(** C8, amended - When the write of a field of the daily record fails, the
    error is logged on the console and that is all: no [alert] opens and no
    notice state changes, [setDoc] is called once and not again, the call
    returns normally, the store is unchanged and the component state is the
    one the handler had set (for a toggle, the toggled check marks). *)
Theorem failed_write_is_logged_only (w : World) :
  isAuthReady (app w) = true ->
  (forall (V : Type) (J : JSON V) (field : string) (value : V),
      let r := updateDailyRecord appId field value false w in
      snd r = Returned /\
      (exists msg, console (fst r) = console w ++ [ConsoleError msg]) /\
      alerts (fst r) = alerts w /\
      app (fst r) = app w /\
      setDocCalls (fst r) = S (setDocCalls w) /\
      docs (fst r) = docs w) /\
  (forall medId : string,
      let r := handleToggleMedication appId medId false w in
      snd r = Returned /\
      (exists msg, console (fst r) = console w ++ [ConsoleError msg]) /\
      ~ noticeShown w (fst r) /\
      showNameInput (app (fst r)) = showNameInput (app w) /\
      setDocCalls (fst r) = S (setDocCalls w) /\
      docs (fst r) = docs w /\
      medicationStatus (app (fst r)) = toggled (medicationStatus (app w)) medId).
Proof.
  intros Hr. split.
  - intros V J field value r. unfold r.
    rewrite updateDailyRecord_failed by exact Hr. cbn.
    repeat split. eauto.
  - intros medId r. unfold r, handleToggleMedication.
    rewrite updateDailyRecord_failed by exact Hr. cbn.
    repeat split; eauto.
    unfold noticeShown. cbn. intros [Ha | [Hf Ht]]; congruence.
Qed.

(** *** Toggling *)




(** *** The address of a daily record *)

Lemma effect4_listeners w :
  isAuthReady (app w) = true ->
  listeners (effect4 appId w)
  = listeners w ++ [(nextListener w,
                     dailyRecordDocRef appId (currentDate (app w)))].
Proof. intros Hr. unfold effect4. rewrite Hr. reflexivity. Qed.

(** C9 - The document of a daily record is found from the formatted date
    alone: two components whose current dates format to the same string
    listen to the same document and write to the same document.  The string
    is the year, then the month and the day of the month as two digits each
    (zero-padded), of the local calendar day, so the two dates are the same
    local calendar day. *)
Theorem record_addressed_by_formatted_date (w1 w2 : World) :
  isAuthReady (app w1) = true ->
  isAuthReady (app w2) = true ->
  formatDateForFirestore (currentDate (app w1))
  = formatDateForFirestore (currentDate (app w2)) ->
  let ref := doc (dailyRecordsPath appId)
                 (formatDateForFirestore (currentDate (app w1))) in
  dailyRecordDocRef appId (currentDate (app w1)) = ref /\
  dailyRecordDocRef appId (currentDate (app w2)) = ref /\
  listeners (effect4 appId w1) = listeners w1 ++ [(nextListener w1, ref)] /\
  listeners (effect4 appId w2) = listeners w2 ++ [(nextListener w2, ref)] /\
  (forall (V : Type) (J : JSON V) (field : string) (value : V),
      exists data : Doc,
        docs (fst (updateDailyRecord appId field value true w1))
        = <[ref := data ∪ default ∅ (docs w1 !! ref)]> (docs w1) /\
        docs (fst (updateDailyRecord appId field value true w2))
        = <[ref := data ∪ default ∅ (docs w2 !! ref)]> (docs w2)) /\
  sameDay (currentDate (app w1)) (currentDate (app w2)) /\
  exists month day : string,
    formatDateForFirestore (currentDate (app w1))
    = String_of (getFullYear (currentDate (app w1)))
      +:+ "-" +:+ month +:+ "-" +:+ day /\
    String.length month = 2%nat /\ String.length day = 2%nat /\
    decimalValue month = Some (getMonth (currentDate (app w1)) + 1) /\
    decimalValue day = Some (getDate (currentDate (app w1))).
Proof.
  intros Hr1 Hr2 Heq ref.
  assert (E1 : dailyRecordDocRef appId (currentDate (app w1)) = ref)
    by reflexivity.
  assert (E2 : dailyRecordDocRef appId (currentDate (app w2)) = ref)
    by (unfold dailyRecordDocRef, ref; now rewrite Heq).
  split; [exact E1 |]. split; [exact E2 |].
  split; [rewrite <- E1; now apply effect4_listeners |].
  split; [rewrite <- E2; now apply effect4_listeners |].
  split; [| split].
  - intros V J field value.
    exists (<["date" := formatDateForFirestore (currentDate (app w1))]>
              {[ field := JSON_stringify value ]}).
    rewrite !updateDailyRecord_ok by assumption. cbn [fst docs].
    rewrite E1, E2, <- Heq. split; reflexivity.
  - now apply formatDateForFirestore_sameDay.
  - apply formatDateForFirestore_shape.
Qed.

(** *** The day buttons *)

Lemma setCurrentDate_app d w :
  app (setCurrentDate appId d w) = setCurrentDateCell d (app w).
Proof. unfold setCurrentDate, commitCurrentDate. now rewrite rerunEffect4_app. Qed.

Lemma goToNextDay_date w :
  Civil -> Z.abs (Day (localTime (currentDate (app w))) + 1) <= lastDay - 2 ->
  exists d',
    setDate (currentDate (app w)) (getDate (currentDate (app w)) + 1) = Some d' /\
    goToNextDay appId w = setCurrentDate appId d' w /\
    currentDate (app (goToNextDay appId w)) = d' /\
    Day (localTime d') = Day (localTime (currentDate (app w))) + 1.
Proof.
  intros Hc Hr.
  destruct (setDate_Some (currentDate (app w)) 1 Hc Hr) as (d' & Hs & Hd).
  exists d'. split; [exact Hs |].
  assert (Hgo : goToNextDay appId w = setCurrentDate appId d' w).
  { unfold goToNextDay. cbv zeta. rewrite copyDate_id. now rewrite Hs. }
  split; [exact Hgo |]. split; [| exact Hd].
  now rewrite Hgo, setCurrentDate_app.
Qed.

Lemma goToPreviousDay_date w :
  Civil -> Z.abs (Day (localTime (currentDate (app w))) - 1) <= lastDay - 2 ->
  exists d',
    setDate (currentDate (app w)) (getDate (currentDate (app w)) - 1) = Some d' /\
    goToPreviousDay appId w = setCurrentDate appId d' w /\
    currentDate (app (goToPreviousDay appId w)) = d' /\
    Day (localTime d') = Day (localTime (currentDate (app w))) - 1.
Proof.
  intros Hc Hr.
  destruct (setDate_Some (currentDate (app w)) (-1) Hc) as (d' & Hs & Hd);
    [now replace (Day (localTime (currentDate (app w))) + -1)
       with (Day (localTime (currentDate (app w))) - 1) by lia |].
  replace (getDate (currentDate (app w)) + -1)
    with (getDate (currentDate (app w)) - 1) in Hs by lia.
  exists d'. split; [exact Hs |].
  assert (Hgo : goToPreviousDay appId w = setCurrentDate appId d' w).
  { unfold goToPreviousDay. cbv zeta. rewrite copyDate_id. now rewrite Hs. }
  split; [exact Hgo |]. split; [| lia].
  now rewrite Hgo, setCurrentDate_app.
Qed.

(** In a zone where every local time exists once (taken to UTC and back it
    is itself), [setDate] inside the range moves the local time by whole
    days. *)
Lemma setDate_exact d k d' :
  (forall t, LocalTime (UTC t) = t) ->
  setDate d (getDate d + k) = Some d' -> d' = addDays d k.
Proof.
  intros Hid. rewrite setDate_getDate. unfold dateOfLocal.
  destruct (TimeClip (UTC (localTime (addDays d k)))) as [tv |] eqn:Hclip;
    [| discriminate].
  unfold TimeClip in Hclip.
  destruct (Z.abs (UTC (localTime (addDays d k))) <=? maxTime);
    [| discriminate].
  injection Hclip as <-. intros [= <-]. now rewrite Hid.
Qed.

(** In a civil time zone, and well inside the range of [Date], the two day
    buttons move the current date to the next and to the previous calendar
    day: the day of the week moves by one and the document id changes; one
    button after the other comes back to the same calendar day and the same
    document id.  Where moreover every local time exists once, the buttons
    move the local time by exactly one day, so the time of day is kept and
    each undoes the other. *)
Theorem day_buttons_move_one_day (w : World) :
  Civil -> wellInside (currentDate (app w)) ->
  let d := currentDate (app w) in
  let next := currentDate (app (goToNextDay appId w)) in
  let previous := currentDate (app (goToPreviousDay appId w)) in
  let back := currentDate (app (goToPreviousDay appId (goToNextDay appId w))) in
  let forth := currentDate (app (goToNextDay appId (goToPreviousDay appId w))) in
  Day (localTime next) = Day (localTime d) + 1 /\
  Day (localTime previous) = Day (localTime d) - 1 /\
  sameDay back d /\ sameDay forth d /\
  getDay next = (getDay d + 1) mod 7 /\
  getDay previous = (getDay d - 1) mod 7 /\
  formatDateForFirestore next <> formatDateForFirestore d /\
  formatDateForFirestore previous <> formatDateForFirestore d /\
  formatDateForFirestore back = formatDateForFirestore d /\
  formatDateForFirestore forth = formatDateForFirestore d /\
  ((forall t, LocalTime (UTC t) = t) ->
   localTime next = localTime d + msPerDay /\
   localTime previous = localTime d - msPerDay /\
   back = d /\ forth = d).
Proof.
  intros Hc Hin. cbv zeta. unfold wellInside in Hin.
  set (d := currentDate (app w)) in *.
  destruct (goToNextDay_date w Hc) as (dn & Hsn & _ & Hn & HDn);
    [fold d; lia |].
  destruct (goToPreviousDay_date w Hc) as (dp & Hsp & _ & Hp & HDp);
    [fold d; lia |].
  fold d in Hsn, Hsp, HDn, HDp.
  destruct (goToPreviousDay_date (goToNextDay appId w) Hc)
    as (db & Hsb & _ & Hb & HDb); [rewrite Hn; lia |].
  destruct (goToNextDay_date (goToPreviousDay appId w) Hc)
    as (df & Hsf & _ & Hf & HDf); [rewrite Hp; lia |].
  rewrite Hn in Hsb, HDb. rewrite Hp in Hsf, HDf.
  rewrite Hn, Hp, Hb, Hf.
  assert (Hback : sameDay db d) by (unfold sameDay; lia).
  assert (Hforth : sameDay df d) by (unfold sameDay; lia).
  split; [exact HDn |]. split; [exact HDp |].
  split; [exact Hback |]. split; [exact Hforth |].
  split; [unfold getDay, WeekDay; rewrite HDn, Zplus_mod_idemp_l;
          f_equal; lia |].
  split; [unfold getDay, WeekDay; rewrite HDp, Zminus_mod_idemp_l;
          f_equal; lia |].
  split; [intros Heq; apply formatDateForFirestore_sameDay in Heq;
          unfold sameDay in Heq; lia |].
  split; [intros Heq; apply formatDateForFirestore_sameDay in Heq;
          unfold sameDay in Heq; lia |].
  split; [now apply formatDateForFirestore_sameDay |].
  split; [now apply formatDateForFirestore_sameDay |].
  intros Hid.
  apply (setDate_exact d 1 dn Hid) in Hsn.
  replace (getDate d - 1) with (getDate d + -1) in Hsp by lia.
  apply (setDate_exact d (-1) dp Hid) in Hsp.
  replace (getDate dn - 1) with (getDate dn + -1) in Hsb by lia.
  apply (setDate_exact dn (-1) db Hid) in Hsb.
  apply (setDate_exact dp 1 df Hid) in Hsf.
  subst dn dp. rewrite addDays_addDays in Hsb, Hsf.
  change (1 + -1) with 0 in Hsb. change (-1 + 1) with 0 in Hsf.
  rewrite addDays_0 in Hsb, Hsf.
  split; [unfold addDays; cbn [localTime]; lia |].
  split; [unfold addDays; cbn [localTime]; lia |].
  now split.
Qed.

Lemma MakeDay_next_month y m :
  0 <= m <= 11 ->
  MakeDay y m (daysInMonth y m + 1)
  = if m =? 11 then MakeDay (y + 1) 0 1 else MakeDay y (m + 1) 1.
Proof.
  intros Hm. unfold MakeDay, daysInMonth. cbv zeta.
  rewrite (Z.div_small m), (Z.mod_small m) by lia.
  replace (y + 0) with y by lia.
  destruct (Z.eqb_spec m 11) as [-> | Hne].
  - change (0 / 12) with 0. change (0 mod 12) with 0.
    replace (y + 1 + 0) with (y + 1) by lia.
    rewrite DayFromYear_succ. unfold DaysInYear.
    destruct (isLeapYear y), (isLeapYear (y + 1)); simpl; lia.
  - rewrite (Z.div_small (m + 1)), (Z.mod_small (m + 1)) by lia.
    replace (y + 0) with y by lia. lia.
Qed.

Lemma next_day_components day :
  let y := YearFromDay day in
  let m := MonthFromDay day in
  let dt := DateFromDay day in
  let last := daysInMonth y m in
  (dt < last ->
   YearFromDay (day + 1) = y /\ MonthFromDay (day + 1) = m /\
   DateFromDay (day + 1) = dt + 1) /\
  (dt = last -> m < 11 ->
   YearFromDay (day + 1) = y /\ MonthFromDay (day + 1) = m + 1 /\
   DateFromDay (day + 1) = 1) /\
  (dt = last -> m = 11 ->
   YearFromDay (day + 1) = y + 1 /\ MonthFromDay (day + 1) = 0 /\
   DateFromDay (day + 1) = 1).
Proof.
  intros y m dt last.
  pose proof (MonthFromDay_range day) as Hm. fold m in Hm.
  pose proof (DateFromDay_range day) as Hd. fold y m dt last in Hd.
  assert (Hday : day + 1 = MakeDay y m (dt + 1)).
  { rewrite MakeDay_date. unfold y, m, dt. now rewrite MakeDay_roundtrip. }
  rewrite Hday.
  split; [| split].
  - intros Hlt. apply components_MakeDay; [exact Hm | fold last; lia].
  - intros Heq Hmlt. rewrite Heq. unfold last.
    rewrite MakeDay_next_month by exact Hm.
    destruct (Z.eqb_spec m 11); [lia |].
    pose proof (daysInMonth_range y (m + 1) ltac:(lia)).
    apply components_MakeDay; lia.
  - intros Heq Hm11. rewrite Heq. unfold last.
    rewrite MakeDay_next_month by exact Hm.
    rewrite Hm11. cbn [Z.eqb Pos.eqb].
    pose proof (daysInMonth_range (y + 1) 0 ltac:(lia)).
    apply components_MakeDay; lia.
Qed.

(** Where the next-day button lands on the calendar, in a civil time zone
    and well inside the range of [Date]: the next day of the month, or the
    first of the next month after the month's last day, or the first of
    January of the next year after 31 December. *)
Theorem next_day_rolls_over (w : World) :
  Civil -> wellInside (currentDate (app w)) ->
  let d := currentDate (app w) in
  let next := currentDate (app (goToNextDay appId w)) in
  let last := daysInMonth (getFullYear d) (getMonth d) in
  28 <= last <= 31 /\ 1 <= getDate d <= last /\
  (getDate d < last ->
   getFullYear next = getFullYear d /\ getMonth next = getMonth d /\
   getDate next = getDate d + 1) /\
  (getDate d = last -> getMonth d < 11 ->
   getFullYear next = getFullYear d /\ getMonth next = getMonth d + 1 /\
   getDate next = 1) /\
  (getDate d = last -> getMonth d = 11 ->
   getFullYear next = getFullYear d + 1 /\ getMonth next = 0 /\
   getDate next = 1).
Proof.
  intros Hc Hin. cbv zeta. unfold wellInside in Hin.
  destruct (goToNextDay_date w Hc) as (dn & _ & _ & Hn & HDn); [lia |].
  rewrite Hn. clear Hn.
  set (d := currentDate (app w)) in *.
  split; [apply daysInMonth_range, MonthFromDay_range |].
  split; [apply DateFromDay_range |].
  unfold getFullYear, getMonth, getDate. rewrite HDn.
  apply next_day_components.
Qed.


Lemma updateDailyRecord_app {V : Type} `{JSON V} (field : string) (value : V)
    ok w :
  app (fst (updateDailyRecord appId field value ok w)) = app w.
Proof.
  unfold updateDailyRecord, setDocMerge.
  destruct (isAuthReady (app w)), ok; reflexivity.
Qed.

(** Switching the date resets nothing: the check marks, notes and readings
    of the previous date and the loading flag stay as they are until a
    snapshot of the new date arrives.  A toggle made in between is applied
    to the previous date's check marks, and the result is stored in the
    document of the new date. *)
Theorem date_switch_keeps_local_state (w : World) (d2 : Date) (medId : string) :
  isAuthReady (app w) = true ->
  let w2 := setCurrentDate appId d2 w in
  let w3 := fst (handleToggleMedication appId medId true w2) in
  let ref2 := dailyRecordDocRef appId d2 in
  currentDate (app w2) = d2 /\
  medicationStatus (app w2) = medicationStatus (app w) /\
  notes (app w2) = notes (app w) /\
  bloodPressure (app w2) = bloodPressure (app w) /\
  loading (app w2) = loading (app w) /\
  docs w2 = docs w /\
  docs w3 !! ref2
  = Some (<["date" := formatDateForFirestore d2]>
            {[ "medicationStatus" :=
                 JSON_stringify (toggled (medicationStatus (app w)) medId) ]}
          ∪ default ∅ (docs w !! ref2)).
Proof.
  intros Hr w2 w3 ref2.
  assert (Happ : app w2 = setCurrentDateCell d2 (app w))
    by apply setCurrentDate_app.
  assert (Hdocs : docs w2 = docs w).
  { unfold w2, setCurrentDate. now rewrite rerunEffect4_docs. }
  rewrite Happ. cbn [currentDate medicationStatus notes bloodPressure loading
                     setCurrentDateCell].
  repeat (split; [reflexivity |]). split; [exact Hdocs |].
  unfold w3, handleToggleMedication.
  rewrite updateDailyRecord_ok
    by (cbn; rewrite Happ; exact Hr).
  cbn [fst docs withApp app currentDate setMedicationStatus].
  rewrite Happ. cbn [currentDate medicationStatus setCurrentDateCell].
  fold ref2. rewrite lookup_insert_eq, Hdocs. reflexivity.
Qed.

(** *** Before the sign-in *)

Definition idle (w : World) : Prop :=
  isAuthReady (app w) = false /\ listeners w = [] /\
  effectCleanup w = None /\ setDocCalls w = 0%nat.

Lemma updateDailyRecord_idle {V : Type} `{JSON V} (field : string) (value : V)
    ok w (f : State -> State) :
  idle w -> isAuthReady (f (app w)) = false ->
  idle (fst (updateDailyRecord appId field value ok (withApp f w))).
Proof.
  intros (Hr & Hl & Hc & Hn) Hf. unfold updateDailyRecord. cbn.
  rewrite Hf. cbn. repeat split; assumption.
Qed.

Lemma step_idle w e : e <> AuthUser -> idle w -> idle (step appId w e).
Proof.
  intros Hne Hw. pose proof Hw as (Hr & Hl & Hc & Hn).
  destruct e; cbn [step]; try congruence.
  - rewrite onSignInError_eq. cbv zeta. rewrite Hr. repeat split; assumption.
  - unfold goToPreviousDay. cbv zeta. destruct (setDate _ _); [| exact Hw].
    unfold setCurrentDate, commitCurrentDate, rerunEffect4, cleanupEffect4,
      effect4. cbn. rewrite Hc. cbn. rewrite Hr. repeat split; assumption.
  - unfold goToNextDay. cbv zeta. destruct (setDate _ _); [| exact Hw].
    unfold setCurrentDate, commitCurrentDate, rerunEffect4, cleanupEffect4,
      effect4. cbn. rewrite Hc. cbn. rewrite Hr. repeat split; assumption.
  - unfold setCurrentDate, commitCurrentDate, rerunEffect4, cleanupEffect4,
      effect4. cbn. rewrite Hc. cbn. rewrite Hr. repeat split; assumption.
  - unfold handleToggleMedication. apply updateDailyRecord_idle; assumption.
  - unfold handleAddNote.
    destruct (_ && _); [apply updateDailyRecord_idle; assumption |].
    destruct (String.eqb _ _); repeat split; assumption.
  - unfold handleAddBloodPressure.
    destruct (_ && _); [apply updateDailyRecord_idle; assumption |].
    destruct (String.eqb _ _); repeat split; assumption.
  - repeat split; assumption.
  - unfold deliver, listenerRef. rewrite Hl. exact Hw.
  - unfold deliverError, listenerRef. rewrite Hl. exact Hw.
  - repeat split; assumption.
Qed.

(** Until the anonymous sign-in has succeeded the component does nothing
    remote: whatever the user does, no snapshot listener is registered and
    [setDoc] is never called. *)
Theorem nothing_remote_before_sign_in
    (now : Date) (store : gmap string Doc) (events : list Event) :
  ~ In AuthUser events ->
  let w := run appId (mounted now store) events in
  isAuthReady (app w) = false /\ listeners w = [] /\ setDocCalls w = 0%nat.
Proof.
  intros Hno. cbv zeta.
  assert (Hgen : forall w, ~ In AuthUser events -> idle w ->
                           idle (run appId w events)).
  { clear Hno. induction events as [| e events IH]; intros w Hno Hw;
      [exact Hw |].
    cbn. apply IH; [intros Hin; apply Hno; now right |].
    apply step_idle; [intros ->; apply Hno; now left | exact Hw]. }
  destruct (Hgen (mounted now store) Hno) as (Hr & Hl & _ & Hn).
  - repeat split.
  - now repeat split.
Qed.

(** *** Notes and readings *)

(** [handleAddNote]: with a text and a user name the note is appended to the
    notes of the day, signed with the user name and the time given, and the
    new list is what is written to the store; with no user name nothing is
    added or written, an [alert] asks for the name and the name dialog
    opens; with a name but no text nothing happens at all. *)
Theorem add_note_appends (noteText now : string) (ok : bool) (w : World) :
  let r := handleAddNote appId noteText now ok w in
  let added := notes (app w) ++ [mkNote noteText (userName (app w)) now] in
  snd r = Returned /\
  (noteText <> EmptyString -> userName (app w) <> EmptyString ->
   fst r = fst (updateDailyRecord appId "notes" added ok
                  (withApp (setNotes added) w)) /\
   notes (app (fst r)) = added /\
   alerts (fst r) = alerts w) /\
  (userName (app w) = EmptyString ->
   notes (app (fst r)) = notes (app w) /\
   docs (fst r) = docs w /\ setDocCalls (fst r) = setDocCalls w /\
   alerts (fst r)
   = alerts w ++ ["Por favor, ingresa tu nombre para añadir una nota."] /\
   showNameInput (app (fst r)) = true) /\
  (noteText = EmptyString -> userName (app w) <> EmptyString -> fst r = w).
Proof.
  cbv zeta. unfold handleAddNote.
  destruct (String.eqb_spec noteText EmptyString) as [Ht | Ht];
    destruct (String.eqb_spec (userName (app w)) EmptyString) as [Hu | Hu];
    cbn [negb andb].
  - repeat split; try congruence.
  - repeat split; try congruence.
  - repeat split; try congruence.
  - split.
    { unfold updateDailyRecord, setDocMerge. cbn.
      destruct (isAuthReady (app w)), ok; reflexivity. }
    split; [| split; [congruence | congruence]].
    intros _ _. split; [reflexivity |].
    split; [now rewrite updateDailyRecord_app |].
    unfold updateDailyRecord, setDocMerge. cbn.
    destruct (isAuthReady (app w)), ok; reflexivity.
Qed.

(** [handleAddBloodPressure]: the same for a reading, which needs both
    values. *)
Theorem add_reading_appends (sys dia now : string) (ok : bool) (w : World) :
  let r := handleAddBloodPressure appId sys dia now ok w in
  let added :=
    bloodPressure (app w) ++ [mkReading sys dia (userName (app w)) now] in
  snd r = Returned /\
  (sys <> EmptyString -> dia <> EmptyString ->
   userName (app w) <> EmptyString ->
   fst r = fst (updateDailyRecord appId "bloodPressure" added ok
                  (withApp (setBloodPressure added) w)) /\
   bloodPressure (app (fst r)) = added /\
   alerts (fst r) = alerts w) /\
  (userName (app w) = EmptyString ->
   bloodPressure (app (fst r)) = bloodPressure (app w) /\
   docs (fst r) = docs w /\ setDocCalls (fst r) = setDocCalls w /\
   alerts (fst r)
   = alerts w ++ ["Por favor, ingresa tu nombre para registrar la presión."] /\
   showNameInput (app (fst r)) = true) /\
  ((sys = EmptyString \/ dia = EmptyString) ->
   userName (app w) <> EmptyString -> fst r = w).
Proof.
  cbv zeta. unfold handleAddBloodPressure.
  destruct (String.eqb_spec sys EmptyString) as [Hs | Hs];
    destruct (String.eqb_spec dia EmptyString) as [Hd | Hd];
    destruct (String.eqb_spec (userName (app w)) EmptyString) as [Hu | Hu];
    cbn [negb andb];
    try (repeat split; solve [congruence | tauto | intros [? | ?]; congruence]).
  split.
  { unfold updateDailyRecord, setDocMerge. cbn.
    destruct (isAuthReady (app w)), ok; reflexivity. }
  split; [| split; [congruence | intros [? | ?]; congruence]].
  intros _ _ _. split; [reflexivity |].
  split; [now rewrite updateDailyRecord_app |].
  unfold updateDailyRecord, setDocMerge. cbn.
  destruct (isAuthReady (app w)), ok; reflexivity.
Qed.
(** *** The loading flag *)

Lemma onNext_loading docSnap w :
  loading (app w) = false -> loading (app (fst (onNext docSnap w))) = false.
Proof.
  intros Hw. unfold onNext. destruct docSnap as [data |]; [| reflexivity].
  repeat match goal with
         | |- context [match JSON_parse ?s with _ => _ end] =>
             destruct (JSON_parse s)
         end; cbn; first [exact Hw | reflexivity].
Qed.

Lemma step_loading w e :
  loading (app w) = false -> loading (app (step appId w e)) = false.
Proof.
  intros Hw. destruct e; cbn [step].
  - rewrite onUser_eq. destruct (isAuthReady (app w)); [exact Hw |].
    rewrite rerunEffect4_app. exact Hw.
  - rewrite onSignInError_eq. cbv zeta.
    destruct (isAuthReady (app w)); [rewrite rerunEffect4_app |]; reflexivity.
  - unfold goToPreviousDay. cbv zeta. destruct (setDate _ _); [| exact Hw].
    rewrite setCurrentDate_app. exact Hw.
  - unfold goToNextDay. cbv zeta. destruct (setDate _ _); [| exact Hw].
    rewrite setCurrentDate_app. exact Hw.
  - rewrite setCurrentDate_app. exact Hw.
  - unfold handleToggleMedication. rewrite updateDailyRecord_app. exact Hw.
  - unfold handleAddNote.
    destruct (_ && _); [rewrite updateDailyRecord_app; exact Hw |].
    destruct (String.eqb _ _); exact Hw.
  - unfold handleAddBloodPressure.
    destruct (_ && _); [rewrite updateDailyRecord_app; exact Hw |].
    destruct (String.eqb _ _); exact Hw.
  - exact Hw.
  - unfold deliver. destruct (listenerRef lid w); [| exact Hw].
    now apply onNext_loading.
  - unfold deliverError. destruct (listenerRef lid w); [reflexivity | exact Hw].
  - exact Hw.
Qed.

(** Nothing sets [loading] back to true: once a snapshot, a snapshot error
    or a failed sign-in has cleared it, it stays cleared whatever happens,
    a switch to a date whose record has not arrived yet included. *)
Theorem loading_is_never_set_again (w : World) (events : list Event) :
  loading (app w) = false ->
  loading (app (run appId w events)) = false.
Proof.
  revert w. induction events as [| e events IH]; intros w Hw; [exact Hw |].
  cbn. apply IH, step_loading, Hw.
Qed.

(** *** One document for each day *)

(** Two dates address the same daily record exactly when they are the same
    local calendar day. *)
Theorem one_document_per_day (d1 d2 : Date) :
  dailyRecordDocRef appId d1 = dailyRecordDocRef appId d2 <-> sameDay d1 d2.
Proof.
  rewrite <- formatDateForFirestore_sameDay.
  unfold dailyRecordDocRef, doc. split; [| now intros ->].
  intros Heq. apply append_inj_length in Heq; [| reflexivity].
  destruct Heq as [_ Heq]. now apply append_char_inj in Heq.
Qed.

(** *** The local state mirrors the store *)

(** [v] is what a field of the record loads as: the fallback when the
    field is missing (or the empty string), the parse of its text
    otherwise. *)
Definition fieldLoads {V : Type} `{JSON V} (field : option string)
    (fallback : V) (v : V) : Prop :=
  match field with
  | Some s => if String.eqb s EmptyString then v = fallback
              else JSON_parse s = Some v
  | None => v = fallback
  end.

Lemma fieldLoads_orElse {V : Type} `{JSON V} (field : option string)
    (fallbackText : string) (fallback v : V) :
  JSON_parse fallbackText = Some fallback ->
  fieldLoads field fallback v ->
  JSON_parse (orElse field fallbackText) = Some v.
Proof.
  intros Hfb. unfold fieldLoads, orElse.
  destruct field as [s |]; [destruct (String.eqb s EmptyString) |];
    intros Hv; subst; assumption.
Qed.

(** The three cells are what the document of the current date loads as. *)
Definition mirrored (w : World) : Prop :=
  let data : Doc :=
    default ∅ (docs w !! dailyRecordDocRef appId (currentDate (app w))) in
  fieldLoads (data !! "medicationStatus") ∅ (medicationStatus (app w)) /\
  fieldLoads (data !! "notes") [] (notes (app w)) /\
  fieldLoads (data !! "bloodPressure") [] (bloodPressure (app w)).

(** The events that keep the mirror: no change of date, no write that the
    store refuses, no write by anyone else, no loss of the sign-in. *)
Definition keepsMirror (e : Event) : bool :=
  match e with
  | AuthUser | ChangeUserName _ | Snapshot _ | SnapshotError _ => true
  | ToggleMedication _ ok | AddNote _ _ ok | AddBloodPressure _ _ _ ok => ok
  | SignInError | PreviousDay | NextDay | SetCurrentDate _
  | RemoteWrite _ _ => false
  end.

Lemma fieldLoads_stringify {V : Type} `{JSON V} (fallback v : V) :
  fieldLoads (Some (JSON_stringify v)) fallback v.
Proof.
  unfold fieldLoads.
  destruct (String.eqb_spec (JSON_stringify v) EmptyString) as [Heq | _].
  - now apply JSON_stringify_nonempty in Heq.
  - apply JSON_parse_stringify.
Qed.

Lemma fieldLoads_parsed {V : Type} `{JSON V} (field : option string)
    (fallbackText : string) (fallback v : V) :
  JSON_parse fallbackText = Some fallback ->
  JSON_parse (orElse field fallbackText) = Some v ->
  fieldLoads field fallback v.
Proof.
  intros Hfb. unfold fieldLoads, orElse.
  destruct field as [s |]; [destruct (String.eqb s EmptyString) |];
    intros Hv; congruence.
Qed.

Section Mirror.

Context `{!JSONObject (gmap string bool)} `{!JSONArray Note}
        `{!JSONArray Reading}.

Lemma onNext_mirrored w :
  mirrored w ->
  let ref := dailyRecordDocRef appId (currentDate (app w)) in
  let r := onNext (docs w !! ref) w in
  snd r = Returned /\
  medicationStatus (app (fst r)) = medicationStatus (app w) /\
  notes (app (fst r)) = notes (app w) /\
  bloodPressure (app (fst r)) = bloodPressure (app w) /\
  currentDate (app (fst r)) = currentDate (app w) /\
  isAuthReady (app (fst r)) = isAuthReady (app w) /\
  docs (fst r) = docs w.
Proof.
  unfold mirrored. cbv zeta. intros (Hs & Hn & Hb).
  destruct (docs w !! dailyRecordDocRef appId (currentDate (app w)))
    as [data |] eqn:Hd; cbn [default from_option Datatypes.id] in Hs, Hn, Hb.
  - unfold onNext.
    rewrite (fieldLoads_orElse _ "{}" ∅ _ JSON_parse_empty_object Hs).
    rewrite (fieldLoads_orElse _ "[]" [] _ JSON_parse_empty_array Hn).
    rewrite (fieldLoads_orElse _ "[]" [] _ JSON_parse_empty_array Hb).
    cbn. repeat split.
  - rewrite !lookup_empty in *. cbn in Hs, Hn, Hb. cbn.
    rewrite Hs, Hn, Hb. repeat split.
Qed.

Lemma write_mirrored {V : Type} `{JSON V} (field : string) (value : V)
    (f : State -> State) w :
  isAuthReady (app w) = true ->
  isAuthReady (f (app w)) = true ->
  currentDate (f (app w)) = currentDate (app w) ->
  let w' := fst (updateDailyRecord appId field value true (withApp f w)) in
  app w' = f (app w) /\
  default ∅ (docs w' !! dailyRecordDocRef appId (currentDate (app w')))
  = <["date" := formatDateForFirestore (currentDate (app w))]>
      {[ field := JSON_stringify value ]}
    ∪ default ∅ (docs w !! dailyRecordDocRef appId (currentDate (app w))).
Proof.
  intros Hr Hf Hd. cbv zeta.
  rewrite updateDailyRecord_ok by exact Hf.
  cbn [fst app docs withApp]. rewrite Hd. split; [reflexivity |].
  now rewrite lookup_insert_eq.
Qed.

Lemma step_mirrored w e :
  keepsMirror e = true ->
  listening w -> isAuthReady (app w) = true -> mirrored w ->
  mirrored (step appId w e) /\ isAuthReady (app (step appId w e)) = true.
Proof.
  intros He Hl Hr Hm. pose proof Hm as (Hs & Hn & Hb).
  destruct e; cbn in He; try discriminate; try subst ok; cbn [step].
  - rewrite onUser_eq, Hr. split; [exact Hm | exact Hr].
  - unfold handleToggleMedication.
    destruct (write_mirrored "medicationStatus"
                (toggled (medicationStatus (app w)) medId)
                (setMedicationStatus (toggled (medicationStatus (app w)) medId))
                w Hr Hr eq_refl) as [Ha Hd].
    unfold mirrored. rewrite Hd, Ha. cbn.
    rewrite merged_lookup_field, !merged_lookup_other by discriminate.
    split; [| exact Hr].
    split; [apply fieldLoads_stringify | split; assumption].
  - unfold handleAddNote.
    destruct (_ && _); [| destruct (String.eqb _ _); split; assumption].
    match goal with
    | |- context [updateDailyRecord _ _ ?v _ _] =>
        destruct (write_mirrored "notes" v (setNotes v) w Hr Hr eq_refl)
          as [Ha Hd]
    end.
    unfold mirrored. rewrite Hd, Ha. cbn.
    rewrite merged_lookup_field, !merged_lookup_other by discriminate.
    split; [| exact Hr].
    split; [assumption | split; [apply fieldLoads_stringify | assumption]].
  - unfold handleAddBloodPressure.
    destruct (_ && _); [| destruct (String.eqb _ _); split; assumption].
    match goal with
    | |- context [updateDailyRecord _ _ ?v _ _] =>
        destruct (write_mirrored "bloodPressure" v (setBloodPressure v) w
                    Hr Hr eq_refl) as [Ha Hd]
    end.
    unfold mirrored. rewrite Hd, Ha. cbn.
    rewrite merged_lookup_field, !merged_lookup_other by discriminate.
    split; [| exact Hr].
    split; [assumption | split; [assumption | apply fieldLoads_stringify]].
  - split; assumption.
  - unfold deliver. destruct (listenerRef lid w) as [ref |] eqn:Href;
      [| split; assumption].
    assert (ref = dailyRecordDocRef appId (currentDate (app w))) as ->.
    { unfold listenerRef in Href. unfold listening in Hl.
      destruct (effectCleanup w) as [lid0 |];
        [destruct Hl as [Hl _] |]; rewrite Hl in Href; cbn in Href;
        [| discriminate].
      destruct (Nat.eqb lid0 lid); cbn in Href; congruence. }
    destruct (onNext_mirrored w Hm) as (_ & Es & En & Eb & Ed & Er & Edocs).
    unfold mirrored. rewrite Es, En, Eb, Ed, Er, Edocs.
    split; [exact Hm | exact Hr].
  - unfold deliverError. destruct (listenerRef lid w); split; assumption.
Qed.

(** A snapshot of the current date that loads establishes the mirror: the
    three cells are then what the document of the current date loads as. *)
Theorem snapshot_establishes_mirror (w : World) :
  let r := onNext (docs w !! dailyRecordDocRef appId (currentDate (app w))) w in
  snd r = Returned -> mirrored (fst r).
Proof.
  cbv zeta. unfold onNext, mirrored.
  destruct (docs w !! dailyRecordDocRef appId (currentDate (app w)))
    as [data |] eqn:Hd.
  - destruct (JSON_parse (orElse (data !! "medicationStatus") "{}"))
      as [s |] eqn:Hs; [| discriminate].
    destruct (JSON_parse (orElse (data !! "notes") "[]"))
      as [n |] eqn:Hn; [| discriminate].
    destruct (JSON_parse (orElse (data !! "bloodPressure") "[]"))
      as [b |] eqn:Hb; [| discriminate].
    intros _. cbn. rewrite Hd. cbn.
    split; [| split].
    + eapply fieldLoads_parsed; [apply JSON_parse_empty_object | exact Hs].
    + eapply fieldLoads_parsed; [apply JSON_parse_empty_array | exact Hn].
    + eapply fieldLoads_parsed; [apply JSON_parse_empty_array | exact Hb].
  - intros _. cbn. rewrite Hd. cbn. rewrite !lookup_empty. cbn.
    repeat split.
Qed.

(** Signed in and mirroring the store, the component keeps mirroring it
    through check marks, notes and readings that the store accepts, name
    changes and snapshots: after any such events the three cells are what
    the document of the current date loads as, and a snapshot delivered
    then changes none of them. *)
Theorem mirror_is_kept (now : Date) (store : gmap string Doc)
    (before events : list Event) :
  let w := run appId (mounted now store) before in
  let w' := run appId w events in
  isAuthReady (app w) = true -> mirrored w ->
  forallb keepsMirror events = true ->
  mirrored w' /\
  forall lid,
    In lid (map fst (listeners w')) ->
    let w'' := step appId w' (Snapshot lid) in
    medicationStatus (app w'') = medicationStatus (app w') /\
    notes (app w'') = notes (app w') /\
    bloodPressure (app w'') = bloodPressure (app w') /\
    docs w'' = docs w'.
Proof.
  cbv zeta. intros Hr Hm Hev.
  set (w := run appId (mounted now store) before) in *.
  assert (Hl : listening w) by apply run_listening, mounted_listening.
  assert (Hall : listening (run appId w events) /\
                 isAuthReady (app (run appId w events)) = true /\
                 mirrored (run appId w events)).
  { clearbody w. revert w Hr Hm Hl Hev.
    induction events as [| e events IH]; intros w Hr Hm Hl Hev;
      [split; [exact Hl | split; [exact Hr | exact Hm]] |].
    cbn in Hev. apply andb_true_iff in Hev as [He Hev]. cbn.
    destruct (step_mirrored w e He Hl Hr Hm) as [Hm' Hr'].
    apply IH; [exact Hr' | exact Hm' | now apply step_listening | exact Hev]. }
  destruct Hall as (Hl' & Hr' & Hm'). split; [exact Hm' |].
  intros lid Hin. cbn [step]. unfold deliver, listenerRef.
  unfold listening in Hl'.
  destruct (effectCleanup (run appId w events)) as [lid0 |];
    [destruct Hl' as [Hl' _] |]; rewrite Hl' in *; cbn in Hin;
    [| contradiction].
  destruct Hin as [-> | []]. cbn. rewrite Nat.eqb_refl. cbn.
  destruct (onNext_mirrored _ Hm') as (_ & Es & En & Eb & _ & _ & Edocs).
  repeat split; assumption.
Qed.

End Mirror.

End SyncFacts.

(** *** The theorems at concrete inputs *)

(** The next day and the last Tuesday of the month. *)
Definition march6 : Date := localMidnight 2024 2 6.

(** The component of the page "demo", opened on 5 March 2024 in Buenos
    Aires on an empty store, once the anonymous sign-in has succeeded. *)
Definition demoWorld : World :=
  run (tz := buenosAires) "demo" (mounted march5 ∅) [AuthUser].

(** A store in which somebody has checked t4 on 5 March. *)
Definition checkedStore : gmap string Doc :=
  {[ dailyRecordDocRef "demo" march5 :=
       {[ "medicationStatus" :=
            JSON_stringify ({[ "t4" := true ]} : gmap string bool) ]} ]}.

(** The page opened on 5 March on that store, signed in, the listener of
    5 March registered. *)
Definition checkedPage : Page :=
  ticks (tz := buenosAires) "demo" (mountedPage march5 checkedStore)
    [Act AuthUser; PassiveEffects].

Lemma stale_subscription_witness :
  let p4 :=
    ticks (tz := buenosAires) "demo" checkedPage
      [Act (SetCurrentDate march6); Act (Snapshot 0); PassiveEffects;
       Act (RemoteWrite (dailyRecordDocRef "demo" march5) ∅);
       Act (ToggleMedication "t4" true)] in
  tick (tz := buenosAires) "demo" p4 (Act (Snapshot 0)) = p4.
Proof.
  cbv zeta.
  assert (Hin : In (0%nat, dailyRecordDocRef "demo" march5)
                   (listeners (world checkedPage)))
    by (left; vm_compute; reflexivity).
  destruct (stale_subscription_is_never_applied (tz := buenosAires) "demo"
              march5 checkedStore [Act AuthUser; PassiveEffects]
              [Act (Snapshot 0)]
              [Act (RemoteWrite (dailyRecordDocRef "demo" march5) ∅);
               Act (ToggleMedication "t4" true)]
              march6 0 (dailyRecordDocRef "demo" march5) Hin)
    as (_ & _ & _ & _ & _ & _ & Hs & _).
  exact Hs.
Defined.

(** C2, counterexample - On the page opened on 5 March the date is switched
    to 6 March; before React has run the cleanup, the listener of 5 March is
    given a snapshot: the check marks of 5 March are loaded while 6 March is
    the current date.  The claim as worded fails there. *)
Lemma stale_snapshot_before_cleanup_is_applied :
  ~ staleSnapshotNeverApplied (tz := buenosAires) "demo" checkedPage march6.
Proof.
  unfold staleSnapshotNeverApplied. intros Hclaim.
  specialize (Hclaim 0%nat (dailyRecordDocRef "demo" march5) []).
  cbv zeta in Hclaim.
  assert (Hin : In (0%nat, dailyRecordDocRef "demo" march5)
                   (listeners (world checkedPage)))
    by (left; vm_compute; reflexivity).
  destruct (Hclaim Hin eq_refl) as [Hm _].
  apply (f_equal (fun m : gmap string bool => m !! "t4")) in Hm.
  vm_compute in Hm. discriminate Hm.
Qed.

(** A store whose record of 5 March holds a [medicationStatus] that is not
    JSON, and the demo component opened on it. *)
Definition brokenStore : gmap string Doc :=
  {[ dailyRecordDocRef "demo" march5 := {[ "medicationStatus" := "oops" ]} ]}.

Definition brokenWorld : World :=
  run (tz := buenosAires) "demo" (mounted march5 brokenStore) [AuthUser].

Definition demoNote : Note := mkNote "ok" "Ana" "2024-03-05T10:00:00.000Z".

Definition demoReading : Reading :=
  mkReading "120" "80" "Ana" "2024-03-05T10:00:00.000Z".

Lemma patch_merges_witness :
  medicationStatus
    (app (observedAfterPatch (tz := buenosAires) "demo" "medicationStatus"
            ({[ "id1" := true ]} : gmap string bool) 0 demoWorld))
  = {[ "id1" := true ]} /\
  notes (app (observedAfterPatch (tz := buenosAires) "demo" "notes" [demoNote] 0 demoWorld))
  = [demoNote] /\
  bloodPressure
    (app (observedAfterPatch (tz := buenosAires) "demo" "bloodPressure" [demoReading] 0 demoWorld))
  = [demoReading] /\
  app (observedAfterPatch (tz := buenosAires) "demo" "notes" [demoNote] 0 brokenWorld)
  = app brokenWorld.
Proof.
  assert (Hr : isAuthReady (app demoWorld) = true) by reflexivity.
  assert (Hl : listenerRef 0 demoWorld
               = Some (dailyRecordDocRef "demo" (currentDate (app demoWorld))))
    by (vm_compute; reflexivity).
  assert (Hr' : isAuthReady (app brokenWorld) = true) by reflexivity.
  assert (Hl' : listenerRef 0 brokenWorld
                = Some (dailyRecordDocRef "demo"
                          (currentDate (app brokenWorld))))
    by (vm_compute; reflexivity).
  destruct (patch_merges_one_field (tz := buenosAires) "demo" demoWorld 0 Hr Hl)
    as (_ & Hs & Hn & Hb).
  destruct (patch_merges_one_field (tz := buenosAires) "demo" brokenWorld 0 Hr' Hl')
    as (_ & _ & Hn' & _).
  split; [apply Hs |].
  split; [exact (proj1 (Hn [demoNote])) |].
  split; [exact (proj1 (Hb [demoReading])) |].
  exact (Hn' [demoNote]).
Defined.

(** C3, counterexample - Where the stored [medicationStatus] is not JSON,
    the snapshot that follows a write of the notes throws before it reaches
    them: the written note is not in the state. *)
Lemma snapshot_after_patch_misses_notes :
  ~ snapshotReflectsNotes (tz := buenosAires) "demo" brokenWorld 0.
Proof.
  unfold snapshotReflectsNotes. intros Hclaim.
  specialize (Hclaim [demoNote]). vm_compute in Hclaim. discriminate Hclaim.
Qed.

(** The demo component with a reading taken, and a document whose [notes]
    are not JSON and which has no readings. *)
Definition measuredWorld : World :=
  run (tz := buenosAires) "demo" demoWorld
    [ChangeUserName "Ana";
     AddBloodPressure "120" "80" "2024-03-05T10:00:00.000Z" true].

Definition brokenNotes : Doc := {[ "notes" := "oops" ]}.

Lemma missing_record_witness :
  bloodPressure (app (fst (onNext None measuredWorld))) = [] /\
  bloodPressure
    (app (fst (onNext (Some ({[ "notes" := JSON_stringify [demoNote] ]} : Doc))
                 measuredWorld))) = [] /\
  notes
    (app (fst (onNext (Some ({[ "notes" := JSON_stringify [demoNote] ]} : Doc))
                 measuredWorld))) = [demoNote] /\
  bloodPressure (app (fst (onNext (Some brokenNotes) measuredWorld)))
  = [demoReading].
Proof.
  destruct (missing_record_and_fields_default (H := statusJSON)
              (H0 := notesJSON) (H1 := readingsJSON) measuredWorld)
    as ((_ & _ & _ & Hb & _) & _ & Hdata).
  split; [exact Hb |].
  pose proof (Hdata {[ "notes" := JSON_stringify [demoNote] ]}) as Hgood.
  pose proof (Hdata brokenNotes) as Hbad.
  cbv zeta in Hgood, Hbad.
  assert (E1 : loadedAs (({[ "notes" := JSON_stringify [demoNote] ]} : Doc)
                         !! "medicationStatus") (∅ : gmap string bool)
               = Some ∅) by reflexivity.
  assert (E2 : loadedAs (({[ "notes" := JSON_stringify [demoNote] ]} : Doc)
                         !! "notes") ([] : list Note)
               = Some [demoNote]) by (vm_compute; reflexivity).
  assert (E3 : loadedAs (({[ "notes" := JSON_stringify [demoNote] ]} : Doc)
                         !! "bloodPressure") ([] : list Reading)
               = Some []) by reflexivity.
  rewrite E1, E2, E3 in Hgood. destruct Hgood as (_ & Hn & _ & Hb' & _).
  split; [exact Hb' |]. split; [exact Hn |].
  assert (F1 : loadedAs (brokenNotes !! "medicationStatus")
                 (∅ : gmap string bool) = Some ∅) by reflexivity.
  assert (F2 : loadedAs (brokenNotes !! "notes") ([] : list Note) = None)
    by (vm_compute; reflexivity).
  rewrite F1, F2 in Hbad. destruct Hbad as (_ & _ & _ & Hb'' & _).
  rewrite Hb''. vm_compute. reflexivity.
Defined.

(** C7, counterexample - The document has no [bloodPressure] field, and its
    [notes] are not JSON: the snapshot throws at the notes and the readings
    are not reset to the empty default.  The claim as worded fails there. *)
Lemma missing_field_after_broken_one_is_not_defaulted :
  ~ fieldsDefaultIndependently measuredWorld brokenNotes.
Proof.
  unfold fieldsDefaultIndependently. cbv zeta. intros (_ & _ & Hb).
  specialize (Hb eq_refl). vm_compute in Hb. discriminate Hb.
Qed.

Lemma failed_write_witness :
  docs (fst (handleToggleMedication "demo" "t4" false demoWorld))
  = docs demoWorld.
Proof.
  destruct (proj2 (failed_write_is_logged_only "demo" demoWorld eq_refl) "t4")
    as (_ & _ & _ & _ & _ & Hd & _).
  exact Hd.
Defined.

(** C8, counterexample - A toggle whose write fails shows the user nothing:
    the claim as worded fails for the demo component and medication t4. *)
Lemma failed_write_shows_no_notice :
  ~ failedWriteIsNotified "demo" demoWorld "t4".
Proof.
  unfold failedWriteIsNotified, noticeShown. cbv zeta.
  intros (_ & [Ha | [_ Hs]] & _).
  - apply Ha. reflexivity.
  - discriminate Hs.
Qed.

(** Two different [Date] values of the same day: midnight and one o'clock. *)
Lemma record_address_witness :
  dailyRecordDocRef "demo" march5
  = dailyRecordDocRef "demo" (DateOf (localTime march5 + 3600000)).
Proof.
  assert (Hr1 : isAuthReady (app demoWorld) = true)
    by (vm_compute; reflexivity).
  assert (Hr2 : isAuthReady
                  (app (withApp
                          (setCurrentDateCell
                             (DateOf (localTime march5 + 3600000)))
                          demoWorld)) = true)
    by (vm_compute; reflexivity).
  assert (Hf : formatDateForFirestore (currentDate (app demoWorld))
               = formatDateForFirestore
                   (currentDate
                      (app (withApp
                              (setCurrentDateCell
                                 (DateOf (localTime march5 + 3600000)))
                              demoWorld))))
    by (vm_compute; reflexivity).
  pose proof (record_addressed_by_formatted_date "demo" demoWorld _
                Hr1 Hr2 Hf) as Hw.
  cbv zeta in Hw. destruct Hw as (E1 & E2 & _).
  change (currentDate (app demoWorld)) with march5 in E1.
  exact (eq_trans E1 (eq_sym E2)).
Defined.


(** An id that names a member of [Object.prototype] reads as checked where
    the status does not own it, and its first toggle binds it to false. *)
Lemma toggle_of_prototype_member :
  isChecked ∅ "constructor" = true /\
  toggled ∅ "constructor" !! "constructor" = Some false.
Proof. split; reflexivity. Qed.

Lemma day_buttons_witness :
  formatDateForFirestore
    (currentDate (app (goToNextDay (tz := buenosAires) "demo" demoWorld)))
  = "2024-03-06" /\
  currentDate (app (goToPreviousDay (tz := buenosAires) "demo"
                      (goToNextDay (tz := buenosAires) "demo" demoWorld)))
  = march5.
Proof.
  pose proof (day_buttons_move_one_day (tz := buenosAires) "demo" demoWorld
                buenosAires_Civil march5_wellInside) as Hw.
  cbv zeta in Hw.
  destruct Hw as (_ & _ & _ & _ & _ & _ & _ & _ & _ & _ & Hexact).
  destruct (Hexact ltac:(intros t; unfold LocalTime, UTC; simpl; lia))
    as (_ & _ & Hback & _).
  split; [vm_compute; reflexivity | exact Hback].
Defined.

(** 31 December 2024: the next day is 1 January 2025. *)
Lemma next_day_witness :
  let w :=
    setCurrentDate "demo" (localMidnight 2024 11 31)
      demoWorld in
  let next := currentDate (app (goToNextDay (tz := buenosAires) "demo" w)) in
  getFullYear next = 2025 /\ getMonth next = 0 /\ getDate next = 1.
Proof.
  cbv zeta.
  assert (Hin : wellInside
                  (currentDate
                     (app (setCurrentDate "demo"
                             (localMidnight 2024 11 31) demoWorld))))
    by (unfold wellInside; vm_compute; discriminate).
  pose proof (next_day_rolls_over (tz := buenosAires) "demo" _
                buenosAires_Civil Hin) as Hw.
  cbv zeta in Hw. destruct Hw as (_ & _ & _ & _ & Hdec).
  destruct (Hdec ltac:(vm_compute; reflexivity) ltac:(vm_compute; reflexivity))
    as (Hy & Hm & Hd).
  rewrite Hy, Hm.
  split; [vm_compute; reflexivity | split; [reflexivity | exact Hd]].
Defined.

(** The demo component after its first snapshot. *)
Definition loadedWorld : World :=
  step (tz := buenosAires) "demo" demoWorld (Snapshot 0).

Lemma date_switch_witness :
  medicationStatus (app (setCurrentDate "demo" march6 demoWorld))
  = medicationStatus (app demoWorld).
Proof.
  assert (Hr : isAuthReady (app demoWorld) = true) by (vm_compute; reflexivity).
  exact (proj1 (proj2 (date_switch_keeps_local_state "demo" demoWorld
                         march6 "t4" Hr))).
Defined.

Lemma nothing_remote_witness :
  setDocCalls (run (tz := buenosAires) "demo" (mounted march5 ∅)
                 [ToggleMedication "t4" true; NextDay; SignInError])
  = 0%nat.
Proof.
  refine (proj2 (proj2 (nothing_remote_before_sign_in (tz := buenosAires)
                          "demo" march5 ∅
                          [ToggleMedication "t4" true; NextDay; SignInError]
                          _))).
  cbn. intros [Ha | [Ha | [Ha | []]]]; discriminate Ha.
Defined.

Lemma loading_witness :
  loading (app (run (tz := buenosAires) "demo" loadedWorld
                  [NextDay; ToggleMedication "t4" true]))
  = false.
Proof.
  assert (Hl : loading (app loadedWorld) = false) by (vm_compute; reflexivity).
  exact (loading_is_never_set_again (tz := buenosAires) "demo" loadedWorld
           [NextDay; ToggleMedication "t4" true] Hl).
Defined.

Lemma snapshot_mirror_witness :
  mirrored "demo"
    (fst (onNext (docs demoWorld
                  !! dailyRecordDocRef "demo" (currentDate (app demoWorld)))
            demoWorld)).
Proof.
  apply (snapshot_establishes_mirror "demo" demoWorld).
  vm_compute. reflexivity.
Defined.

Lemma mirror_witness :
  mirrored "demo"
    (run (tz := buenosAires) "demo"
       (run (tz := buenosAires) "demo" (mounted march5 ∅)
          [AuthUser; Snapshot 0])
       [ToggleMedication "t4" true; AddNote "ok" "2024-03-05T10:00:00.000Z" true;
        Snapshot 0]).
Proof.
  refine (proj1 (mirror_is_kept (tz := buenosAires) "demo" march5 ∅
                   [AuthUser; Snapshot 0]
                   [ToggleMedication "t4" true;
                    AddNote "ok" "2024-03-05T10:00:00.000Z" true; Snapshot 0]
                   _ _ _)).
  - vm_compute. reflexivity.
  - unfold mirrored. vm_compute. repeat split.
  - reflexivity.
Defined.

End SyncFacts.


(* ===================================================================== *)
(** ** Facts about the medication definitions                             *)
(* ===================================================================== *)

Module ManageFacts.
Import JSDate JSDateFacts Schedule ScheduleFacts Sync Manage.

(** The form can be saved: name, time and frequency are filled in. *)
Definition complete (m : Med) : Prop :=
  name m <> EmptyString /\ time m <> EmptyString /\
  frequency m <> EmptyString.

Lemma complete_spec m :
  isBlank (name m) || isBlank (time m) || isBlank (frequency m) = false
  <-> complete m.
Proof.
  unfold complete, isBlank.
  destruct (String.eqb_spec (name m) EmptyString),
    (String.eqb_spec (time m) EmptyString),
    (String.eqb_spec (frequency m) EmptyString); cbn; intuition congruence.
Qed.

Lemma incomplete_spec m :
  isBlank (name m) || isBlank (time m) || isBlank (frequency m) = true
  <-> ~ complete m.
Proof.
  rewrite <- complete_spec.
  destruct (isBlank (name m) || isBlank (time m) || isBlank (frequency m));
    intuition congruence.
Qed.

(** The local list is the stored list. *)
Definition synced (w : Desk) : Prop :=
  definitionsDoc w = Some (medicationDefinitions (form w)).

(** [handleAddEditMedication] with a form that lacks the name, the time or
    the frequency: an [alert], and nothing else; [setDoc] is not called and
    the form keeps what was typed.  The dosage may be empty: a form with the
    three other fields filled in is sent to the store, once. *)
Theorem incomplete_form_is_rejected (now : Z) (ok : bool) (w : Desk) :
  let r := handleAddEditMedication now ok w in
  snd r = Returned /\
  (~ complete (newMedication (form w)) ->
   fst r = deskAlert "Nombre, horario y frecuencia son campos obligatorios." w /\
   form (fst r) = form w /\ definitionsDoc (fst r) = definitionsDoc w /\
   deskSetDocCalls (fst r) = deskSetDocCalls w) /\
  (complete (newMedication (form w)) ->
   deskSetDocCalls (fst r) = S (deskSetDocCalls w)).
Proof.
  cbv zeta. unfold handleAddEditMedication. cbv zeta.
  destruct (isBlank (name (newMedication (form w)))
            || isBlank (time (newMedication (form w)))
            || isBlank (frequency (newMedication (form w)))) eqn:Hb.
  - apply incomplete_spec in Hb. repeat split. contradiction.
  - apply complete_spec in Hb. unfold setDefinitionsDoc.
    destruct ok; cbn; repeat split; intros; contradiction.
Qed.

(** A complete form whose write the store accepts: the store and the local
    list both become the updated list, computed from the local list alone,
    whatever the store held; the form is blank again, the edit is over and
    the dialog is closed.  When the store refuses the write the local list,
    the store, the form and the dialog are as before, the error is logged
    and an [alert] is shown. *)
Theorem save_stores_the_local_list (now : Z) (ok : bool) (w : Desk) :
  complete (newMedication (form w)) ->
  let r := handleAddEditMedication now ok w in
  let updated := updatedMedications (form w) now in
  snd r = Returned /\
  (ok = true ->
   definitionsDoc (fst r) = Some updated /\
   form (fst r) = mkForm updated false blankMedication None /\
   deskAlerts (fst r) = deskAlerts w /\ deskConsole (fst r) = deskConsole w) /\
  (ok = false ->
   definitionsDoc (fst r) = definitionsDoc w /\
   form (fst r) = form w /\
   deskAlerts (fst r)
   = deskAlerts w ++ ["Error al guardar los medicamentos. Inténtalo de nuevo."] /\
   deskConsole (fst r)
   = deskConsole w ++ [ConsoleError "Error saving medication definitions:"]).
Proof.
  intros Hc. apply complete_spec in Hc. cbv zeta.
  unfold handleAddEditMedication. cbv zeta. rewrite Hc.
  unfold setDefinitionsDoc. destruct ok; cbn.
  - split; [reflexivity |]. split; [| discriminate]. intros _. repeat split.
  - split; [reflexivity |]. split; [discriminate |]. intros _. repeat split.
Qed.

(** *** The updated list *)

Lemma editing_Some f i :
  editing f = Some i <-> editMedicationId f = Some i /\ i <> EmptyString.
Proof.
  unfold editing, isBlank. destruct (editMedicationId f) as [j |].
  - destruct (String.eqb_spec j EmptyString) as [-> | Hne].
    + split; [discriminate |]. intros [[= <-] Hne]. contradiction.
    + split; [intros [= <-]; now split | now intros [[= <-] _]].
  - split; [discriminate | intros [Habs _]; discriminate].
Qed.

(** An edit replaces in place: the list keeps its length, its ids and its
    order; every entry with the edited id becomes the form with that id,
    every other entry is untouched.  When no entry has the id (it was
    deleted meanwhile) the list is unchanged. *)
Theorem edit_replaces_in_place (f : Form) (now : Z) (i : string) :
  editing f = Some i ->
  let l := medicationDefinitions f in
  let l' := updatedMedications f now in
  length l' = length l /\
  map id l' = map id l /\
  (forall (k : nat) (med : Med),
      l !! k = Some med ->
      l' !! k = Some (if String.eqb (id med) i
                      then withId (newMedication f) i else med)) /\
  (~ In i (map id l) -> l' = l).
Proof.
  intros He. cbv zeta. unfold updatedMedications. rewrite He.
  split; [apply length_map |]. split; [| split].
  - rewrite map_map. apply map_ext. intros med.
    destruct (String.eqb_spec (id med) i) as [-> | _]; reflexivity.
  - intros k med Hk. rewrite list_lookup_fmap, Hk. reflexivity.
  - intros Hn. rewrite <- (map_id (medicationDefinitions f)) at 2.
    apply map_ext_in. intros med Hin.
    destruct (String.eqb_spec (id med) i) as [<- | _]; [| reflexivity].
    exfalso. apply Hn. now apply in_map.
Qed.

(** An addition appends: the list is the old list followed by the form
    with the decimal text of [Date.now()] as id, whatever id the form
    carried.  Ids stay distinct when the time stamp is none of them, and
    two additions at different times get different ids.  A form opened by
    an edit click on an entry whose id is the empty string is an addition
    too. *)
Theorem add_appends_with_timestamp_id (f : Form) (now : Z) :
  editing f = None ->
  let l := medicationDefinitions f in
  let l' := updatedMedications f now in
  l' = l ++ [withId (newMedication f) (String_of now)] /\
  (List.NoDup (map id l) -> ~ In (String_of now) (map id l) ->
   List.NoDup (map id l')) /\
  (forall now' : Z,
      now' <> now ->
      id (withId (newMedication f) (String_of now'))
      <> id (withId (newMedication f) (String_of now))) /\
  (editMedicationId f = None \/ editMedicationId f = Some EmptyString).
Proof.
  intros He. cbv zeta. unfold updatedMedications. rewrite He.
  split; [reflexivity |]. split; [| split].
  - intros Hnd Hn. rewrite map_app. cbn.
    apply List.NoDup_app; [exact Hnd | |].
    + apply List.NoDup_cons; [intros [] | apply List.NoDup_nil].
    + intros x Hx [<- | []]. contradiction.
  - intros now' Hne Heq. cbn in Heq. apply String_of_inj in Heq. contradiction.
  - unfold editing, isBlank in He. destruct (editMedicationId f) as [j |];
      [| now left].
    destruct (String.eqb_spec j EmptyString) as [Hj | _];
      [right; now rewrite Hj | discriminate].
Qed.

(** *** Deleting *)

(** [handleDeleteMedication], confirmed and accepted by the store: the
    store and the local list become the local list without the entries of
    that id, the others in their order; the form and the dialog are not
    touched.  Declined, nothing happens at all.  Refused by the store, the
    list and the store stay, the error is logged and an [alert] shown. *)
Theorem delete_removes_by_id (medId : string) (confirmed ok : bool) (w : Desk) :
  let r := handleDeleteMedication medId confirmed ok w in
  let l := medicationDefinitions (form w) in
  let l' := medicationDefinitions (form (fst r)) in
  snd r = Returned /\
  (confirmed = false -> fst r = w) /\
  (confirmed = true -> ok = true ->
   definitionsDoc (fst r) = Some l' /\
   l' `sublist_of` l /\
   (forall med, In med l' <-> In med l /\ id med <> medId) /\
   (~ In medId (map id l) -> l' = l) /\
   newMedication (form (fst r)) = newMedication (form w) /\
   editMedicationId (form (fst r)) = editMedicationId (form w) /\
   showManageMedications (form (fst r)) = showManageMedications (form w) /\
   deskAlerts (fst r) = deskAlerts w) /\
  (confirmed = true -> ok = false ->
   form (fst r) = form w /\ definitionsDoc (fst r) = definitionsDoc w /\
   deskAlerts (fst r)
   = deskAlerts w ++ ["Error al eliminar el medicamento. Inténtalo de nuevo."] /\
   deskConsole (fst r)
   = deskConsole w ++ [ConsoleError "Error deleting medication:"]).
Proof.
  cbv zeta. unfold handleDeleteMedication, setDefinitionsDoc.
  destruct confirmed, ok; cbn;
    (split; [reflexivity |]); (split; [try discriminate; reflexivity |]);
    (split; [try discriminate | try discriminate]).
  - intros _ _. split; [reflexivity |]. split; [apply filter_sublist |].
    split; [| split; [| repeat split]].
    + intros med. rewrite filter_In.
      destruct (String.eqb_spec (id med) medId); cbn; intuition congruence.
    + intros Hn. induction (medicationDefinitions (form w)) as [| x l IH];
        [reflexivity |].
      cbn in *. destruct (String.eqb_spec (id x) medId) as [Heq | _]; cbn.
      * exfalso. apply Hn. now left.
      * f_equal. apply IH. intros Hin. apply Hn. now right.
  - intros _ _. repeat split.
Qed.

(** *** Loading the definitions *)

(** [fetchDefinitions]: a document that exists is loaded as it is, an empty
    list included, and nothing is written; when there is none the defaults
    are written and loaded.  A read or a write that fails is logged and
    leaves the local list and the store as they were.  No [alert] is shown
    in any case. *)
Theorem fetch_loads_or_seeds (readOk writeOk : bool) (w : Desk) :
  let r := fetchDefinitions readOk writeOk w in
  snd r = Returned /\
  deskAlerts (fst r) = deskAlerts w /\
  (forall l,
      readOk = true -> definitionsDoc w = Some l ->
      fst r = withForm (setMedicationDefinitions l) w) /\
  (readOk = true -> definitionsDoc w = None -> writeOk = true ->
   definitionsDoc (fst r) = Some defaultMedications /\
   medicationDefinitions (form (fst r)) = defaultMedications /\
   deskSetDocCalls (fst r) = S (deskSetDocCalls w)) /\
  (readOk = false \/ (definitionsDoc w = None /\ writeOk = false) ->
   form (fst r) = form w /\ definitionsDoc (fst r) = definitionsDoc w /\
   deskConsole (fst r)
   = deskConsole w
     ++ [ConsoleError "Error fetching or setting medication definitions:"]).
Proof.
  cbv zeta. unfold fetchDefinitions, setDefinitionsDoc.
  destruct readOk; [destruct (definitionsDoc w) as [l |] eqn:Hd;
                    [| destruct writeOk] |]; cbn.
  - split; [reflexivity |]. split; [reflexivity |].
    split; [now intros l' _ [= <-] |]. split; [discriminate |].
    intros [Habs | [Habs _]]; discriminate.
  - split; [reflexivity |]. split; [reflexivity |].
    split; [discriminate |]. split; [now repeat split |].
    intros [Habs | [_ Habs]]; discriminate.
  - split; [reflexivity |]. split; [reflexivity |].
    split; [discriminate |]. split; [discriminate |].
    intros _. now repeat split.
  - split; [reflexivity |]. split; [reflexivity |].
    split; [discriminate |]. split; [discriminate |].
    intros _. now repeat split.
Qed.

(** *** One device *)

Lemma deskStep_synced w e : synced w -> synced (deskStep w e).
Proof.
  unfold synced. intros Hw.
  destruct e; cbn [deskStep]; try exact Hw.
  - unfold fetchDefinitions. destruct readOk; [| exact Hw].
    rewrite Hw. cbn. exact Hw.
  - unfold handleAddEditMedication. cbv zeta.
    destruct (_ || _); [exact Hw |].
    unfold setDefinitionsDoc. destruct ok; [reflexivity | exact Hw].
  - unfold handleDeleteMedication. destruct confirmed; [| exact Hw].
    unfold setDefinitionsDoc. destruct ok; [reflexivity | exact Hw].
Qed.

(** Once the definitions have been fetched, the local list is the stored
    list after whatever the user of the device does in the dialog, saves
    and deletions that the store refuses included. *)
Theorem definitions_stay_in_sync
    (store : option (list Med)) (writeOk : bool) (events : list DeskEvent) :
  (store = None -> writeOk = true) ->
  synced (deskRun (opened store) (Fetch true writeOk :: events)).
Proof.
  intros Hok. cbn [deskRun fold_left].
  assert (H0 : synced (deskStep (opened store) (Fetch true writeOk))).
  { unfold synced. cbn. destruct store as [l |]; [reflexivity |].
    rewrite Hok by reflexivity. reflexivity. }
  revert H0. generalize (deskStep (opened store) (Fetch true writeOk)).
  induction events as [| e events IH]; intros w Hw; [exact Hw |].
  cbn. apply IH, deskStep_synced, Hw.
Qed.

(** *** Two devices *)

(** Two devices hold the same list and each adds a definition: the second
    save writes its own list over the document, so the store ends without
    the definition the first device added. *)
Theorem concurrent_saves_lose_the_first (wA wB : Desk) (nowA nowB : Z) :
  complete (newMedication (form wA)) ->
  complete (newMedication (form wB)) ->
  editing (form wA) = None -> editing (form wB) = None ->
  medicationDefinitions (form wA) = medicationDefinitions (form wB) ->
  nowA <> nowB ->
  ~ In (String_of nowA) (map id (medicationDefinitions (form wA))) ->
  let l := medicationDefinitions (form wA) in
  let a := withId (newMedication (form wA)) (String_of nowA) in
  let b := withId (newMedication (form wB)) (String_of nowB) in
  let wA' := fst (handleAddEditMedication nowA true wA) in
  let wB' :=
    fst (handleAddEditMedication nowB true
           (withStore (definitionsDoc wA') wB)) in
  definitionsDoc wA' = Some (l ++ [a]) /\
  definitionsDoc wB' = Some (l ++ [b]) /\
  ~ In a (l ++ [b]).
Proof.
  intros HcA HcB HeA HeB Hl Hne Hfresh. cbv zeta.
  apply complete_spec in HcA, HcB.
  unfold handleAddEditMedication. cbv zeta. cbn [form withStore].
  rewrite HcA, HcB. unfold updatedMedications. rewrite HeA, HeB.
  cbn. split; [reflexivity |]. split; [now rewrite Hl |].
  intros Hin. apply in_app_iff in Hin as [Hin | [Heq | []]].
  - apply Hfresh. apply in_map_iff. eexists. split; [| exact Hin]. reflexivity.
  - apply (f_equal id) in Heq. cbn in Heq.
    apply String_of_inj in Heq. congruence.
Qed.

(** *** From the edit button to the saved entry *)

Definition replaced (med : Med) (n ds t fr : string) (x : Med) : Med :=
  if String.eqb (id x) (id med) then mkMed (id med) n ds t fr else x.

(** The edit button on an entry, the four inputs filled in and the save
    accepted: the entries with that id are now what was typed, under the old
    id; the other entries, the length and the order of the list are as
    before; the store holds the same list; the form is blank and the dialog
    closed. *)
Theorem edit_click_then_save (w : Desk) (med : Med) (n ds t fr : string)
    (now : Z) :
  id med <> EmptyString ->
  n <> EmptyString -> t <> EmptyString -> fr <> EmptyString ->
  let w' :=
    deskRun w [EditClick med; ChangeName n; ChangeDosage ds; ChangeTime t;
               ChangeFrequency fr; Save now true] in
  let l' := map (replaced med n ds t fr) (medicationDefinitions (form w)) in
  form w' = mkForm l' false blankMedication None /\
  definitionsDoc w' = Some l'.
Proof.
  intros Hid Hn Ht Hfr. cbv zeta. cbn [deskRun fold_left deskStep].
  set (w5 := changeFrequency fr _).
  assert (Hf : form w5
               = mkForm (medicationDefinitions (form w)) true
                        (mkMed (id med) n ds t fr) (Some (id med)))
    by reflexivity.
  assert (Hc : complete (newMedication (form w5)))
    by (rewrite Hf; repeat split; assumption).
  assert (He : editing (form w5) = Some (id med))
    by (apply editing_Some; rewrite Hf; now split).
  apply complete_spec in Hc.
  unfold handleAddEditMedication. cbv zeta. rewrite Hc.
  unfold updatedMedications. rewrite He, Hf. cbn. split; reflexivity.
Qed.

(** *** The definitions and the schedule *)

Section Zoned.

Context {tz : TimeZone}.

Lemma resolve_of_sublist defs defs' d r :
  (forall med, In med defs' -> In med defs) ->
  resolve defs d = Some r -> exists r', resolve defs' d = Some r'.
Proof.
  intros Hsub Hr. apply resolve_Some in Hr as (Hall & Hplain & _).
  eexists. apply resolve_Some. split; [| split; [| reflexivity]].
  - rewrite Forall_forall in *. intros med Hin. apply Hall.
    apply list_elem_of_In, Hsub, list_elem_of_In, Hin.
  - unfold plainSlots in *. rewrite Forall_forall in *. intros med Hin.
    apply list_elem_of_In, filter_In in Hin as [Hin Hinc]. apply Hplain.
    apply list_elem_of_In, filter_In. split; [now apply Hsub | exact Hinc].
Qed.

(** A deletion that is saved takes the entries of that id off the schedule
    of every date and leaves the rest of every schedule as it was: where the
    filter returns for the list before, it returns for the list after, with
    the entries of that id taken out; where the render produces a
    resolution before, it produces one after, which shows the definitions
    shown before except those of that id. *)
Theorem deleted_definition_leaves_every_schedule
    (medId : string) (w : Desk) (d : Date) :
  let defs := medicationDefinitions (form w) in
  let defs' :=
    medicationDefinitions (form (fst (handleDeleteMedication medId true true w))) in
  (forall shown,
      getFilteredMedications d defs = Some shown ->
      getFilteredMedications d defs'
      = Some (List.filter (fun med => negb (String.eqb (id med) medId)) shown)) /\
  (forall r,
      resolve defs d = Some r ->
      exists r',
        resolve defs' d = Some r' /\
        forall med, shownIn r' med <-> shownIn r med /\ id med <> medId).
Proof.
  cbv zeta.
  assert (Hdefs :
            medicationDefinitions
              (form (fst (handleDeleteMedication medId true true w)))
            = List.filter (fun med => negb (String.eqb (id med) medId))
                          (medicationDefinitions (form w))) by reflexivity.
  rewrite Hdefs. split.
  - intros shown Hs. apply getFilteredMedications_Some in Hs as [Hall ->].
    apply getFilteredMedications_Some. split; [| apply filter_comm].
    rewrite Forall_forall in *. intros med Hin. apply Hall.
    apply list_elem_of_In, filter_In in Hin as [Hin _].
    now apply list_elem_of_In.
  - intros r Hr.
    destruct (resolve_of_sublist (medicationDefinitions (form w))
                (List.filter (fun med => negb (String.eqb (id med) medId))
                   (medicationDefinitions (form w))) d r) as [r' Hr'];
      [intros med Hin; now apply filter_In in Hin | exact Hr |].
    exists r'. split; [exact Hr' |]. intros med.
    rewrite (shownIn_iff _ _ _ med Hr'), (shownIn_iff _ _ _ med Hr), filter_In.
    destruct (String.eqb_spec (id med) medId); cbn; intuition congruence.
Qed.

(** An addition that is saved puts the new entry on the schedule of exactly
    the dates its frequency selects, after the entries already shown, and
    leaves the rest of every schedule as it was: where the filter returns
    for the list after, it returns for the list before, and the new entry
    follows what was shown; where the render produces a resolution after,
    it produces one before, and what is shown after is what was shown
    before and, when the callback accepts it, the new entry.  The render
    that produced a resolution before produces one after when the callback
    returns for the new entry and, where it accepts it, the slot of the new
    entry does not name a member of [Object.prototype]. *)
Theorem added_definition_joins_every_schedule (now : Z) (w : Desk) (d : Date) :
  complete (newMedication (form w)) ->
  editing (form w) = None ->
  let defs := medicationDefinitions (form w) in
  let defs' :=
    medicationDefinitions (form (fst (handleAddEditMedication now true w))) in
  let new := withId (newMedication (form w)) (String_of now) in
  (forall shown',
      getFilteredMedications d defs' = Some shown' ->
      exists shown,
        getFilteredMedications d defs = Some shown /\
        shown' = shown ++ match filterCallback d new with
                          | Some true => [new]
                          | _ => []
                          end) /\
  (forall r',
      resolve defs' d = Some r' ->
      exists r,
        resolve defs d = Some r /\
        forall med,
          shownIn r' med
          <-> shownIn r med \/ (med = new /\ filterCallback d new = Some true)) /\
  (forall r,
      resolve defs d = Some r ->
      filterCallback d new <> None ->
      (filterCallback d new = Some true -> inherited (time new) = false) ->
      exists r', resolve defs' d = Some r').
Proof.
  intros Hc He. cbv zeta. apply complete_spec in Hc.
  set (new := withId (newMedication (form w)) (String_of now)).
  assert (Hdefs :
            medicationDefinitions
              (form (fst (handleAddEditMedication now true w)))
            = medicationDefinitions (form w) ++ [new]).
  { unfold handleAddEditMedication. cbv zeta. rewrite Hc.
    unfold updatedMedications. rewrite He. reflexivity. }
  rewrite Hdefs. set (defs := medicationDefinitions (form w)).
  assert (Hshown : List.filter (included d) (defs ++ [new])
                   = List.filter (included d) defs
                     ++ match filterCallback d new with
                        | Some true => [new]
                        | _ => []
                        end).
  { rewrite List.filter_app. cbn [List.filter]. f_equal. unfold included.
    now destruct (filterCallback d new) as [[|] |]. }
  split; [| split].
  - intros shown' Hs. apply getFilteredMedications_Some in Hs as [Hall ->].
    exists (List.filter (included d) defs). split; [| exact Hshown].
    apply getFilteredMedications_Some. split; [| reflexivity].
    apply Forall_app in Hall as [Hall _]. exact Hall.
  - intros r' Hr'.
    destruct (resolve_of_sublist (defs ++ [new]) defs d r') as [r Hr];
      [intros med Hin; apply in_app_iff; now left | exact Hr' |].
    exists r. split; [exact Hr |]. intros med.
    rewrite (shownIn_iff _ _ _ med Hr'), (shownIn_iff _ _ _ med Hr).
    rewrite in_app_iff, included_true. cbn. split.
    + intros [[Hin | [<- | []]] Hf]; [left | right]; now split.
    + intros [[Hin Hf] | [-> Hf]]; (split; [| exact Hf]);
        [now left | right; now left].
  - intros r Hr Hret Hslot.
    apply resolve_Some in Hr as (Hall & Hplain & _).
    eexists. apply resolve_Some. split; [| split; [| reflexivity]].
    + apply Forall_app. split; [exact Hall |]. now constructor.
    + unfold plainSlots in *. rewrite Hshown. apply Forall_app.
      split; [exact Hplain |].
      destruct (filterCallback d new) as [[|] |]; constructor;
        [now apply Hslot | constructor].
Qed.

End Zoned.

(** *** The theorems at concrete inputs *)

(** The dialog of a device that has fetched the default list, with a new
    definition typed in. *)
Definition demoDesk : Desk :=
  deskRun (opened None)
    [Fetch true true; OpenManage; ChangeName "Paracetamol";
     ChangeTime "Noche"; ChangeFrequency "Diario"].

Lemma demoDesk_complete : complete (newMedication (form demoDesk)).
Proof. repeat split; discriminate. Defined.

Lemma save_witness :
  definitionsDoc (fst (handleAddEditMedication 1710000000000 true demoDesk))
  = Some (updatedMedications (form demoDesk) 1710000000000).
Proof.
  exact (proj1 (proj1 (proj2 (save_stores_the_local_list 1710000000000 true
                                demoDesk demoDesk_complete)) eq_refl)).
Defined.

Lemma edit_witness :
  let f := mkForm defaultMedications true
                  (mkMed EmptyString "T4" "50mg" "Ayunas" "Diario") (Some "t4") in
  length (updatedMedications f 0) = length defaultMedications.
Proof.
  exact (proj1 (edit_replaces_in_place
                  (mkForm defaultMedications true
                          (mkMed EmptyString "T4" "50mg" "Ayunas" "Diario") (Some "t4"))
                  0 "t4" eq_refl)).
Defined.

Lemma add_witness :
  updatedMedications (form demoDesk) 1710000000000
  = medicationDefinitions (form demoDesk)
    ++ [withId (newMedication (form demoDesk)) (String_of 1710000000000)].
Proof.
  exact (proj1 (add_appends_with_timestamp_id (form demoDesk) 1710000000000
                  eq_refl)).
Defined.

Lemma sync_witness :
  synced (deskRun (opened None)
            [Fetch true true; Delete "t4" true true; Save 5 false;
             EditClick (mkMed "b12" "B12" EmptyString "Noche" "Diario");
             Save 6 true]).
Proof.
  apply (definitions_stay_in_sync None true
           [Delete "t4" true true; Save 5 false;
            EditClick (mkMed "b12" "B12" EmptyString "Noche" "Diario"); Save 6 true]).
  reflexivity.
Defined.

Lemma concurrent_witness :
  ~ In (withId (newMedication (form demoDesk)) (String_of 1710000000000))
       (medicationDefinitions (form demoDesk)
        ++ [withId (newMedication (form (changeName "Ibuprofeno" demoDesk)))
                   (String_of 1710000000001)]).
Proof.
  refine (proj2 (proj2 (concurrent_saves_lose_the_first demoDesk
                          (changeName "Ibuprofeno" demoDesk)
                          1710000000000 1710000000001
                          demoDesk_complete _ eq_refl eq_refl eq_refl _ _))).
  - repeat split; discriminate.
  - discriminate.
  - vm_compute. intuition discriminate.
Defined.

Lemma edit_click_witness :
  definitionsDoc
    (deskRun demoDesk
       [EditClick (mkMed "t4" "T4" EmptyString "Ayunas" "Diario"); ChangeName "T4";
        ChangeDosage "50mg"; ChangeTime "Ayunas"; ChangeFrequency "Diario";
        Save 7 true])
  = Some (map (replaced (mkMed "t4" "T4" EmptyString "Ayunas" "Diario")
                 "T4" "50mg" "Ayunas" "Diario")
            (medicationDefinitions (form demoDesk))).
Proof.
  refine (proj2 (edit_click_then_save demoDesk
                   (mkMed "t4" "T4" EmptyString "Ayunas" "Diario")
                   "T4" "50mg" "Ayunas" "Diario" 7 _ _ _ _)); discriminate.
Defined.

Lemma deleted_definition_witness :
  exists r r',
    resolve (tz := buenosAires) defaultMedications march5 = Some r /\
    resolve (tz := buenosAires)
      (medicationDefinitions
         (form (fst (handleDeleteMedication "t4" true true demoDesk))))
      march5 = Some r' /\
    ~ shownIn r' (mkMed "t4" "T4" EmptyString "Ayunas" "Diario").
Proof.
  destruct (resolve (tz := buenosAires) defaultMedications march5)
    as [r |] eqn:Hr; [| vm_compute in Hr; discriminate].
  destruct (proj2 (deleted_definition_leaves_every_schedule
                     (tz := buenosAires) "t4" demoDesk march5) r Hr)
    as (r' & Hr' & Hshown).
  exists r, r'. split; [reflexivity |]. split; [exact Hr' |].
  intros Hin. apply Hshown in Hin as [_ Hid]. now apply Hid.
Defined.

Lemma added_definition_witness :
  exists r',
    resolve (tz := buenosAires)
      (medicationDefinitions
         (form (fst (handleAddEditMedication 1710000000000 true demoDesk))))
      march5 = Some r' /\
    shownIn r' (withId (newMedication (form demoDesk)) (String_of 1710000000000)).
Proof.
  destruct (resolve (tz := buenosAires)
              (medicationDefinitions
                 (form (fst (handleAddEditMedication 1710000000000 true
                               demoDesk))))
              march5) as [r' |] eqn:Hr'; [| vm_compute in Hr'; discriminate].
  destruct (proj1 (proj2 (added_definition_joins_every_schedule
                            (tz := buenosAires) 1710000000000 demoDesk march5
                            demoDesk_complete eq_refl)) r' Hr')
    as (r & _ & Hshown).
  exists r'. split; [reflexivity |]. apply Hshown.
  right. split; reflexivity.
Defined.

End ManageFacts.


(* ===================================================================== *)
(** ** Facts about the user name                                          *)
(* ===================================================================== *)

Module ProfileFacts.
Import Profile.

Section TrimFacts.

Variable trim : string -> string.

(** A name that is not blank is stored trimmed and closes the dialog, while
    the session goes on with the name as typed; the next time the page is
    loaded the trimmed name is the user name and the dialog stays closed.
    Whatever was stored before is replaced. *)
Theorem saved_name_survives_reload (p : Profile) :
  trim (userName p) <> EmptyString ->
  let p' := handleSaveUserName trim p in
  let q := effect2 (loaded (storedName p')) in
  userName p' = userName p /\ showNameInput p' = false /\
  storedName p' = Some (trim (userName p)) /\
  userName q = trim (userName p) /\ showNameInput q = false.
Proof.
  intros Hn. cbv zeta. unfold handleSaveUserName.
  destruct (String.eqb_spec (trim (userName p)) EmptyString) as [He | _];
    [contradiction |].
  cbn. unfold effect2. cbn.
  destruct (String.eqb_spec (trim (userName p)) EmptyString) as [He | _];
    [contradiction |].
  repeat split.
Qed.

End TrimFacts.

(** Trimming that knows the space only, for the example. *)
Fixpoint dropSpaces (s : string) : string :=
  match s with
  | String " " s' => dropSpaces s'
  | _ => s
  end.

Lemma saved_name_witness :
  userName (effect2 (loaded (storedName
              (handleSaveUserName dropSpaces (mkProfile " Ana" true None)))))
  = "Ana".
Proof.
  refine (proj1 (proj2 (proj2 (proj2
            (saved_name_survives_reload dropSpaces
               (mkProfile " Ana" true None) _))))).
  discriminate.
Defined.

End ProfileFacts.
